(** * RAG-Pipeline: the task engine behind the API, checked against its description

    The repository submits named Celery tasks from FastAPI route handlers,
    composes them into a chain and a chord, retries a failing division with
    an exponential countdown, and exposes a status endpoint that reads the
    result backend.  This development embeds

    - the Python values and arithmetic the task bodies use
      ([src/tasks/basic_tasks.py]),
    - the part of Celery's documented contract the route handlers rely on
      (result backend, [AsyncResult], [Task.retry], the worker's handling of
      a message, chain links, the chord counter and the hard time limit),
    - the route handlers of [src/api/routes/tasks.py] and
      [src/api/routes/rag.py], the RAG task wrappers, and the polling loop
      of [scripts/python/test_tasks.py],
    - the API key check of [src/api/auth.py], the key generator of
      [scripts/python/generate_api_keys.py], and the rate limiter of
      [src/api/rate_limit.py] with the Redis commands it sends,

    and states the properties of the description over them, followed by
    further properties read off the code. *)

From Stdlib Require Import ZArith List Bool String Ascii Sorted.
From Stdlib Require Import SpecFloat.
From stdpp Require Import gmap strings list fin_maps pretty relations.

Set Warnings "-register-all".

Open Scope string_scope.
Open Scope Z_scope.

(** ** Python values *)

Module Py.

(** Binary64, the format of a Python [float]. *)
Definition prec : Z := 53.
Definition emax : Z := 1024.

Inductive pyval : Type :=
  | VNone
  | VBool (b : bool)
  | VInt (z : Z)
  | VFloat (f : spec_float)
  | VStr (s : string)
  | VList (l : list pyval)
  | VDict (kvs : list (string * pyval)).

Inductive exc_class : Type :=
  | ZeroDivisionError
  | OverflowError
  | TypeError
  | KeyError
  | ValueError
  | NotRegistered
  | ChordError
  | TimeLimitExceeded.

(** Instances of [Exception].  [Retry] is Celery's [celery.exceptions.Retry],
    which carries the original exception and the delay ([when]). *)
Inductive pyexn : Type :=
  | Exn (cls : exc_class) (msg : string)
  | Retry (exc : pyexn) (when : Z).

(** The outcome of evaluating an expression or a call: a value, or a raised
    exception. *)
Definition result (A : Type) : Type := A + pyexn.
Definition ret {A} (a : A) : result A := inl a.
Definition raise {A} (e : pyexn) : result A := inr e.
Definition bind {A B} (m : result A) (k : A -> result B) : result B :=
  match m with
  | inl a => k a
  | inr e => inr e
  end.

(** [type(v).__name__] *)
Definition type_name (v : pyval) : string :=
  match v with
  | VNone => "NoneType"
  | VBool _ => "bool"
  | VInt _ => "int"
  | VFloat _ => "float"
  | VStr _ => "str"
  | VList _ => "list"
  | VDict _ => "dict"
  end.

(** The [TypeError] of a binary operator that neither operand implements
    for the other. *)
Definition unsupported (op : string) (x y : pyval) : pyexn :=
  Exn TypeError
    (String.append "unsupported operand type(s) for "
       (String.append op
          (String.append ": '"
             (String.append (type_name x)
                (String.append "' and '" (String.append (type_name y) "'")))))).

(** The [TypeError] of [x + y] where [x] is a [str] or a [list] and [y] is
    not: the message puts the type of [y] between double quotes. *)
Definition cannot_concatenate (x y : pyval) : pyexn :=
  let quote := String "034"%char EmptyString in
  Exn TypeError
    (String.append "can only concatenate "
       (String.append (type_name x)
          (String.append " (not "
             (String.append quote
                (String.append (type_name y)
                   (String.append quote
                      (String.append ") to " (type_name x)))))))).

(** The largest number of digits of an [int] that [str] and [repr], and
    with them the json serializer, convert to text:
    [sys.int_info.default_max_str_digits]. *)
Definition max_str_digits : Z := 4300.

(** An [int] that json can write and read: one of more than
    [max_str_digits] digits makes the conversion raise [ValueError], so that
    it can be neither an argument of a message nor a stored result. *)
Definition json_int (z : Z) : Prop := Z.abs z < 10 ^ max_str_digits.

(** [bool] is a subclass of [int]. *)
Definition as_int (v : pyval) : option Z :=
  match v with
  | VInt z => Some z
  | VBool b => Some (Z.b2z b)
  | _ => None
  end.

(** [float(z)] for an [int]: the nearest binary64 (ties to even), or
    [OverflowError] when it is out of range. *)
Definition float_of_int (z : Z) : result spec_float :=
  match binary_normalize prec emax z 0 false with
  | S754_infinity _ => raise (Exn OverflowError "int too large to convert to float")
  | f => ret f
  end.

Definition int_as_float (z : Z) : spec_float :=
  match z with
  | Z0 => S754_zero false
  | Zpos p => S754_finite false p 0
  | Zneg p => S754_finite true p 0
  end.

(** [a / b] on two [int]s: the correctly rounded quotient. *)
Definition int_truediv (a b : Z) : result spec_float :=
  if b =? 0 then raise (Exn ZeroDivisionError "division by zero")
  else
    match SFdiv prec emax (int_as_float a) (int_as_float b) with
    | S754_infinity _ =>
        raise (Exn OverflowError "integer division result too large for a float")
    | f => ret f
    end.

Definition float_is_zero (f : spec_float) : bool :=
  match f with
  | S754_zero _ => true
  | _ => false
  end.

Definition float_truediv (a b : spec_float) : result spec_float :=
  if float_is_zero b then raise (Exn ZeroDivisionError "float division by zero")
  else ret (SFdiv prec emax a b).

(** The operand of a binary arithmetic operator, as Python coerces it. *)
Inductive operands : Type :=
  | BothInt (a b : Z)
  | BothFloat (a b : spec_float)
  | Unsupported.

Definition as_float (v : pyval) : option (result spec_float) :=
  match v with
  | VFloat f => Some (ret f)
  | _ => option_map float_of_int (as_int v)
  end.

Definition coerce (x y : pyval) : result operands :=
  match as_int x, as_int y with
  | Some a, Some b => ret (BothInt a b)
  | _, _ =>
      match as_float x, as_float y with
      | Some fa, Some fb =>
          bind fa (fun a => bind fb (fun b => ret (BothFloat a b)))
      | _, _ => ret Unsupported
      end
  end.

(** [x / y] *)
Definition truediv (x y : pyval) : result pyval :=
  bind (coerce x y) (fun ops =>
    match ops with
    | BothInt a b => bind (int_truediv a b) (fun f => ret (VFloat f))
    | BothFloat a b => bind (float_truediv a b) (fun f => ret (VFloat f))
    | Unsupported => raise (unsupported "/" x y)
    end).

(** [x + y] on numbers, strings and lists. *)
Definition add (x y : pyval) : result pyval :=
  match x, y with
  | VStr a, VStr b => ret (VStr (String.append a b))
  | VList a, VList b => ret (VList (a ++ b))
  | _, _ =>
      bind (coerce x y) (fun ops =>
        match ops with
        | BothInt a b => ret (VInt (a + b))
        | BothFloat a b => ret (VFloat (SFadd prec emax a b))
        | Unsupported =>
            raise (match x with
                   | VStr _ | VList _ => cannot_concatenate x y
                   | _ => unsupported "+" x y
                   end)
        end)
  end.

(** [f == n] for a float [f] and an int [n]: Python compares the exact
    values. *)
Definition float_eq_int (f : spec_float) (n : Z) : bool :=
  match f with
  | S754_zero _ => n =? 0
  | S754_finite s m e =>
      let sm := cond_Zopp s (Zpos m) in
      if 0 <=? e then sm * 2 ^ e =? n else n * 2 ^ (- e) =? sm
  | _ => false
  end.

(** [v == n] where [n] is an [int]; a value that is not a number is never
    equal to one. *)
Definition eq_int (v : pyval) (n : Z) : bool :=
  match v with
  | VFloat f => float_eq_int f n
  | _ =>
      match as_int v with
      | Some z => z =? n
      | None => false
      end
  end.

(** [v == ns] where [ns] is a list of [int]s. *)
Definition eq_int_list (v : pyval) (ns : list Z) : bool :=
  match v with
  | VList l =>
      (length l =? length ns)%nat && forallb (fun p => eq_int (fst p) (snd p)) (combine l ns)
  | _ => false
  end.

(** The items a [for] loop or [sum] draws from a value: the elements of a
    list, the keys of a dict, the characters of a string. *)
Definition iterate (v : pyval) : result (list pyval) :=
  match v with
  | VList l => ret l
  | VDict kvs => ret (map (fun kv => VStr (fst kv)) kvs)
  | VStr s => ret (map (fun c => VStr (String c EmptyString)) (list_ascii_of_string s))
  | _ => raise (Exn TypeError
                 (String.append "'" (String.append (type_name v) "' object is not iterable")))
  end.

(** A comprehension [[f(x) for x in l]]: the first exception ends it. *)
Fixpoint map_result {A B} (f : A -> result B) (l : list A) : result (list B) :=
  match l with
  | [] => ret []
  | x :: l' => bind (f x) (fun y => bind (map_result f l') (fun ys => ret (y :: ys)))
  end.

(** [sum(iterable)]: the left fold of [+] from [0]. *)
Fixpoint sum_from (acc : pyval) (l : list pyval) : result pyval :=
  match l with
  | [] => ret acc
  | v :: l' => bind (add acc v) (fun acc' => sum_from acc' l')
  end.

Definition sum (v : pyval) : result pyval :=
  bind (iterate v) (sum_from (VInt 0)).

(** The name of an exception class. *)
Definition class_name (c : exc_class) : string :=
  match c with
  | ZeroDivisionError => "ZeroDivisionError"
  | OverflowError => "OverflowError"
  | TypeError => "TypeError"
  | KeyError => "KeyError"
  | ValueError => "ValueError"
  | NotRegistered => "NotRegistered"
  | ChordError => "ChordError"
  | TimeLimitExceeded => "TimeLimitExceeded"
  end.

(** Whether a character occurs in a string. *)
Definition occurs (c : ascii) (s : string) : bool :=
  existsb (Ascii.eqb c) (list_ascii_of_string s).

(** The body of [repr(s)] between its quotes, for a text of printable ASCII
    characters, new lines and tabs: a backslash is doubled, the quote in use
    is escaped. *)
Fixpoint escape (quote : ascii) (s : string) : string :=
  match s with
  | EmptyString => EmptyString
  | String c s' =>
      let rest := escape quote s' in
      if Ascii.eqb c "092"%char then String "092"%char (String "092"%char rest)
      else if Ascii.eqb c quote then String "092"%char (String c rest)
      else if Ascii.eqb c "010"%char then String "092"%char (String "n" rest)
      else if Ascii.eqb c "013"%char then String "092"%char (String "r" rest)
      else if Ascii.eqb c "009"%char then String "092"%char (String "t" rest)
      else String c rest
  end.

(** [repr(s)] of a [str]: between single quotes, unless the text holds a
    single quote and no double quote, in which case between double
    quotes. *)
Definition repr_str (s : string) : string :=
  let quote :=
    if occurs "'" s && negb (occurs "034"%char s) then "034"%char else "'"%char in
  String quote (String.append (escape quote s) (String quote EmptyString)).

(** [repr(e)] of an exception built from one message. *)
Definition repr_exn (e : pyexn) : string :=
  match e with
  | Exn c msg =>
      String.append (class_name c) (String.append "(" (String.append (repr_str msg) ")"))
  | Retry _ _ => "Retry()"
  end.

(** [str(e)]; for a [KeyError] it is the [repr] of the key. *)
Definition str_exn (e : pyexn) : string :=
  match e with
  | Exn KeyError k => repr_str k
  | Exn _ msg => msg
  | Retry _ _ => "Retry"
  end.

(** [d.get(k)] and [d[k]] on a dict kept in insertion order. *)
Fixpoint dict_get (kvs : list (string * pyval)) (k : string) : option pyval :=
  match kvs with
  | [] => None
  | (k', v) :: rest => if String.eqb k' k then Some v else dict_get rest k
  end.

(** [d[k] = v]: an existing key keeps its position. *)
Fixpoint dict_set (kvs : list (string * pyval)) (k : string) (v : pyval)
  : list (string * pyval) :=
  match kvs with
  | [] => [(k, v)]
  | (k', v') :: rest =>
      if String.eqb k' k then (k', v) :: rest else (k', v') :: dict_set rest k v
  end.

(** [d[k]] for a string [k]: only a dict can be indexed by a string. *)
Definition getitem (v : pyval) (k : string) : result pyval :=
  match v with
  | VDict kvs =>
      match dict_get kvs k with
      | Some x => ret x
      | None => raise (Exn KeyError k)
      end
  | VList _ => raise (Exn TypeError "list indices must be integers or slices, not str")
  | VStr _ => raise (Exn TypeError "string indices must be integers, not 'str'")
  | _ => raise (Exn TypeError
                 (String.append "'" (String.append (type_name v) "' object is not subscriptable")))
  end.

(** [len(v)] *)
Definition len (v : pyval) : result Z :=
  match v with
  | VList l => ret (Z.of_nat (length l))
  | VDict kvs => ret (Z.of_nat (length kvs))
  | VStr s => ret (Z.of_nat (String.length s))
  | _ => raise (Exn TypeError
                 (String.append "object of type '"
                    (String.append (type_name v) "' has no len()")))
  end.

(** Truth value, as [x or y] and [if not x] test it. *)
Definition truthy (v : pyval) : bool :=
  match v with
  | VNone => false
  | VBool b => b
  | VInt z => negb (z =? 0)
  | VFloat f => negb (float_is_zero f)
  | VStr s => negb (String.eqb s EmptyString)
  | VList l => negb (Nat.eqb (length l) 0)
  | VDict kvs => negb (Nat.eqb (length kvs) 0)
  end.

(** [x or y] *)
Definition or_else (x y : pyval) : pyval := if truthy x then x else y.

(** [v == s] for a string literal [s]. *)
Definition eq_str (v : pyval) (s : string) : bool :=
  match v with
  | VStr s' => String.eqb s' s
  | _ => false
  end.

(** A dict display [{k1: v1, ..., **d}]: entries are set left to right. *)
Definition dict_of (entries : list (string * pyval)) : list (string * pyval) :=
  fold_left (fun d kv => dict_set d (fst kv) (snd kv)) entries [].

End Py.

Import Py.

(** ** Celery: the contract the repository relies on

    The repository contains no engine of its own: it configures a Celery
    application ([src/core/celery_app.py]) and calls it.  What follows is the
    behaviour of the library calls the source makes, as Celery documents
    them: result states and [AsyncResult] ([celery.result], [celery.states]),
    [Task.retry] ([celery.app.task]), what a worker does with a message
    and with a body that runs past the time limit ([celery.app.trace],
    [celery.worker.request]), chain links and the chord counter of the
    Redis result backend ([celery.canvas], [celery.backends.redis]), which
    is the backend [src/core/config.py] selects. *)

Module Celery.

Inductive task_state : Type :=
  | PENDING | RECEIVED | STARTED | SUCCESS | FAILURE | REVOKED | REJECTED | RETRY | IGNORED.

Definition READY_STATES (s : task_state) : bool :=
  match s with
  | SUCCESS | FAILURE | REVOKED => true
  | _ => false
  end.

Definition PROPAGATE_STATES (s : task_state) : bool :=
  match s with
  | FAILURE | REVOKED => true
  | _ => false
  end.

(** What the result backend keeps for a task id. *)
Record TaskMeta : Type := {
  status : task_state;
  result : Py.result pyval
}.

(** A signature: a task name with partial arguments and a frozen id. *)
Record Signature : Type := {
  sig_task : string;
  sig_args : list pyval;
  sig_kwargs : list (string * pyval);
  sig_id : string;
  sig_queue : option string
}.

(** A task message on the broker; a worker sees it as [self.request]. *)
Record Message : Type := {
  msg_id : string;
  msg_task : string;
  msg_args : list pyval;
  msg_kwargs : list (string * pyval);
  msg_retries : nat;
  msg_countdown : option Z;
  msg_queue : option string;
  msg_chain : list Signature;
  msg_chord : option Signature;
  msg_group : option string;
  msg_group_index : nat
}.

(** One member of a chord header that has returned: its position in the
    header, its id, and what it stored (a value with [SUCCESS], an
    exception with [FAILURE]). *)
Record ChordPart : Type := {
  part_index : nat;
  part_id : string;
  part_outcome : Py.result pyval
}.

(** The keys the Redis backend keeps for a chord: the size written by
    [apply_chord], and the members returned so far, ordered by their index
    in the header ([result_chord_ordered], the default). *)
Record ChordCounter : Type := {
  chord_size : option nat;
  chord_parts : list ChordPart
}.

Inductive Event : Type :=
  | Published (m : Message)
  | Invoked (m : Message).

Record State : Type := {
  broker : list Message;
  backend : gmap string TaskMeta;
  chords : gmap string ChordCounter;
  uuid_seed : nat;
  log : list Event
}.

Definition init : State :=
  {| broker := []; backend := ∅; chords := ∅; uuid_seed := 0; log := [] |}.

(** *** The result backend and [AsyncResult] *)

(** [backend.get_task_meta(task_id)]: an id the backend does not hold reads
    as [PENDING] with no result. *)
Definition get_task_meta (b : gmap string TaskMeta) (task_id : string) : TaskMeta :=
  default {| status := PENDING; result := ret VNone |} (b !! task_id).

(** [backend.store_result(task_id, result, state)].  Results, like the
    arguments of the messages, are written with the serializer
    [src/core/config.py] selects, json, which writes an [int] of at most
    [Py.max_str_digits] digits: the properties of the sums the tasks send
    and store are stated for the numbers in that range ([Py.json_int]). *)
Definition store_result (task_id : string) (r : Py.result pyval) (s : task_state)
    (b : gmap string TaskMeta) : gmap string TaskMeta :=
  <[task_id := {| status := s; result := r |}]> b.

(** [AsyncResult(task_id).ready()] *)
Definition ready (b : gmap string TaskMeta) (task_id : string) : bool :=
  READY_STATES (status (get_task_meta b task_id)).

(** What [AsyncResult.get()] does with the meta of a ready task
    ([propagate=True]): a state in [PROPAGATE_STATES] re-raises what was
    stored, any other returns it. *)
Definition get_of_meta (m : TaskMeta) : Py.result pyval :=
  if PROPAGATE_STATES (status m) then
    match result m with
    | inr e => raise e
    | inl _ => raise (Exn TypeError "exceptions must derive from BaseException")
    end
  else result m.

(** [AsyncResult(task_id).get()] on a snapshot of the backend: [None] while
    the task is not ready (the call is still waiting). *)
Definition get_now (b : gmap string TaskMeta) (task_id : string)
  : option (Py.result pyval) :=
  if ready b task_id then Some (get_of_meta (get_task_meta b task_id)) else None.

(** [AsyncResult(task_id).get()] with no timeout, against the backend as it
    is at each successive look ([timeline k] at the [k]-th): the call
    returns at the first look that finds the task ready.  [fuel] bounds the
    number of looks; [None] means the call has not returned within them.
    The result comes with the index of the next look. *)
Fixpoint wait_get (timeline : nat -> gmap string TaskMeta) (task_id : string)
    (fuel : nat) (k : nat) : option (Py.result pyval * nat) :=
  match fuel with
  | O => None
  | S fuel' =>
      match get_now (timeline k) task_id with
      | Some r => Some (r, S k)
      | None => wait_get timeline task_id fuel' (S k)
      end
  end.

(** *** Tasks and [Task.retry] *)

(** What running a task body yields: the messages it published (only
    [Task.retry] publishes) and the value returned or the exception
    raised. *)
Definition TaskM (A : Type) : Type := (list Message * Py.result A)%type.

(** A bound task's [self]: the request being served and the task's
    [max_retries] ([None] is unlimited). *)
Record Bound : Type := {
  request : Message;
  max_retries : option nat
}.

Record Task : Type := {
  task_name : string;
  task_max_retries : option nat;
  task_run : Bound -> list pyval -> list (string * pyval) -> TaskM pyval
}.

(** Celery's default for [max_retries]. *)
Definition default_max_retries : option nat := Some 3%nat.

(** Binding of positional and keyword arguments to a function's parameters
    (each with an optional default), as a Python call does it. *)
Fixpoint bind_params (params : list (string * option pyval)) (args : list pyval)
    (kwargs : list (string * pyval)) : Py.result (list pyval) :=
  match params with
  | [] =>
      match args, kwargs with
      | [], [] => ret []
      | _ :: _, _ => raise (Exn TypeError "too many positional arguments")
      | [], _ :: _ => raise (Exn TypeError "got an unexpected keyword argument")
      end
  | (name, dflt) :: params' =>
      match args with
      | a :: args' =>
          match Py.dict_get kwargs name with
          | Some _ => raise (Exn TypeError "got multiple values for argument")
          | None => bind (bind_params params' args' kwargs) (fun vs => ret (a :: vs))
          end
      | [] =>
          let others := List.filter (fun kv => negb (String.eqb (fst kv) name)) kwargs in
          match Py.dict_get kwargs name, dflt with
          | Some v, _ => bind (bind_params params' [] others) (fun vs => ret (v :: vs))
          | None, Some d => bind (bind_params params' [] others) (fun vs => ret (d :: vs))
          | None, None => raise (Exn TypeError "missing a required argument")
          end
      end
  end.

(** The decorator [@celery_app.task(name=..., max_retries=...)] on a
    function with the given parameters: the arguments of the message are
    bound to the parameters, and a call that does not fit them raises
    [TypeError]. *)
Definition task (name : string) (limit : option nat)
    (params : list (string * option pyval))
    (f : Bound -> list pyval -> TaskM pyval) : Task :=
  {| task_name := name;
     task_max_retries := limit;
     task_run := fun self args kwargs =>
       match bind_params params args kwargs with
       | inl vs => f self vs
       | inr e => ([], raise e)
       end |}.

Definition register (t : Task) (r : gmap string Task) : gmap string Task :=
  <[task_name t := t]> r.

(** A function of one, two or three parameters that does not use [self],
    and a function of [self] and two parameters, as the function a task is
    made of. *)
Definition unary (f : pyval -> Py.result pyval) (self : Bound) (vs : list pyval)
  : TaskM pyval :=
  match vs with
  | [a] => ([], f a)
  | _ => ([], raise (Exn TypeError "bad call"))
  end.

Definition binary (f : pyval -> pyval -> Py.result pyval) (self : Bound)
    (vs : list pyval) : TaskM pyval :=
  match vs with
  | [a; b] => ([], f a b)
  | _ => ([], raise (Exn TypeError "bad call"))
  end.

Definition ternary (f : pyval -> pyval -> pyval -> Py.result pyval) (self : Bound)
    (vs : list pyval) : TaskM pyval :=
  match vs with
  | [a; b; c] => ([], f a b c)
  | _ => ([], raise (Exn TypeError "bad call"))
  end.

Definition bound_binary (f : Bound -> pyval -> pyval -> TaskM pyval) (self : Bound)
    (vs : list pyval) : TaskM pyval :=
  match vs with
  | [a; b] => f self a b
  | _ => ([], raise (Exn TypeError "bad call"))
  end.

(** The message [Task.retry] sends: the request again, under the same id,
    with the retry count and the countdown set. *)
Definition retry_message (m : Message) (retries : nat) (countdown : Z) : Message :=
  {| msg_id := msg_id m; msg_task := msg_task m; msg_args := msg_args m;
     msg_kwargs := msg_kwargs m; msg_retries := retries;
     msg_countdown := Some countdown; msg_queue := msg_queue m;
     msg_chain := msg_chain m; msg_chord := msg_chord m;
     msg_group := msg_group m; msg_group_index := msg_group_index m |}.

(** [self.retry(exc=exc, countdown=countdown)]: when the next retry count
    would exceed [max_retries] the original exception is raised; otherwise
    the task is sent again and [Retry] is raised. *)
Definition retry (self : Bound) (exc : pyexn) (countdown : Z) : TaskM pyval :=
  let retries := S (msg_retries (request self)) in
  match max_retries self with
  | Some limit =>
      if (limit <? retries)%nat then ([], raise exc)
      else ([retry_message (request self) retries countdown], raise (Retry exc countdown))
  | None => ([retry_message (request self) retries countdown], raise (Retry exc countdown))
  end.

(** *** The worker *)

Definition publish (m : Message) (st : State) : State :=
  {| broker := broker st ++ [m]; backend := backend st; chords := chords st;
     uuid_seed := uuid_seed st; log := log st ++ [Published m] |}.

Definition record (e : Event) (st : State) : State :=
  {| broker := broker st; backend := backend st; chords := chords st;
     uuid_seed := uuid_seed st; log := log st ++ [e] |}.

Definition set_backend (b : gmap string TaskMeta) (st : State) : State :=
  {| broker := broker st; backend := b; chords := chords st;
     uuid_seed := uuid_seed st; log := log st |}.

Definition set_chords (c : gmap string ChordCounter) (st : State) : State :=
  {| broker := broker st; backend := backend st; chords := c;
     uuid_seed := uuid_seed st; log := log st |}.

Definition set_broker (q : list Message) (st : State) : State :=
  {| broker := q; backend := backend st; chords := chords st;
     uuid_seed := uuid_seed st; log := log st |}.

(** [sig.apply_async(args)]: the given arguments come before the
    signature's own. *)
Definition message_of (sg : Signature) (args : list pyval) (chain : list Signature)
  : Message :=
  {| msg_id := sig_id sg; msg_task := sig_task sg; msg_args := args ++ sig_args sg;
     msg_kwargs := sig_kwargs sg; msg_retries := 0; msg_countdown := None;
     msg_queue := sig_queue sg; msg_chain := chain; msg_chord := None;
     msg_group := None; msg_group_index := 0 |}.

(** Results of the header in header order; a member that failed raises
    [ChordError]. *)
Fixpoint unpack_chord_results (ps : list ChordPart) : Py.result (list pyval) :=
  match ps with
  | [] => ret []
  | p :: ps' =>
      match part_outcome p with
      | inr e =>
          raise (Exn ChordError
                   (String.append "Dependency "
                      (String.append (part_id p)
                         (String.append " raised " (repr_exn e)))))
      | inl v => bind (unpack_chord_results ps') (fun vs => ret (v :: vs))
      end
  end.

Fixpoint insert_part (p : ChordPart) (ps : list ChordPart) : list ChordPart :=
  match ps with
  | [] => [p]
  | q :: ps' =>
      if (part_index p <? part_index q)%nat then p :: q :: ps'
      else q :: insert_part p ps'
  end.

(** [backend.on_chord_part_return(request, state, result)]: the member is
    added to the chord's keys; the member that completes the count either
    sends the callback with the list of results, or, when a member failed,
    marks the callback as failed with the [ChordError] without sending
    it. *)
Definition on_chord_part_return (m : Message) (r : Py.result pyval) (st : State)
  : State :=
  match msg_chord m, msg_group m with
  | Some callback, Some gid =>
      let c := default {| chord_size := None; chord_parts := [] |} (chords st !! gid) in
      let parts :=
        insert_part {| part_index := msg_group_index m; part_id := msg_id m;
                       part_outcome := r |} (chord_parts c) in
      let st1 :=
        set_chords (<[gid := {| chord_size := chord_size c; chord_parts := parts |}]>
                      (chords st)) st in
      match chord_size c with
      | Some total =>
          if (length parts =? total)%nat then
            match unpack_chord_results parts with
            | inl resl =>
                set_chords (delete gid (chords st1))
                  (publish (message_of callback [VList resl] []) st1)
            | inr exc =>
                set_backend (store_result (sig_id callback) (raise exc) FAILURE
                               (backend st1)) st1
            end
          else st1
      | None => st1
      end
  | _, _ => st
  end.

(** [backend.mark_as_done] *)
Definition mark_as_done (m : Message) (v : pyval) (st : State) : State :=
  on_chord_part_return m (ret v)
    (set_backend (store_result (msg_id m) (ret v) SUCCESS (backend st)) st).

(** [backend.mark_as_failure]: the failure is stored for the task and
    counted for its chord, and it is stored as well for every link of the
    chain that was still to come, so that the last link, whose id is the
    chain's, does not stay pending. *)
Definition mark_as_failure (m : Message) (e : pyexn) (st : State) : State :=
  fold_left
    (fun acc link =>
       set_backend (store_result (sig_id link) (raise e) FAILURE (backend acc)) acc)
    (msg_chain m)
    (on_chord_part_return m (raise e)
       (set_backend (store_result (msg_id m) (raise e) FAILURE (backend st)) st)).

(** [backend.mark_as_retry] *)
Definition mark_as_retry (m : Message) (e : pyexn) (st : State) : State :=
  set_backend (store_result (msg_id m) (raise e) RETRY (backend st)) st.

(** After a successful return the next link of the chain is sent with the
    return value as its first argument. *)
Definition apply_chain (m : Message) (retval : pyval) (st : State) : State :=
  match msg_chain m with
  | [] => st
  | next :: rest => publish (message_of next [retval] rest) st
  end.

(** Running the task a message names, with the message as its request;
    [None] when the worker has no task of that name. *)
Definition run_task (registry : gmap string Task) (m : Message) : option (TaskM pyval) :=
  match registry !! msg_task m with
  | None => None
  | Some t =>
      Some (task_run t {| request := m; max_retries := task_max_retries t |}
              (msg_args m) (msg_kwargs m))
  end.

(** What the worker stores for the outcome of a body that has ended.  A
    return stores [SUCCESS] and continues the chain; [Retry] stores [RETRY];
    any other exception stores [FAILURE] and sends nothing further; an
    unknown task name is a failure.  A body that is still running when the
    hard time limit is reached has no outcome: see [on_timeout]. *)
Definition conclude (m : Message) (outcome : option (TaskM pyval)) (st : State) : State :=
  match outcome with
  | None => mark_as_failure m (Exn NotRegistered (msg_task m)) st
  | Some (sent, r) =>
      let st1 := fold_left (fun acc msg => publish msg acc) sent (record (Invoked m) st) in
      match r with
      | inl v => mark_as_done m v (apply_chain m v st1)
      | inr (Retry exc _) => mark_as_retry m exc st1
      | inr e => mark_as_failure m e st1
      end
  end.

(** What a worker does with one message. *)
Definition execute (registry : gmap string Task) (m : Message) (st : State) : State :=
  conclude m (run_task registry m) st.

(** Handling the [i]-th message of the broker takes it off the broker. *)
Definition deliver (registry : gmap string Task) (i : nat) (m : Message) (st : State)
  : State :=
  execute registry m (set_broker (delete i (broker st)) st).

(** Any message on the broker may be the next one a worker handles.  A
    delivery is taken as one step, from the claim of the message to the
    writes of its outcome (the passage through [STARTED] is not a state of
    its own); a countdown only delays a message, so the runs in which it
    waits are among those in which any message may come next. *)
Inductive step (registry : gmap string Task) : State -> State -> Prop :=
  | step_deliver st i m :
    broker st !! i = Some m ->
    step registry st (deliver registry i m st).

Definition successors (registry : gmap string Task) (st : State) : list State :=
  imap (fun i m => deliver registry i m st) (broker st).

(** *** The hard time limit *)

(** [Request.on_timeout(soft=False, timeout)]: when the body has run for
    longer than [task_time_limit] seconds the pool ends the process that
    runs it, and the request is marked as failed with
    [TimeLimitExceeded(timeout)], whose text is the limit.  Whatever the
    body would have returned or sent is lost, and the task is not sent
    again. *)
Definition on_timeout (time_limit : Z) (m : Message) (st : State) : State :=
  mark_as_failure m (Exn TimeLimitExceeded (pretty time_limit)) (record (Invoked m) st).

(** Handling the [i]-th message of the broker under the time limit, when
    the body runs for [seconds]. *)
Definition deliver_within (registry : gmap string Task) (time_limit : Z) (seconds : Z)
    (i : nat) (m : Message) (st : State) : State :=
  if time_limit <? seconds then on_timeout time_limit m (set_broker (delete i (broker st)) st)
  else deliver registry i m st.

(** The steps of a worker under the time limit; [duration m] is the time
    the body takes to handle [m], which for a body that waits for a file
    system or a remote service is not bounded by the code. *)
Inductive step_within (registry : gmap string Task) (time_limit : Z)
    (duration : Message -> Z) : State -> State -> Prop :=
  | step_within_deliver st i m :
    broker st !! i = Some m ->
    step_within registry time_limit duration st
      (deliver_within registry time_limit (duration m) i m st).

(** *** The producer: [apply_async], [chain], [chord] *)

Definition uuid (n : nat) : string := String.append "task-" (pretty n).

Definition fresh_id (st : State) : string * State :=
  (uuid (uuid_seed st),
   {| broker := broker st; backend := backend st; chords := chords st;
      uuid_seed := S (uuid_seed st); log := log st |}).

(** A signature before it is frozen: [task.s(args).set(queue=queue)]. *)
Record Partial : Type := {
  par_task : string;
  par_args : list pyval;
  par_kwargs : list (string * pyval);
  par_queue : option string
}.

Definition s (task : string) (args : list pyval) : Partial :=
  {| par_task := task; par_args := args; par_kwargs := []; par_queue := None |}.

Definition set_queue (queue : string) (p : Partial) : Partial :=
  {| par_task := par_task p; par_args := par_args p; par_kwargs := par_kwargs p;
     par_queue := Some queue |}.

Definition freeze (p : Partial) (st : State) : Signature * State :=
  let '(tid, st1) := fresh_id st in
  ({| sig_task := par_task p; sig_args := par_args p; sig_kwargs := par_kwargs p;
      sig_id := tid; sig_queue := par_queue p |}, st1).

Fixpoint freeze_all (ps : list Partial) (st : State) : list Signature * State :=
  match ps with
  | [] => ([], st)
  | p :: ps' =>
      let '(sg, st1) := freeze p st in
      let '(sgs, st2) := freeze_all ps' st1 in
      (sg :: sgs, st2)
  end.

(** [task.apply_async(args=args, kwargs=kwargs, queue=queue)] returns the
    [AsyncResult] of the message it sent, here its id. *)
Definition apply_async (task : string) (args : list pyval)
    (kwargs : list (string * pyval)) (queue : string) (st : State) : string * State :=
  let '(sg, st1) :=
    freeze {| par_task := task; par_args := args; par_kwargs := kwargs;
              par_queue := Some queue |} st in
  (sig_id sg, publish (message_of sg [] []) st1).


Definition header_message (callback : Signature) (gid : string) (i : nat)
    (sg : Signature) : Message :=
  {| msg_id := sig_id sg; msg_task := sig_task sg; msg_args := sig_args sg;
     msg_kwargs := sig_kwargs sg; msg_retries := 0; msg_countdown := None;
     msg_queue := sig_queue sg; msg_chain := []; msg_chord := Some callback;
     msg_group := Some gid; msg_group_index := i |}.

(** [chord(header)(callback)]: the callback is frozen but not sent; the
    chord size is written, then every header member is sent carrying the
    callback, the group id and its index.  The result returned is the
    callback's.  An empty header sends the callback at once. *)
Definition chord_apply (header : list Partial) (callback : Partial) (st : State)
  : string * State :=
  let '(body, st1) := freeze callback st in
  let '(gid, st2) := fresh_id st1 in
  let '(sgs, st3) := freeze_all header st2 in
  match sgs with
  | [] => (sig_id body, publish (message_of body [VList []] []) st3)
  | _ =>
      let st4 :=
        set_chords (<[gid := {| chord_size := Some (length sgs); chord_parts := [] |}]>
                      (chords st3)) st3 in
      (sig_id body,
       fold_left (fun acc im => publish (header_message body gid (fst im) (snd im)) acc)
         (imap pair sgs) st4)
  end.

(** *** Runs *)

(** The states with an empty broker that the runs from [st] end in, when no
    run from [st] makes more than [n] deliveries ([None] otherwise). *)
Fixpoint finals (registry : gmap string Task) (n : nat) (st : State)
  : option (list State) :=
  match broker st with
  | [] => Some [st]
  | _ :: _ =>
      match n with
      | O => None
      | S n' => mjoin <$> mapM (finals registry n') (successors registry st)
      end
  end.

(** The states met within [n] deliveries from [st]. *)
Fixpoint reachables (registry : gmap string Task) (n : nat) (st : State) : list State :=
  st :: match n with
        | O => []
        | S n' => mjoin (reachables registry n' <$> successors registry st)
        end.

(** *** What is read off a log *)

(** The requests with which the task named [task] was invoked. *)
Definition invocations (task : string) (l : list Event) : list Message :=
  omap (fun e => match e with
                 | Invoked m => if String.eqb (msg_task m) task then Some m else None
                 | Published _ => None
                 end) l.

(** The requests of all invocations, in the order they were made. *)
Definition invoked (l : list Event) : list Message :=
  omap (fun e => match e with Invoked m => Some m | Published _ => None end) l.

(** The messages sent, in the order they were sent. *)
Definition published (l : list Event) : list Message :=
  omap (fun e => match e with Published m => Some m | Invoked _ => None end) l.

(** The retries: the messages sent again by [Task.retry]. *)
Definition retries_sent (l : list Event) : list Message :=
  List.filter (fun m => (0 <? msg_retries m)%nat) (published l).

Definition countdowns (ms : list Message) : list Z :=
  omap msg_countdown ms.

End Celery.

(** ** The application: [src/core/celery_app.py] *)

Module CeleryApp.

(** [task_time_limit=3600]: the hard time limit of every task, in
    seconds. *)
Definition task_time_limit : Z := 3600.

End CeleryApp.

Import Celery.

(** ** The demo tasks: [src/tasks/basic_tasks.py] *)

Module BasicTasks.

(** [add_numbers_task(x, y)]: [return x + y] *)
Definition add_numbers_task (x y : pyval) : Py.result pyval := Py.add x y.

(** The body of the [try] block of [divide_numbers_task]. *)
Definition divide_body (x y : pyval) : Py.result pyval :=
  if Py.eq_int y 0 then raise (Exn ZeroDivisionError "Cannot divide by zero")
  else Py.truediv x y.

(** The [try]/[except] around a body: a [ZeroDivisionError] is handed to
    [self.retry] with the countdown [2**self.request.retries]; any other
    exception leaves the task. *)
Definition retrying (body : pyval -> pyval -> Py.result pyval) (self : Bound)
    (x y : pyval) : TaskM pyval :=
  match body x y with
  | inl v => ([], ret v)
  | inr (Exn ZeroDivisionError msg) =>
      let countdown := 2 ^ Z.of_nat (msg_retries (request self)) in
      retry self (Exn ZeroDivisionError msg) countdown
  | inr e => ([], raise e)
  end.

(** [divide_numbers_task(self, x, y)] *)
Definition divide_numbers_task : Bound -> pyval -> pyval -> TaskM pyval :=
  retrying divide_body.

(** [aggregate_results_task(results)]: [return sum(results)] *)
Definition aggregate_results_task (results : pyval) : Py.result pyval := Py.sum results.

(** The registry of a worker that has imported the module, for given bodies
    of the addition, of the [try] block of the division, and of the
    aggregation. *)
Definition registry_of (add_body div_body : pyval -> pyval -> Py.result pyval)
    (agg_body : pyval -> Py.result pyval) : gmap string Task :=
  register
    (task "tasks.aggregate_results" default_max_retries [("results", None)]
       (unary agg_body))
    (register
       (task "tasks.divide_numbers" (Some 5%nat) [("x", None); ("y", None)]
          (bound_binary (retrying div_body)))
       (register
          (task "tasks.add_numbers" default_max_retries [("x", None); ("y", None)]
             (binary add_body))
          ∅)).

(** The registry with the bodies of [basic_tasks.py]. *)
Definition registry : gmap string Task :=
  registry_of add_numbers_task divide_body aggregate_results_task.

End BasicTasks.

(** ** Request and response models: [src/api/schemas.py] *)

Module Schemas.

Record TaskResponse : Type := {
  task_id : string;
  status : string;
  message : option string
}.

Record TaskStatusResponse : Type := {
  st_task_id : string;
  st_status : string;
  st_result : pyval
}.

Record AddNumbersRequest : Type := { add_x : Z; add_y : Z }.
Record DivideNumbersRequest : Type := { dividend : Z; divisor : Z }.
Record ParallelCalculationRequest : Type := { par_x : Z; par_y : Z; par_z : Z }.

Record RAGPipelineRequest : Type := {
  pdf_path : string;
  chunk_size : Z;
  chunk_overlap : Z;
  persist_directory : string
}.

Record RAGPipelineResponse : Type := {
  rag_status : string;
  rag_message : string;
  rag_task_ids : list (string * string);
  rag_pipeline_config : RAGPipelineRequest
}.

(** [fastapi.HTTPException(status_code=..., detail=...)] *)
Record HTTPException : Type := {
  status_code : Z;
  detail : pyval
}.

End Schemas.

(** ** Queue routing: [src/core/queues.py] *)

Module Queues.

(** Modelled from the spec: [get_queue_for_task] of [src/core/queues.py],
    a file that is not among the sources.  The description gives the
    router as [route_for(task_name) -> queue_name], using the static route
    table with a default fallback: a task name absent from the table falls
    back to the default queue. *)
Definition get_queue_for_task (TASK_ROUTES : gmap string string) (DEFAULT_QUEUE : string)
    (task_name : string) : string :=
  default DEFAULT_QUEUE (TASK_ROUTES !! task_name).

End Queues.

(** ** The task routes: [src/api/routes/tasks.py] and [src/api/dependencies.py] *)

Module Routes.
Import Schemas.

(** [d.get(k)] on a dict of strings, kept as its items in insertion
    order. *)
Fixpoint table_get (d : list (string * string)) (k : string) : option string :=
  match d with
  | [] => None
  | (k', v) :: rest => if String.eqb k' k then Some v else table_get rest k
  end.

(** [get_task_info()]: the queues with their descriptions, and one entry
    per item of [TASK_ROUTES], in the order of the dict.  The three tables
    come from [src/core/queues.py], a file that is not among the sources:
    they are taken as they are given. *)
Definition get_task_info (AVAILABLE_QUEUES : list string)
    (QUEUE_DESCRIPTIONS TASK_ROUTES : list (string * string))
  : list (string * string) * list (string * string) :=
  (map (fun queue => (queue, default EmptyString (table_get QUEUE_DESCRIPTIONS queue)))
     AVAILABLE_QUEUES,
   TASK_ROUTES).

(** [get_task_result(task_id)] is [AsyncResult(task_id, app=celery_app)];
    [get_task_status] asks it [ready()] and, if so, [get()]. *)
Definition get_task_status (b : gmap string TaskMeta) (task_id : string)
  : Py.result TaskStatusResponse :=
  if ready b task_id then
    bind (get_of_meta (get_task_meta b task_id)) (fun r =>
      ret {| st_task_id := task_id; st_status := "Completed"; st_result := r |})
  else ret {| st_task_id := task_id; st_status := "Pending"; st_result := VNone |}.

Section WithQueues.

(** The handlers only pass the queue name that [get_queue_for_task]
    resolves on to Celery. *)
Variable get_queue_for_task : string -> string.

Definition add_numbers (req : AddNumbersRequest) (st : State) : TaskResponse * State :=
  let queue := get_queue_for_task "tasks.add_numbers" in
  let '(tid, st1) :=
    apply_async "tasks.add_numbers" [VInt (add_x req); VInt (add_y req)] [] queue st in
  ({| task_id := tid; status := "Task submitted"; message := None |}, st1).

Definition divide_numbers (req : DivideNumbersRequest) (st : State)
  : TaskResponse * State :=
  let queue := get_queue_for_task "tasks.divide_numbers" in
  let '(tid, st1) :=
    apply_async "tasks.divide_numbers" [VInt (dividend req); VInt (divisor req)] []
      queue st in
  ({| task_id := tid; status := "Task submitted"; message := None |}, st1).


Definition execute_parallel_workflow (req : ParallelCalculationRequest) (st : State)
  : TaskResponse * State :=
  let queue := get_queue_for_task "tasks.add_numbers" in
  let header :=
    [set_queue queue (s "tasks.add_numbers" [VInt (par_x req); VInt (par_y req)]);
     set_queue queue (s "tasks.divide_numbers" [VInt (par_x req); VInt (par_z req)])] in
  let callback := set_queue queue (s "tasks.aggregate_results" []) in
  let '(tid, st1) := chord_apply header callback st in
  ({| task_id := tid; status := "Parallel workflow submitted"; message := None |}, st1).

End WithQueues.

End Routes.

(** ** The RAG services and tasks:
    [src/services], [src/tasks/document_tasks.py],
    [src/tasks/vectorstore_tasks.py], [src/tasks/rag_tasks.py] *)

Module Rag.

(** The settings the services read ([src/core/config.py]). *)
Record Settings : Type := {
  settings_chunk_size : Z;
  settings_chunk_overlap : Z;
  settings_retrieval_top_k : Z
}.

Definition default_settings : Settings :=
  {| settings_chunk_size := 1000; settings_chunk_overlap := 200;
     settings_retrieval_top_k := 3 |}.

(** [try: body except Exception as e: handler(e)] *)
Definition try_except {A} (body : Py.result A) (handler : pyexn -> Py.result A)
  : Py.result A :=
  match body with
  | inl a => ret a
  | inr e => handler e
  end.

(** [{**d}]: the items of a mapping. *)
Definition items (d : pyval) : Py.result (list (string * pyval)) :=
  match d with
  | VDict kvs => ret kvs
  | _ => raise (Exn TypeError
                 (String.append "'" (String.append (type_name d) "' object is not a mapping")))
  end.

(** The four tasks as registered by their decorators ([bind=True], the
    default [max_retries]), for given bodies. *)
Definition registry_of (load_body : pyval -> Py.result pyval)
    (split_body : pyval -> pyval -> pyval -> Py.result pyval)
    (create_body : pyval -> pyval -> Py.result pyval)
    (query_body : pyval -> pyval -> pyval -> Py.result pyval) : gmap string Task :=
  register
    (task "tasks.query_vectorstore" default_max_retries
       [("question", None); ("persist_directory", None); ("top_k", Some VNone)]
       (ternary query_body))
    (register
       (task "tasks.create_vectorstore" default_max_retries
          [("chunks", None); ("persist_directory", None)]
          (binary create_body))
       (register
          (task "tasks.split_documents" default_max_retries
             [("documents", None); ("chunk_size", Some VNone);
              ("chunk_overlap", Some VNone)]
             (ternary split_body))
          (register
             (task "tasks.load_pdf" default_max_retries [("pdf_path", None)]
                (unary load_body))
             ∅))).

(** The libraries the services call, each call returning or raising: the
    PDF loader (pages as content and metadata), the [Document] constructor,
    the text splitter, the vector store (a handle, the name and id of its
    collection, its count, the retrieval), the LLM chain, the duplicate-free
    list of a set, whose order Python leaves open, and the text of a value
    inside an f-string. *)
Record Libraries : Type := {
  Chroma : Type;
  pdf_loader : pyval -> Py.result (list (pyval * pyval));
  Document : pyval -> pyval -> Py.result (pyval * pyval);
  text_splitter : pyval -> pyval -> list (pyval * pyval) ->
                  Py.result (list (pyval * pyval));
  chroma_from_documents : list (pyval * pyval) -> pyval -> Py.result (pyval * pyval);
  load_vectorstore : pyval -> Py.result Chroma;
  collection_count : Chroma -> Py.result Z;
  get_relevant_documents : Chroma -> pyval -> pyval -> Py.result (list (pyval * pyval));
  invoke_chain : Chroma -> pyval -> pyval -> Py.result pyval;
  sources_of : list (pyval * pyval) -> Py.result (list pyval);
  format : pyval -> string
}.

Section Services.

Variable settings : Settings.
Variable lib : Libraries.

Definition page (d : pyval * pyval) : pyval :=
  VDict [("page_content", fst d); ("metadata", snd d)].

(** The comprehension that makes a [Document] of every item, from its
    ["page_content"] and its ["metadata"]. *)
Definition to_documents (documents : pyval) : Py.result (list (pyval * pyval)) :=
  bind (Py.iterate documents)
    (Py.map_result (fun d =>
       bind (Py.getitem d "page_content") (fun content =>
         bind (Py.getitem d "metadata") (fun metadata =>
           Document lib content metadata)))).

(** [DocumentService.load_pdf] *)
Definition load_pdf (pdf_path : pyval) : Py.result pyval :=
  bind (pdf_loader lib pdf_path) (fun docs => ret (VList (map page docs))).

(** [DocumentService.split_documents] *)
Definition split_documents (documents chunk_size chunk_overlap : pyval)
  : Py.result pyval :=
  let chunk_size := Py.or_else chunk_size (VInt (settings_chunk_size settings)) in
  let chunk_overlap :=
    Py.or_else chunk_overlap (VInt (settings_chunk_overlap settings)) in
  bind (to_documents documents) (fun doc_objects =>
    bind (text_splitter lib chunk_size chunk_overlap doc_objects) (fun chunks =>
      ret (VList (map page chunks)))).

(** [VectorStoreService.create_vectorstore] *)
Definition create_vectorstore (chunks persist_directory : pyval) : Py.result pyval :=
  bind (to_documents chunks) (fun chunk_objects =>
    bind (chroma_from_documents lib chunk_objects persist_directory) (fun db =>
      bind (Py.len chunks) (fun n =>
        ret (VDict (Py.dict_of
               [("collection_name", fst db); ("collection_id", snd db);
                ("chunk_count", VInt n)]))))).

(** [RAGService.query] *)
Definition query (question persist_directory top_k : pyval) : Py.result pyval :=
  let top_k := Py.or_else top_k (VInt (settings_retrieval_top_k settings)) in
  bind (load_vectorstore lib persist_directory) (fun db =>
    bind (collection_count lib db) (fun n =>
      if n =? 0 then
        raise (Exn ValueError
                 (String.append "Vectorstore at "
                    (String.append (format lib persist_directory) " is empty")))
      else
        bind (get_relevant_documents lib db top_k question) (fun retrieved_docs =>
          match retrieved_docs with
          | [] => raise (Exn ValueError "No relevant documents found")
          | _ :: _ =>
              bind (invoke_chain lib db top_k question) (fun answer =>
                bind (sources_of lib retrieved_docs) (fun sources =>
                  ret (VDict (Py.dict_of
                         [("answer", answer);
                          ("retrieved_chunks",
                           VList (map (fun d => VDict [("content", fst d);
                                                       ("metadata", snd d)])
                                    retrieved_docs));
                          ("sources", VList sources);
                          ("context_used",
                           VInt (Z.of_nat (length retrieved_docs)))]))))
          end))).

(** [load_pdf_task(self, pdf_path)] *)
Definition load_pdf_task (pdf_path : pyval) : Py.result pyval :=
  try_except
    (bind (load_pdf pdf_path) (fun documents =>
       bind (Py.len documents) (fun n =>
         ret (VDict (Py.dict_of
                [("status", VStr "success");
                 ("message",
                  VStr (String.append "Successfully loaded "
                          (String.append (format lib (VInt n)) " pages")));
                 ("documents", documents);
                 ("doc_count", VInt n)])))))
    (fun e =>
       ret (VDict (Py.dict_of
              [("status", VStr "error");
               ("message", VStr (String.append "Error loading PDF: " (str_exn e)));
               ("documents", VList []);
               ("doc_count", VInt 0)]))).

(** [split_documents_task(self, documents, chunk_size=None,
    chunk_overlap=None)] *)
Definition split_documents_task (documents chunk_size chunk_overlap : pyval)
  : Py.result pyval :=
  try_except
    (bind (split_documents documents chunk_size chunk_overlap) (fun chunks =>
       bind (Py.len chunks) (fun n =>
         ret (VDict (Py.dict_of
                [("status", VStr "success");
                 ("message",
                  VStr (String.append "Successfully created "
                          (String.append (format lib (VInt n)) " chunks")));
                 ("chunks", chunks);
                 ("chunk_count", VInt n)])))))
    (fun e =>
       ret (VDict (Py.dict_of
              [("status", VStr "error");
               ("message",
                VStr (String.append "Error splitting documents: " (str_exn e)));
               ("chunks", VList []);
               ("chunk_count", VInt 0)]))).

(** [create_vectorstore_task(self, chunks, persist_directory)] *)
Definition create_vectorstore_task (chunks persist_directory : pyval)
  : Py.result pyval :=
  try_except
    (bind (create_vectorstore chunks persist_directory) (fun result =>
       bind (Py.getitem result "chunk_count") (fun count =>
         bind (items result) (fun rest =>
           ret (VDict (Py.dict_of
                  ([("status", VStr "success");
                    ("message",
                     VStr (String.append "Successfully created vectorstore with "
                             (String.append (format lib count) " chunks")));
                    ("vectorstore_path", persist_directory)] ++ rest)))))))
    (fun e =>
       ret (VDict (Py.dict_of
              [("status", VStr "error");
               ("message",
                VStr (String.append "Error creating vectorstore: " (str_exn e)));
               ("vectorstore_path", VNone);
               ("chunk_count", VInt 0)]))).

(** [query_vectorstore_task(self, question, persist_directory, top_k=None)] *)
Definition query_vectorstore_task (question persist_directory top_k : pyval)
  : Py.result pyval :=
  try_except
    (bind (query question persist_directory top_k) (fun result =>
       bind (items result) (fun rest =>
         ret (VDict (Py.dict_of
                ([("status", VStr "success"); ("question", question)] ++ rest))))))
    (fun e =>
       ret (VDict (Py.dict_of
              [("status", VStr "error");
               ("message",
                VStr (String.append "Error querying vectorstore: " (str_exn e)));
               ("answer", VNone);
               ("retrieved_chunks", VList []);
               ("sources", VList [])]))).

(** The registry of a worker that has imported the three modules. *)
Definition registry : gmap string Task :=
  registry_of load_pdf_task split_documents_task create_vectorstore_task
    query_vectorstore_task.

End Services.

End Rag.

(** ** The pipeline route: [src/api/routes/rag.py] *)

Module RagRoutes.
Import Schemas.

(** [except Exception as e: raise HTTPException(status_code=500, ...)] *)
Definition pipeline_error (e : pyexn) : HTTPException :=
  {| status_code := 500;
     detail := VStr (String.append "Pipeline error: " (str_exn e)) |}.

(** The test made of the result of a task: when its ["status"] is
    ["error"], [HTTPException(status_code=400, detail=r["message"])] is
    raised. *)
Definition error_of (r : pyval) : Py.result (option HTTPException) :=
  bind (Py.getitem r "status") (fun st =>
    if Py.eq_str st "error" then
      bind (Py.getitem r "message") (fun msg =>
        ret (Some {| status_code := 400; detail := msg |}))
    else ret None).

Section WithQueues.

Variable get_queue_for_task : string -> string.

(** The result backend as the API process finds it at each successive look. *)
Variable timeline : nat -> gmap string TaskMeta.

(** [run_rag_pipeline(request)]: the PDF task is sent and waited for, then
    the splitting task, then the vector store task is sent and the response
    returned.  [None] means that a [get()] has not returned within [fuel]
    looks at the backend. *)
Definition run_rag_pipeline (fuel : nat) (request : RAGPipelineRequest) (st : State)
  : option ((RAGPipelineResponse + HTTPException) * State) :=
  let pdf_queue := get_queue_for_task "tasks.load_pdf" in
  let '(pdf_id, st1) :=
    apply_async "tasks.load_pdf" [VStr (pdf_path request)] [] pdf_queue st in
  match wait_get timeline pdf_id fuel 0 with
  | None => None
  | Some (inr e, _) => Some (inr (pipeline_error e), st1)
  | Some (inl pdf_result, k1) =>
      match error_of pdf_result with
      | inr e => Some (inr (pipeline_error e), st1)
      | inl (Some http) => Some (inr http, st1)
      | inl None =>
          let split_queue := get_queue_for_task "tasks.split_documents" in
          match Py.getitem pdf_result "documents" with
          | inr e => Some (inr (pipeline_error e), st1)
          | inl documents =>
              let '(transform_id, st2) :=
                apply_async "tasks.split_documents"
                  [documents; VInt (chunk_size request); VInt (chunk_overlap request)] []
                  split_queue st1 in
              match wait_get timeline transform_id fuel k1 with
              | None => None
              | Some (inr e, _) => Some (inr (pipeline_error e), st2)
              | Some (inl transform_result, _) =>
                  match error_of transform_result with
                  | inr e => Some (inr (pipeline_error e), st2)
                  | inl (Some http) => Some (inr http, st2)
                  | inl None =>
                      let vectorstore_queue :=
                        get_queue_for_task "tasks.create_vectorstore" in
                      match Py.getitem transform_result "chunks" with
                      | inr e => Some (inr (pipeline_error e), st2)
                      | inl chunks =>
                          let '(vectorstore_id, st3) :=
                            apply_async "tasks.create_vectorstore"
                              [chunks; VStr (persist_directory request)] []
                              vectorstore_queue st2 in
                          Some (inl {| rag_status := "vectorstore_task_running";
                                       rag_message :=
                                         "PDF and transform tasks completed. Vectorstore creation in progress.";
                                       rag_task_ids :=
                                         [("pdf_task_id", pdf_id);
                                          ("transform_task_id", transform_id);
                                          ("vectorstore_task_id", vectorstore_id)];
                                       rag_pipeline_config := request |}, st3)
                      end
                  end
              end
          end
      end
  end.

End WithQueues.

End RagRoutes.

(** ** The polling loop of the test script: [scripts/python/test_tasks.py] *)

Module Script.

(** What a call of [check_task_status] comes to: the value returned, the
    requests made and the seconds slept. *)
Record Polled : Type := {
  returned : option Schemas.TaskStatusResponse;
  requests_made : nat;
  seconds_slept : Z
}.

(** The loop [for attempt in range(1, max_attempts + 1)].  [server k] is the
    backend the API reads when it serves the [k]-th request, or [None] when
    that request fails; a response that is not a success (the handler
    raised) makes [raise_for_status] raise.  Either ends the call with
    [None]; a response whose status is ["Completed"] is returned; any other
    response is followed by [time.sleep(2)]. *)
Fixpoint attempts (server : nat -> option (gmap string TaskMeta)) (task_id : string)
    (remaining : nat) (k : nat) (slept : Z) : Polled :=
  match remaining with
  | O => {| returned := None; requests_made := k; seconds_slept := slept |}
  | S remaining' =>
      match server k with
      | None => {| returned := None; requests_made := S k; seconds_slept := slept |}
      | Some b =>
          match Routes.get_task_status b task_id with
          | inr _ => {| returned := None; requests_made := S k; seconds_slept := slept |}
          | inl data =>
              if String.eqb (Schemas.st_status data) "Completed" then
                {| returned := Some data; requests_made := S k; seconds_slept := slept |}
              else attempts server task_id remaining' (S k) (slept + 2)
          end
      end
  end.

(** [check_task_status(task_id, max_attempts=10)] *)
Definition check_task_status (server : nat -> option (gmap string TaskMeta))
    (task_id : string) (max_attempts : Z) : Polled :=
  attempts server task_id (Z.to_nat max_attempts) 0 0.

End Script.

(** ** Text: the [str] methods the API and the scripts use *)

Module Text.

(** The characters of a string. *)
Definition chars (s : string) : list ascii := list_ascii_of_string s.

(** [c.isspace()] for a code point below 256: the ASCII white space, the
    four separators 28 to 31, NEL (133) and the no-break space (160). *)
Definition isspace (c : ascii) : bool :=
  let n := nat_of_ascii c in
  ((9 <=? n) && (n <=? 13) || (28 <=? n) && (n <=? 32) || (n =? 133) || (n =? 160))%nat.

(** [s.lstrip()] *)
Fixpoint lstrip (s : string) : string :=
  match s with
  | EmptyString => EmptyString
  | String c s' => if isspace c then lstrip s' else s
  end.

(** [s.rstrip()] *)
Fixpoint rstrip (s : string) : string :=
  match s with
  | EmptyString => EmptyString
  | String c s' =>
      match rstrip s' with
      | EmptyString => if isspace c then EmptyString else String c EmptyString
      | r => String c r
      end
  end.

(** [s.strip()] *)
Definition strip (s : string) : string := rstrip (lstrip s).

(** [s.split(sep)] for a separator of one character: the pieces between
    the occurrences of [sep], of which there is always at least one. *)
Fixpoint split (sep : ascii) (s : string) : list string :=
  match s with
  | EmptyString => [EmptyString]
  | String c s' =>
      if Ascii.eqb c sep then EmptyString :: split sep s'
      else
        match split sep s' with
        | p :: ps => String c p :: ps
        | [] => [String c EmptyString]
        end
  end.

(** [sep.join(l)] *)
Fixpoint join (sep : string) (l : list string) : string :=
  match l with
  | [] => EmptyString
  | [x] => x
  | x :: l' => String.append x (String.append sep (join sep l'))
  end.

(** Truth value of a [str], and of an optional one ([None] is false). *)
Definition nonempty (s : string) : bool := negb (String.eqb s EmptyString).

(** [x in l] for a list of strings. *)
Definition mem (x : string) (l : list string) : bool := existsb (String.eqb x) l.

End Text.

(** ** What a dependency of a route raises *)

Module Http.

(** [fastapi.HTTPException(status_code=..., detail=..., headers=...)] *)
Record HTTPException : Type := {
  status_code : Z;
  detail : string;
  headers : list (string * string)
}.

End Http.

(** ** API keys: [src/api/auth.py] *)

Module Auth.
Import Http.

(** The two statements that read the configured keys:
    [valid_keys = settings.api_keys.split(",")] and
    [valid_keys = [key.strip() for key in valid_keys if key.strip()]]. *)
Definition valid_keys (api_keys : string) : list string :=
  map Text.strip
    (List.filter (fun key => Text.nonempty (Text.strip key)) (Text.split "," api_keys)).

(** [verify_api_key(api_key)]; the header [X-API-Key] is read with
    [auto_error=False], so a request without it gives [None]. *)
Definition verify_api_key (api_keys : string) (api_key : option string)
  : string + HTTPException :=
  match api_key with
  | None =>
      inr {| status_code := 401; detail := "Missing API Key";
             headers := [("WWW-Authenticate", "ApiKey")] |}
  | Some key =>
      if negb (Text.nonempty key) then
        inr {| status_code := 401; detail := "Missing API Key";
               headers := [("WWW-Authenticate", "ApiKey")] |}
      else
        let valid := valid_keys api_keys in
        if Nat.eqb (length valid) 0 || negb (Text.mem key valid) then
          inr {| status_code := 403; detail := "Invalid API Key"; headers := [] |}
        else inl key
  end.

(** [optional_api_key(api_key)] *)
Definition optional_api_key (api_keys : string) (api_key : option string)
  : option string :=
  match api_key with
  | None => None
  | Some key =>
      if negb (Text.nonempty key) then None
      else if Text.mem key (valid_keys api_keys) then Some key
      else None
  end.

End Auth.

(** ** The key generator: [scripts/python/generate_api_keys.py] *)

Module Keys.

Definition ascii_lowercase : string := "abcdefghijklmnopqrstuvwxyz".
Definition ascii_uppercase : string := "ABCDEFGHIJKLMNOPQRSTUVWXYZ".
Definition ascii_letters : string := String.append ascii_lowercase ascii_uppercase.
Definition digits : string := "0123456789".

(** [alphabet = string.ascii_letters + string.digits] *)
Definition alphabet : string := String.append ascii_letters digits.

Section Randomness.

(** The source of randomness: [draws k] is the number the system gives at
    the [k]-th draw, from which [secrets.choice] takes an index below the
    length of the sequence. *)
Variable draws : nat -> nat.

(** [secrets.choice(alphabet)] at the [k]-th draw; the alphabet has 62
    characters, so the index is always in range. *)
Definition choice (k : nat) : ascii :=
  nth (draws k mod length (Text.chars alphabet)) (Text.chars alphabet) "000"%char.

(** [n] successive choices, joined. *)
Fixpoint choices (n : nat) (k : nat) : string :=
  match n with
  | O => EmptyString
  | S n' => String (choice k) (choices n' (S k))
  end.

(** [generate_api_key(length)], from the [k]-th draw on: the key and the
    index of the next draw.  [range(length)] is empty when [length] is not
    positive. *)
Definition generate_api_key (length : Z) (k : nat) : string * nat :=
  (choices (Z.to_nat length) k, (k + Z.to_nat length)%nat).

(** The loop [while len(keys) < count: keys.add(generate_api_key(length))];
    [None] when it has not ended within [fuel] iterations. *)
Fixpoint fill (fuel : nat) (count length : Z) (keys : gset string) (k : nat)
  : option (gset string * nat) :=
  if Z.of_nat (size keys) <? count then
    match fuel with
    | O => None
    | S fuel' =>
        let '(key, k') := generate_api_key length k in
        fill fuel' count length ({[ key ]} ∪ keys) k'
    end
  else Some (keys, k).

(** [generate_multiple_keys(count, length)]: [list(keys)] holds the members
    of the set once each, in an order Python leaves open. *)
Definition generate_multiple_keys (fuel : nat) (count length : Z) (k : nat)
  : option (list string * nat) :=
  match fill fuel count length ∅ k with
  | Some (keys, k') => Some (elements keys, k')
  | None => None
  end.

(** What [main] prints after [API_KEYS=] for the keys: [','.join(keys)]. *)
Definition api_keys_value (keys : list string) : string := Text.join "," keys.

End Randomness.

End Keys.

(** ** Redis: the commands the rate limiter sends

    As with Celery, the limiter has no store of its own: it calls a Redis
    client.  What follows is the behaviour of the three commands it uses, as
    Redis documents them. *)

Module Redis.

(** A key that holds an integer, with the instant its time to live ends,
    when one was set. *)
Record Entry : Type := {
  value : Z;
  expires_at : option Z
}.

Abbreviation Store := (gmap string Entry).

(** [redis.RedisError] and the two subclasses met here. *)
Inductive RedisError : Type :=
  | ConnectionError
  | ResponseError (msg : string).

(** What a command yields: a reply or a [RedisError], and the store after
    it. *)
Definition Reply (A : Type) : Type := ((A + RedisError) * Store)%type.

(** A client, as the limiter uses one: [incr(key)], [expire(key, seconds)]
    and [get(key)].  [get] gives the text of the integer, which [int] reads
    back; it is given here as the integer. *)
Record Client : Type := {
  incr : string -> Store -> Reply Z;
  expire : string -> Z -> Store -> Reply bool;
  get : string -> Store -> Reply (option Z)
}.

(** A key whose time to live has ended is gone. *)
Definition live (now : Z) (e : Entry) : bool :=
  match expires_at e with
  | Some t => now <? t
  | None => true
  end.

Definition lookup (now : Z) (key : string) (store : Store) : option Entry :=
  match store !! key with
  | Some e => if live now e then Some e else None
  | None => None
  end.

(** The largest value of a key: a signed integer of 64 bits. *)
Definition int64_max : Z := 2 ^ 63 - 1.

(** INCR: a missing key counts as 0; the time to live is kept; the value
    cannot pass [int64_max]. *)
Definition server_incr (now : Z) (key : string) (store : Store) : Reply Z :=
  match lookup now key store with
  | None => (inl 1, <[key := {| value := 1; expires_at := None |}]> store)
  | Some e =>
      if value e <? int64_max then
        (inl (value e + 1),
         <[key := {| value := value e + 1; expires_at := expires_at e |}]> store)
      else (inr (ResponseError "increment or decrement would overflow"), store)
  end.

(** EXPIRE: sets the time to live of a key that exists; a time that is not
    positive deletes the key. *)
Definition server_expire (now : Z) (key : string) (seconds : Z) (store : Store)
  : Reply bool :=
  match lookup now key store with
  | None => (inl false, store)
  | Some e =>
      if seconds <=? 0 then (inl true, delete key store)
      else
        (inl true,
         <[key := {| value := value e; expires_at := Some (now + seconds) |}]> store)
  end.

(** GET *)
Definition server_get (now : Z) (key : string) (store : Store) : Reply (option Z) :=
  (inl (value <$> lookup now key store), store).

(** The client of a server that answers, at the instant [now]. *)
Definition server (now : Z) : Client :=
  {| incr := server_incr now; expire := server_expire now; get := server_get now |}.

(** The client of a server that cannot be reached. *)
Definition unreachable : Client :=
  {| incr := fun _ store => (inr ConnectionError, store);
     expire := fun _ _ store => (inr ConnectionError, store);
     get := fun _ store => (inr ConnectionError, store) |}.

End Redis.

(** ** Rate limiting: [src/api/rate_limit.py] *)

Module RateLimit.
Import Http.

(** The key of a client in a minute:
    [f"{key_prefix}:{client_ip}:{current_minute}"], with
    [client_ip = request.client.host if request.client else "unknown"]. *)
Definition key_of (key_prefix : string) (client : option string)
    (current_minute : string) : string :=
  String.append key_prefix
    (String.append ":"
       (String.append (default "unknown" client) (String.append ":" current_minute))).

(** [rate_limit(request, max_requests=60, window=60,
    key_prefix="rate_limit")].  [redis_client] is [None] when the module
    could not make a client; [client] is the host of [request.client];
    [current_minute] is [datetime.now().strftime("%Y%m%d%H%M")].  The call
    returns [None] or raises an [HTTPException]; a [RedisError] from either
    command is passed over. *)
Definition rate_limit (redis_client : option Redis.Client) (client : option string)
    (current_minute : string) (max_requests window : Z) (key_prefix : string)
    (store : Redis.Store) : (unit + HTTPException) * Redis.Store :=
  match redis_client with
  | None => (inl tt, store)
  | Some r =>
      let key := key_of key_prefix client current_minute in
      match Redis.incr r key store with
      | (inr _, store1) => (inl tt, store1)
      | (inl current, store1) =>
          let expired :=
            if current =? 1 then Redis.expire r key window store1
            else (inl true, store1) in
          match expired with
          | (inr _, store2) => (inl tt, store2)
          | (inl _, store2) =>
              if max_requests <? current then
                (inr {| status_code := 429;
                        detail :=
                          String.append "Rate limit exceeded. Max "
                            (String.append (pretty max_requests)
                               (String.append " requests per "
                                  (String.append (pretty window) " seconds")));
                        headers := [("Retry-After", pretty window)] |},
                 store2)
              else (inl tt, store2)
          end
      end
  end.

(** [get_rate_limit_info(request, key_prefix="rate_limit")] *)
Definition get_rate_limit_info (redis_client : option Redis.Client)
    (client : option string) (current_minute : string) (key_prefix : string)
    (store : Redis.Store) : pyval * Redis.Store :=
  match redis_client with
  | None => (VDict [("available", VBool true); ("remaining", VNone)], store)
  | Some r =>
      let key := key_of key_prefix client current_minute in
      match Redis.get r key store with
      | (inl current, store1) =>
          (VDict [("current", VInt (default 0 current)); ("key", VStr key)], store1)
      | (inr _, store1) =>
          (VDict [("available", VBool true); ("remaining", VNone)], store1)
      end
  end.

End RateLimit.

(** ** The slow task and its route: [process_data_task] of
    [src/tasks/basic_tasks.py], [process_data] of [src/api/routes/tasks.py] *)

Module ProcessData.

Record ProcessDataRequest : Type := { data : string }.

Section WithFormat.

(** The text of a value that is not a [str] inside an f-string. *)
Variable format : pyval -> string.

(** [process_data_task(data)]: after [time.sleep(20)], which only delays the
    return, [f"Processed: {data}"]. *)
Definition process_data_task (data : pyval) : Py.result pyval :=
  ret (VStr (String.append "Processed: "
               match data with
               | VStr s => s
               | _ => format data
               end)).

(** The registry of a worker that has imported [basic_tasks.py], for given
    bodies of its four tasks. *)
Definition registry_of (process_body : pyval -> Py.result pyval)
    (add_body div_body : pyval -> pyval -> Py.result pyval)
    (agg_body : pyval -> Py.result pyval) : gmap string Task :=
  register
    (task "tasks.process_data" default_max_retries [("data", None)] (unary process_body))
    (BasicTasks.registry_of add_body div_body agg_body).

Definition registry : gmap string Task :=
  registry_of process_data_task BasicTasks.add_numbers_task BasicTasks.divide_body
    BasicTasks.aggregate_results_task.

End WithFormat.

(** [process_data(request)] *)
Definition process_data (get_queue_for_task : string -> string)
    (request : ProcessDataRequest) (st : State) : Schemas.TaskResponse * State :=
  let queue := get_queue_for_task "tasks.process_data" in
  let '(tid, st1) := apply_async "tasks.process_data" [VStr (data request)] [] queue st in
  ({| Schemas.task_id := tid; Schemas.status := "Task started";
      Schemas.message := None |}, st1).

End ProcessData.

(** ** The query route: [query_vectorstore] of [src/api/routes/rag.py] *)

Module QueryRoutes.

(** [QueryRequest] of [src/api/schemas.py] *)
Record QueryRequest : Type := {
  question : string;
  persist_directory : string;
  top_k : Z
}.

(** [request.dict()] *)
Definition dict (request : QueryRequest) : list (string * pyval) :=
  [("question", VStr (question request));
   ("persist_directory", VStr (persist_directory request));
   ("top_k", VInt (top_k request))].


(** How a call of a route handler ends: it returns, it raises an
    [HTTPException], or another exception leaves it. *)
Inductive Outcome (R : Type) : Type :=
  | Returned (r : R)
  | Raised (http : Schemas.HTTPException)
  | Crashed (e : pyexn).

Arguments Returned {R} r.
Arguments Raised {R} http.
Arguments Crashed {R} e.

Section Sync.

Variable get_queue_for_task : string -> string.

(** The result backend as the API process finds it at each successive look. *)
Variable timeline : nat -> gmap string TaskMeta.

(** The constructor of the response model, [QueryResponse], called with
    the items of the result as keyword arguments; it validates the
    fields. *)
Variable R : Type.
Variable QueryResponse : list (string * pyval) -> Py.result R.

(** [query_vectorstore_sync(request)]: the task is sent and waited for with
    [get()]; [None] means that [get()] has not returned within [fuel] looks
    at the backend. *)
Definition query_vectorstore_sync (fuel : nat) (request : QueryRequest) (st : State)
  : option (Outcome R * State) :=
  let query_queue := get_queue_for_task "tasks.query_vectorstore" in
  let '(tid, st1) :=
    apply_async "tasks.query_vectorstore" [] (dict request) query_queue st in
  match wait_get timeline tid fuel 0 with
  | None => None
  | Some (inr e, _) => Some (Crashed e, st1)
  | Some (inl result, _) =>
      match Py.getitem result "status" with
      | inr e => Some (Crashed e, st1)
      | inl status =>
          if Py.eq_str status "error" then
            match Py.getitem result "message" with
            | inr e => Some (Crashed e, st1)
            | inl message =>
                Some (Raised {| Schemas.status_code := 500; Schemas.detail := message |},
                      st1)
            end
          else
            match bind (Rag.items result) QueryResponse with
            | inr e => Some (Crashed e, st1)
            | inl response => Some (Returned response, st1)
            end
      end
  end.

End Sync.

End QueryRoutes.

(** * What the properties are stated with *)

(** [settles registry n st P]: no run of the worker from [st] makes more than
    [n] deliveries, some run empties the broker, and every run that empties
    the broker ends in a state satisfying [P]. *)
Definition settles (registry : gmap string Task) (n : nat) (st : State)
    (P : State -> Prop) : Prop :=
  (forall k st', nsteps (step registry) k st st' -> (k <= n)%nat) /\
  (exists st', rtc (step registry) st st' /\ broker st' = []) /\
  (forall st', rtc (step registry) st st' -> broker st' = [] -> P st').

(** [always registry st P]: every state a run from [st] passes through
    satisfies [P]. *)
Definition always (registry : gmap string Task) (st : State) (P : State -> Prop) : Prop :=
  forall st', rtc (step registry) st st' -> P st'.

(** What the backend holds for a task that has ended with outcome [r]. *)
Definition settled (r : Py.result pyval) : TaskMeta :=
  match r with
  | inl v => {| status := SUCCESS; result := ret v |}
  | inr e => {| status := FAILURE; result := raise e |}
  end.

(** The state of a task id in a backend. *)
Definition state_of (b : gmap string TaskMeta) (task_id : string) : task_state :=
  status (get_task_meta b task_id).

(** A router for the statements that need a concrete one: an empty route
    table, with Celery's default queue as the fallback. *)
Definition some_queue : string -> string := Queues.get_queue_for_task ∅ "celery".

(** The requests the properties are about, each sent to a fresh system. *)
Definition divide_request (q : string -> string) (x y : Z) : Schemas.TaskResponse * State :=
  Routes.divide_numbers q {| Schemas.dividend := x; Schemas.divisor := y |} init.


Definition chord_request (q : string -> string) (x y z : Z) : Schemas.TaskResponse * State :=
  Routes.execute_parallel_workflow q
    {| Schemas.par_x := x; Schemas.par_y := y; Schemas.par_z := z |} init.

(** The floats 5.0, 6.0 and 20.0. *)
Definition float_5 : spec_float := S754_finite false 5629499534213120 (-50).
Definition float_20 : spec_float := S754_finite false 5629499534213120 (-48).



(** An outcome that is a raised exception of the class [cls]. *)
Definition raises (cls : exc_class) (r : Py.result pyval) : Prop :=
  exists msg, r = raise (Exn cls msg).

(** The callback messages sent. *)
Definition callback_sent (l : list Event) : list Message :=
  List.filter (fun m => String.eqb (msg_task m) "tasks.aggregate_results") (published l).

(** What holds when the chord of [add] and [divide] has ended after the
    division failed with [e]: the callback was neither sent nor invoked, and
    its result is the [ChordError] that names the failed member. *)
Definition chord_aborted (e : pyexn) (fin : State) : Prop :=
  invocations "tasks.aggregate_results" (log fin) = [] /\
  callback_sent (log fin) = [] /\
  backend fin !! "task-3" = Some (settled (raise e)) /\
  backend fin !! "task-0"
    = Some (settled (raise (Exn ChordError
                              (String.append "Dependency task-3 raised " (repr_exn e))))).

(** What holds when it has ended after both members succeeded, with [a] and
    [v]: the callback was sent once and invoked once, on the list of [a] and
    [v] in this order, and its result is the outcome [r] of the
    aggregation. *)
Definition chord_completed (a v : pyval) (r : Py.result pyval) (fin : State) : Prop :=
  map msg_args (invocations "tasks.aggregate_results" (log fin)) = [[VList [a; v]]] /\
  map msg_args (callback_sent (log fin)) = [[VList [a; v]]] /\
  backend fin !! "task-0" = Some (settled r).

(** The description's reading of a status read of a failed task: a response
    is returned. *)
Definition failed_read_returns_data : Prop :=
  forall (b : gmap string TaskMeta) (task_id : string),
    state_of b task_id = FAILURE ->
    exists response, Routes.get_task_status b task_id = ret response.

(** The description's reading of a status read of an unknown id: it differs
    from the status read of the same id when the backend holds it as not yet
    started. *)
Definition unknown_differs_from_pending : Prop :=
  forall (b : gmap string TaskMeta) (task_id : string),
    b !! task_id = None ->
    Routes.get_task_status b task_id
    <> Routes.get_task_status
         (<[task_id := {| status := PENDING; result := ret VNone |}]> b) task_id.

(** The awaited task is never ready on the timeline. *)
Definition never_ready (timeline : nat -> gmap string TaskMeta) (task_id : string) : Prop :=
  forall k, ready (timeline k) task_id = false.

(** Every request of the script is answered, and finds the task not ready. *)
Definition always_pending (server : nat -> option (gmap string TaskMeta))
    (task_id : string) : Prop :=
  forall k, exists b, server k = Some b /\ ready b task_id = false.

(** The description's reading of the wait the API makes: whatever the
    backend shows, [get()] returns within some number of looks. *)
Definition get_returns : Prop :=
  forall (timeline : nat -> gmap string TaskMeta) (task_id : string),
    exists fuel, is_Some (wait_get timeline task_id fuel 0).

(** A request for the pipeline. *)
Definition some_pipeline_request : Schemas.RAGPipelineRequest :=
  {| Schemas.pdf_path := "paper.pdf"; Schemas.chunk_size := 1000;
     Schemas.chunk_overlap := 200;
     Schemas.persist_directory := "./storage/vectorstores/default" |}.


(** What a RAG task makes of the outcome of its service: for an exception,
    a dict whose ["status"] is ["error"] and whose ["message"] is the text
    of the exception after the task's prefix; for a result, a dict whose
    ["status"] is ["success"] and which holds every entry of [payload],
    the part of the result the task passes on. *)
Definition reports (outcome : Py.result pyval) (prefix : string)
    (payload : pyval -> list (string * pyval)) (v : pyval) : Prop :=
  exists d, v = VDict d /\
    match outcome with
    | inr e =>
        Py.dict_get d "status" = Some (VStr "error") /\
        Py.dict_get d "message" = Some (VStr (String.append prefix (str_exn e)))
    | inl r =>
        Py.dict_get d "status" = Some (VStr "success") /\
        Forall (fun kv => Py.dict_get d (fst kv) = Some (snd kv)) (payload r)
    end.

(** The entries of a dict. *)
Definition entries (v : pyval) : list (string * pyval) :=
  match v with
  | VDict kvs => kvs
  | _ => []
  end.

(** What holds when a task sent once, under the first id, has been handled
    and has returned [v]: its body ran once, it was never sent again, and
    its result is in SUCCESS with [v]. *)
Definition completed_with (name : string) (v : pyval) (fin : State) : Prop :=
  length (invocations name (log fin)) = 1%nat /\
  retries_sent (log fin) = [] /\
  backend fin !! "task-0" = Some (settled (ret v)).

(** [settles_within registry time_limit duration n st P]: as [settles], for
    the runs of the worker under the time limit. *)
Definition settles_within (registry : gmap string Task) (time_limit : Z)
    (duration : Message -> Z) (n : nat) (st : State) (P : State -> Prop) : Prop :=
  (forall k st', nsteps (step_within registry time_limit duration) k st st' -> (k <= n)%nat) /\
  (exists st', rtc (step_within registry time_limit duration) st st' /\ broker st' = []) /\
  (forall st', rtc (step_within registry time_limit duration) st st' ->
               broker st' = [] -> P st').

(** What holds when a task sent once, under the first id, has been ended
    by the time limit: its body was started once, it was never sent again,
    and its result is in FAILURE with [TimeLimitExceeded]. *)
Definition timed_out (name : string) (fin : State) : Prop :=
  length (invocations name (log fin)) = 1%nat /\
  retries_sent (log fin) = [] /\
  exists msg, backend fin !! "task-0" = Some (settled (raise (Exn TimeLimitExceeded msg))).

(** What becomes of a task sent once as [st] whose body returns [v], under
    the time limit of the application: in one delivery, SUCCESS with [v]
    when the body stays within the limit, FAILURE when it runs past it. *)
Definition handled_within_limit (registry : gmap string Task) (name : string)
    (st : State) (v : pyval) : Prop :=
  forall duration : Message -> Z,
    ((forall m, duration m <= CeleryApp.task_time_limit) ->
     settles_within registry CeleryApp.task_time_limit duration 1 st
       (completed_with name v)) /\
    ((forall m, CeleryApp.task_time_limit < duration m) ->
     settles_within registry CeleryApp.task_time_limit duration 1 st (timed_out name)).

(** The four RAG tasks as the routes send them. *)
Definition load_pdf_sent (queue : string) (pdf_path : pyval) : State :=
  snd (apply_async "tasks.load_pdf" [pdf_path] [] queue init).

Definition split_documents_sent (queue : string) (documents chunk_size chunk_overlap : pyval)
  : State :=
  snd (apply_async "tasks.split_documents" [documents; chunk_size; chunk_overlap] []
         queue init).

Definition create_vectorstore_sent (queue : string) (chunks persist_directory : pyval)
  : State :=
  snd (apply_async "tasks.create_vectorstore" [chunks; persist_directory] [] queue init).

Definition query_vectorstore_sent (queue : string) (question persist_directory top_k : pyval)
  : State :=
  snd (apply_async "tasks.query_vectorstore" []
         [("question", question); ("persist_directory", persist_directory);
          ("top_k", top_k)] queue init).

(** The description's reading of the RAG tasks: whatever the libraries do
    and however long they take, a task that was sent ends in SUCCESS. *)
Definition rag_tasks_never_fail : Prop :=
  forall (settings : Rag.Settings) (lib : Rag.Libraries) (queue : string)
         (duration : Message -> Z) (st : State),
    (exists pdf_path, st = load_pdf_sent queue pdf_path) \/
    (exists documents chunk_size chunk_overlap,
       st = split_documents_sent queue documents chunk_size chunk_overlap) \/
    (exists chunks persist_directory,
       st = create_vectorstore_sent queue chunks persist_directory) \/
    (exists question persist_directory top_k,
       st = query_vectorstore_sent queue question persist_directory top_k) ->
    settles_within (Rag.registry settings lib) CeleryApp.task_time_limit duration 1 st
      (fun fin => state_of (backend fin) "task-0" = SUCCESS).

(** A string that does not start with white space. *)
Definition no_leading (s : string) : Prop :=
  match s with
  | EmptyString => True
  | String c _ => Text.isspace c = false
  end.

(** A string written with the characters of the alphabet only. *)
Definition over_alphabet (s : string) : Prop :=
  Forall (fun c => c ∈ Text.chars Keys.alphabet) (Text.chars s).

(** What the loop keeps true of the set: every key has the length asked
    for and is written in the alphabet. *)
Definition well_formed (length : Z) (keys : gset string) : Prop :=
  forall key, key ∈ keys ->
    String.length key = Z.to_nat length /\ over_alphabet key.

(** All the strings of [n] characters of the alphabet. *)
Fixpoint words (n : nat) : list string :=
  match n with
  | O => [EmptyString]
  | S n' =>
      map (fun cw => String (fst cw) (snd cw))
        (list_prod (Text.chars Keys.alphabet) (words n'))
  end.

(** The keys the first [n] iterations draw, from the [k]-th draw on. *)
Definition drawn (draws : nat -> nat) (length : Z) (k n : nat) : list string :=
  map (fun i => fst (Keys.generate_api_key draws length (k + i * Z.to_nat length)))
    (seq 0 n).

(** The requests of one client in one minute, made at the instants
    [times] against a server that answers: for each, whether it was let
    through, and the store after the last. *)
Fixpoint serve (client : option string) (current_minute : string)
    (max_requests window : Z) (key_prefix : string) (times : list Z)
    (store : Redis.Store) : list bool * Redis.Store :=
  match times with
  | [] => ([], store)
  | now :: times' =>
      let '(r, store1) :=
        RateLimit.rate_limit (Some (Redis.server now)) client current_minute
          max_requests window key_prefix store in
      let '(rs, store2) :=
        serve client current_minute max_requests window key_prefix times' store1 in
      (match r with inl _ => true | inr _ => false end :: rs, store2)
  end.

(** The requests of the two other plain routes, each sent to a fresh
    system. *)
Definition process_request (q : string -> string) (data : string)
  : Schemas.TaskResponse * State :=
  ProcessData.process_data q {| ProcessData.data := data |} init.

Definition add_request (q : string -> string) (x y : Z) : Schemas.TaskResponse * State :=
  Routes.add_numbers q {| Schemas.add_x := x; Schemas.add_y := y |} init.

(** The two answers of the status endpoint. *)
Definition pending (task_id : string) : Schemas.TaskStatusResponse :=
  {| Schemas.st_task_id := task_id; Schemas.st_status := "Pending";
     Schemas.st_result := VNone |}.

Definition completed (task_id : string) (v : pyval) : Schemas.TaskStatusResponse :=
  {| Schemas.st_task_id := task_id; Schemas.st_status := "Completed";
     Schemas.st_result := v |}.

(** What holds of a task submitted alone, under the first id, that was
    handled by one call of its body returning [v]: it was never sent
    again, and the status endpoint answers [Completed] with [v]. *)
Definition answered (name : string) (v : pyval) (fin : State) : Prop :=
  length (invocations name (log fin)) = 1%nat /\
  retries_sent (log fin) = [] /\
  Routes.get_task_status (backend fin) "task-0" = ret (completed "task-0" v).

(** Libraries for the statements that need concrete ones: a loader that
    finds one page unless the file is ["missing.pdf"], a splitter that
    leaves the documents as they are, and a vector store that holds one
    page unless its directory is ["./storage/vectorstores/empty"]. *)
Definition some_libraries : Rag.Libraries :=
  {| Rag.Chroma := list (pyval * pyval);
     Rag.pdf_loader := fun path =>
       if Py.eq_str path "missing.pdf" then
         raise (Exn ValueError "File path missing.pdf is not a valid file or url")
       else ret [(VStr "page one", VDict [("source", path)])];
     Rag.Document := fun content metadata => ret (content, metadata);
     Rag.text_splitter := fun _ _ docs => ret docs;
     Rag.chroma_from_documents := fun _ _ => ret (VStr "langchain", VStr "collection-0");
     Rag.load_vectorstore := fun directory =>
       if Py.eq_str directory "./storage/vectorstores/empty" then ret []
       else ret [(VStr "page one", VDict [("source", VStr "paper.pdf")])];
     Rag.collection_count := fun db => ret (Z.of_nat (length db));
     Rag.get_relevant_documents := fun db _ _ => ret db;
     Rag.invoke_chain := fun _ _ _ => ret (VStr "I don't know");
     Rag.sources_of := fun _ => ret [VStr "paper.pdf"];
     Rag.format := fun v =>
       match v with
       | VInt z => pretty z
       | VStr s => s
       | _ => EmptyString
       end |}.

(** What is read of a message sent: its id, its task, its arguments and its
    queue. *)
Definition sent (l : list Event) : list (string * string * list pyval * option string) :=
  map (fun m => (msg_id m, msg_task m, msg_args m, msg_queue m)) (published l).


(** * Properties *)

(** ** Runs of the worker *)

Section Runs.

Variable registry : gmap string Task.

Lemma step_successors st st' :
  step registry st st' <-> st' ∈ successors registry st.
Proof.
  unfold successors. rewrite list_elem_of_lookup. split.
  - intros [s i m Hm]. exists i. by rewrite list_lookup_imap, Hm.
  - intros [i Hi]. rewrite list_lookup_imap in Hi.
    destruct (broker st !! i) as [m|] eqn:Hm; simplify_eq/=.
    by constructor.
Qed.

Lemma quiescent_stuck st st' : broker st = [] -> ~ step registry st st'.
Proof. intros Hb Hs. destruct Hs as [s i m Hm]. by rewrite Hb in Hm. Qed.

Lemma quiescent_rtc st st' :
  broker st = [] -> rtc (step registry) st st' -> st' = st.
Proof.
  intros Hb Hr. destruct Hr as [|s1 s2 s3 Hs _]; [done|].
  by apply quiescent_stuck in Hs.
Qed.

(** Every run that ends is listed by [finals]. *)
Lemma finals_complete n : forall st l,
  finals registry n st = Some l ->
  forall st', rtc (step registry) st st' -> broker st' = [] -> st' ∈ l.
Proof.
  induction n as [|n IH]; intros st l Hf st' Hr Hq.
  - simpl in Hf. destruct (broker st) eqn:Hb; [|done]. simplify_eq.
    apply quiescent_rtc in Hr; [|done]. subst. apply list_elem_of_here.
  - simpl in Hf. destruct (broker st) as [|m0 q0] eqn:Hb.
    + simplify_eq. apply quiescent_rtc in Hr; [|done]. subst. apply list_elem_of_here.
    + destruct Hr as [|s0 s1 s2 Hs Hr]; [congruence|].
      apply fmap_Some in Hf as (ls & Hm & ->).
      apply mapM_Some in Hm.
      apply step_successors in Hs.
      apply list_elem_of_lookup in Hs as [i Hi].
      destruct (Forall2_lookup_l _ _ _ _ _ Hm Hi) as (l1 & Hl1 & Hf1).
      apply list_elem_of_join. exists l1. split; [by eapply IH|].
      apply list_elem_of_lookup. by exists i.
Qed.

(** Every state [finals] lists is reached and has an empty broker. *)
Lemma finals_sound n : forall st l,
  finals registry n st = Some l ->
  forall st', st' ∈ l -> rtc (step registry) st st' /\ broker st' = [].
Proof.
  induction n as [|n IH]; intros st l Hf st' Hin.
  - simpl in Hf. destruct (broker st) eqn:Hb; [|done]. simplify_eq.
    apply list_elem_of_singleton in Hin. by subst.
  - simpl in Hf. destruct (broker st) as [|m0 q0] eqn:Hb.
    + simplify_eq. apply list_elem_of_singleton in Hin. by subst.
    + apply fmap_Some in Hf as (ls & Hm & ->).
      apply mapM_Some in Hm.
      apply list_elem_of_join in Hin as (l1 & Hin & Hl1).
      apply list_elem_of_lookup in Hl1 as [i Hi].
      destruct (Forall2_lookup_r _ _ _ _ _ Hm Hi) as (s1 & Hs1 & Hf1).
      destruct (IH _ _ Hf1 _ Hin) as [Hr Hq]. split; [|done].
      eapply rtc_l; [|done]. apply step_successors.
      apply list_elem_of_lookup. by exists i.
Qed.

(** No run is longer than the bound [finals] was given. *)
Lemma finals_bound n : forall st l,
  finals registry n st = Some l ->
  forall k st', nsteps (step registry) k st st' -> (k <= n)%nat.
Proof.
  induction n as [|n IH]; intros st l Hf k st' Hk.
  - simpl in Hf. destruct (broker st) eqn:Hb; [|done].
    destruct Hk as [|k s0 s1 s2 Hs _]; [done|]. by apply quiescent_stuck in Hs.
  - destruct Hk as [|k s0 s1 s2 Hs Hk]; [lia|].
    simpl in Hf. destruct (broker s0) as [|m0 q0] eqn:Hb.
    + by apply quiescent_stuck in Hs.
    + apply fmap_Some in Hf as (ls & Hm & ->).
      apply mapM_Some in Hm.
      apply step_successors in Hs.
      apply list_elem_of_lookup in Hs as [i Hi].
      destruct (Forall2_lookup_l _ _ _ _ _ Hm Hi) as (l1 & Hl1 & Hf1).
      specialize (IH _ _ Hf1 _ _ Hk). lia.
Qed.

(** Every state met on the way is listed by [reachables]. *)
Lemma reachables_complete n : forall st l,
  finals registry n st = Some l ->
  forall st', rtc (step registry) st st' -> st' ∈ reachables registry n st.
Proof.
  induction n as [|n IH]; intros st l Hf st' Hr.
  - simpl in Hf. destruct (broker st) eqn:Hb; [|done].
    apply quiescent_rtc in Hr; [|done]. subst. simpl. apply list_elem_of_here.
  - destruct Hr as [|s0 s1 s2 Hs Hr]; [simpl; apply list_elem_of_here|].
    simpl in Hf. destruct (broker s0) as [|m0 q0] eqn:Hb.
    + by apply quiescent_stuck in Hs.
    + apply fmap_Some in Hf as (ls & Hm & ->).
      apply mapM_Some in Hm.
      apply step_successors in Hs.
      apply list_elem_of_lookup in Hs as [i Hi].
      destruct (Forall2_lookup_l _ _ _ _ _ Hm Hi) as (l1 & Hl1 & Hf1).
      simpl. apply list_elem_of_further, list_elem_of_join.
      exists (reachables registry n s1). split; [by eapply IH|].
      apply list_elem_of_fmap. exists s1. split; [done|].
      apply list_elem_of_lookup. by exists i.
Qed.

End Runs.

Lemma settles_finals registry n st P fin l :
  finals registry n st = Some (fin :: l) ->
  Forall P (fin :: l) ->
  settles registry n st P.
Proof.
  intros Hf HP. split; [|split].
  - by eapply finals_bound.
  - exists fin. eapply finals_sound; [done|]. apply list_elem_of_here.
  - intros st' Hr Hq. eapply Forall_forall; [exact HP|].
    by eapply finals_complete.
Qed.

Lemma always_reachables registry n st P l :
  finals registry n st = Some l ->
  Forall P (reachables registry n st) ->
  always registry st P.
Proof.
  intros Hf HP st' Hr. eapply Forall_forall; [exact HP|].
  by eapply reachables_complete.
Qed.

Lemma settles_done registry n st (P : State -> Prop) :
  broker st = [] -> P st -> settles registry n st P.
Proof.
  intros Hb HP. split; [|split].
  - intros k st' Hk. destruct Hk as [|k s0 s1 s2 Hs _]; [lia|].
    by apply quiescent_stuck in Hs.
  - by exists st.
  - intros st' Hr _. apply quiescent_rtc in Hr; [|done]. by subst.
Qed.

Lemma settles_successors registry n st (P : State -> Prop) s l :
  successors registry st = s :: l ->
  Forall (fun s' => settles registry n s' P) (s :: l) ->
  settles registry (S n) st P.
Proof.
  intros Hs Hall.
  assert (Hnext : forall s1, step registry st s1 -> settles registry n s1 P).
  { intros s1 H1. apply step_successors in H1. rewrite Hs in H1.
    by eapply Forall_forall in Hall. }
  assert (Hb : broker st <> []).
  { intros Hb. unfold successors in Hs. by rewrite Hb in Hs. }
  split; [|split].
  - intros k st' Hk. destruct Hk as [|k s0 s1 s2 H1 Hk]; [lia|].
    destruct (Hnext _ H1) as (Hbound & _). specialize (Hbound _ _ Hk). lia.
  - assert (H1 : step registry st s).
    { apply step_successors. rewrite Hs. apply list_elem_of_here. }
    destruct (Hnext _ H1) as (_ & (st' & Hr & Hq) & _).
    exists st'. split; [|done]. by eapply rtc_l.
  - intros st' Hr Hq. destruct Hr as [|s0 s1 s2 H1 Hr]; [done|].
    destruct (Hnext _ H1) as (_ & _ & Hfin). by apply Hfin.
Qed.

Lemma settles_impl registry n st (P Q : State -> Prop) :
  (forall fin, P fin -> Q fin) -> settles registry n st P -> settles registry n st Q.
Proof.
  intros HPQ (Hbound & Hex & Hfin). split; [done|]. split; [done|].
  intros st' Hr Hq. by apply HPQ, Hfin.
Qed.

Lemma settles_broker registry n st (P : State -> Prop) m ms ims :
  broker st = m :: ms ->
  imap pair (m :: ms) = ims ->
  Forall (fun im => settles registry n (deliver registry (fst im) (snd im) st) P) ims ->
  settles registry (S n) st P.
Proof.
  intros Hb <- Hall.
  apply (settles_successors registry n st P
           (deliver registry 0 m st) (imap (fun i m' => deliver registry (S i) m' st) ms)).
  { unfold successors. by rewrite Hb. }
  change (Forall (fun s' => settles registry n s' P)
            (imap (fun i m' => deliver registry i m' st) (m :: ms))).
  apply Forall_forall. intros s' Hs'.
  apply list_elem_of_lookup in Hs' as [i Hi].
  rewrite list_lookup_imap in Hi.
  destruct ((m :: ms) !! i) as [m'|] eqn:Hm'; [|done].
  injection Hi as <-.
  assert (Hin : (i, m') ∈ imap pair (m :: ms)).
  { apply list_elem_of_lookup. exists i. by rewrite list_lookup_imap, Hm'. }
  by apply (proj1 (Forall_forall _ _) Hall) in Hin.
Qed.

Lemma settles_deliver registry n st (P : State -> Prop) i m ms outcome st' :
  broker st = ms ->
  run_task registry m = outcome ->
  conclude m outcome (set_broker (delete i ms) st) = st' ->
  settles registry n st' P ->
  settles registry n (deliver registry i m st) P.
Proof.
  intros Hb Ho Hs Hst. unfold deliver, execute. by rewrite Hb, Ho, Hs.
Qed.

(** One delivery, computed: for each message on the broker, the task is run
    and the state after it is computed.  [use] rewrites, in a hypothesis
    that gives the outcome of the run, with what is known of the task bodies
    where these are left open, to decide the branch taken. *)
Ltac computed t := let t' := eval vm_compute in t in exact_no_check (eq_refl t' <: t = t').

Ltac deliver_message use :=
  lazymatch goal with
  | |- settles ?reg ?n (deliver ?reg ?i ?m ?st) ?P =>
      let ms := eval vm_compute in (broker st) in
      let out := eval vm_compute in (run_task reg m) in
      let Ho := fresh "Ho" in
      assert (Ho : run_task reg m = out) by (vm_cast_no_check (eq_refl out));
      use Ho;
      lazymatch type of Ho with
      | _ = ?out1 =>
          let out2 := eval vm_compute in out1 in
          let Ho2 := fresh "Ho" in
          assert (Ho2 : run_task reg m = out2)
            by (transitivity out1; [exact Ho | vm_cast_no_check (eq_refl out2)]);
          let st' := eval vm_compute in (conclude m out2 (set_broker (delete i ms) st)) in
          apply (settles_deliver reg n st P i m ms out2 st');
          [ vm_cast_no_check (eq_refl ms)
          | exact Ho2
          | vm_cast_no_check (eq_refl st')
          | clear Ho Ho2 ]
      end
  end.

Ltac per_message use :=
  lazymatch goal with
  | |- Forall _ [] => apply Forall_nil_2
  | |- Forall _ (_ :: _) =>
      apply Forall_cons_2; [ cbv beta; cbn [fst snd]; deliver_message use | per_message use ]
  end.

Ltac one_delivery use :=
  lazymatch goal with
  | |- settles ?reg (S ?n) ?st ?P =>
      let b := eval vm_compute in (broker st) in
      lazymatch b with
      | ?m :: ?ms =>
          let ims := eval vm_compute in (imap pair b) in
          apply (settles_broker reg n st P m ms ims);
          [ vm_cast_no_check (eq_refl b)
          | vm_cast_no_check (eq_refl ims)
          | per_message use ]
      end
  end.

(** All deliveries, until the broker is empty; the property of the final
    state is left. *)
Ltac run_with use :=
  lazymatch goal with
  | |- settles ?reg ?n ?st ?P =>
      let b := eval vm_compute in (broker st) in
      lazymatch b with
      | [] => apply settles_done; [ vm_cast_no_check (eq_refl b) | cbv beta ]
      | _ => one_delivery use; run_with use
      end
  end.

Ltac run := run_with ltac:(fun _ => idtac).

Ltac finish :=
  vm_compute;
  repeat first
    [ split
    | apply Forall_cons_2
    | apply Forall_nil_2
    | apply SSorted_cons
    | apply SSorted_nil
    | reflexivity
    | (left; reflexivity)
    | (right; reflexivity) ].

(** ** Retries of the division *)

(** While the limit is not reached, a [ZeroDivisionError] in the body makes
    the task send itself again, with the countdown [2 ^ retries] for the
    retries made so far, and raise [Retry]. *)
Lemma retrying_resends body self x y msg limit :
  body x y = inr (Exn ZeroDivisionError msg) ->
  max_retries self = Some limit ->
  (msg_retries (request self) < limit)%nat ->
  BasicTasks.retrying body self x y =
    ([retry_message (request self) (S (msg_retries (request self)))
        (2 ^ Z.of_nat (msg_retries (request self)))],
     raise (Retry (Exn ZeroDivisionError msg) (2 ^ Z.of_nat (msg_retries (request self))))).
Proof.
  intros Hbody Hlimit Hlt. unfold BasicTasks.retrying, retry.
  rewrite Hbody, Hlimit.
  destruct (limit <? S (msg_retries (request self)))%nat eqn:Hcmp; [|done].
  apply Nat.ltb_lt in Hcmp. lia.
Qed.

(** Once the limit is reached, the [ZeroDivisionError] itself leaves the task
    and nothing is sent. *)
Lemma retrying_gives_up body self x y msg limit :
  body x y = inr (Exn ZeroDivisionError msg) ->
  max_retries self = Some limit ->
  (limit <= msg_retries (request self))%nat ->
  BasicTasks.retrying body self x y = ([], raise (Exn ZeroDivisionError msg)).
Proof.
  intros Hbody Hlimit Hle. unfold BasicTasks.retrying, retry.
  rewrite Hbody, Hlimit.
  destruct (limit <? S (msg_retries (request self)))%nat eqn:Hcmp; [done|].
  apply Nat.ltb_ge in Hcmp. lia.
Qed.

(** C2. Submitting divide(x, 0), for any dividend x and so for 10, to the
    divide task (max_retries=5): every run of the worker makes six
    deliveries and ends with the task in FAILURE holding the
    ZeroDivisionError; the task was sent again exactly five times, the
    retry made after k earlier retries carrying the countdown 2^k, so the
    countdowns are 1, 2, 4, 8, 16, strictly increasing; the body ran six
    times, with retries 0 to 5. *)
Theorem divide_by_zero_retries_five_times (q : string -> string) (x : Z) :
  settles BasicTasks.registry 6 (snd (divide_request q x 0)) (fun fin =>
    let tid := Schemas.task_id (fst (divide_request q x 0)) in
    let retries := retries_sent (log fin) in
    backend fin !! tid
      = Some (settled (raise (Exn ZeroDivisionError "Cannot divide by zero"))) /\
    length retries = 5%nat /\
    map (fun m => (msg_id m, msg_retries m, msg_countdown m)) retries
      = map (fun k => (tid, S k, Some (2 ^ Z.of_nat k))) (seq 0 5) /\
    countdowns retries = [1; 2; 4; 8; 16] /\
    StronglySorted Z.lt (countdowns retries) /\
    map msg_retries (invocations "tasks.divide_numbers" (log fin))
      = [0; 1; 2; 3; 4; 5]%nat).
Proof.
  run; finish.
Qed.

(** ** What the task bodies come to *)

(** The division of two [int]s: a zero divisor is refused, the quotient may
    be too large for a float, and otherwise it is a float. *)
Lemma divide_body_cases (a d : Z) :
  (d = 0 /\ BasicTasks.divide_body (VInt a) (VInt d)
            = raise (Exn ZeroDivisionError "Cannot divide by zero")) \/
  (d <> 0 /\ BasicTasks.divide_body (VInt a) (VInt d)
             = raise (Exn OverflowError "integer division result too large for a float")) \/
  (d <> 0 /\ exists f, BasicTasks.divide_body (VInt a) (VInt d) = ret (VFloat f)).
Proof.
  unfold BasicTasks.divide_body, Py.eq_int. simpl.
  destruct (d =? 0) eqn:Hd.
  - left. apply Z.eqb_eq in Hd. by split.
  - right. apply Z.eqb_neq in Hd.
    unfold Py.truediv, Py.coerce. simpl.
    unfold Py.int_truediv. rewrite (proj2 (Z.eqb_neq _ _) Hd).
    destruct (SFdiv prec emax (int_as_float a) (int_as_float d)); simpl; eauto.
Qed.

(** The sum of an [int] and a [float]. *)
Lemma aggregate_cases (n : Z) (f : spec_float) :
  BasicTasks.aggregate_results_task (VList [VInt n; VFloat f])
    = raise (Exn OverflowError "int too large to convert to float") \/
  exists g, BasicTasks.aggregate_results_task (VList [VInt n; VFloat f]) = ret (VFloat g).
Proof.
  unfold BasicTasks.aggregate_results_task, Py.sum. simpl.
  unfold Py.coerce, Py.as_float, Py.float_of_int. simpl.
  destruct (binary_normalize prec emax (0 + n) 0 false); simpl; eauto.
Qed.

(** The sum of a list that holds something that is not a number. *)
Lemma aggregate_rejects_text (n : Z) (text : string) :
  raises TypeError (BasicTasks.aggregate_results_task (VList [VInt n; VStr text])).
Proof. eexists. reflexivity. Qed.

Lemma aggregate_rejects_dict (n : Z) (kvs : list (string * pyval)) :
  raises TypeError (BasicTasks.aggregate_results_task (VList [VInt n; VDict kvs])).
Proof. eexists. reflexivity. Qed.

(** ** The chain *)

Section ChainRuns.

Variable q : string -> string.
Variables add_body div_body : pyval -> pyval -> Py.result pyval.
Variable agg_body : pyval -> Py.result pyval.

Let registry := BasicTasks.registry_of add_body div_body agg_body.





End ChainRuns.



(** ** The chord *)

Section ChordRuns.

Variable q : string -> string.
Variables add_body div_body : pyval -> pyval -> Py.result pyval.
Variable agg_body : pyval -> Py.result pyval.

Let registry := BasicTasks.registry_of add_body div_body agg_body.

Lemma chord_runs_zero_division x y z a msg :
  add_body (VInt x) (VInt y) = inl a ->
  div_body (VInt x) (VInt z) = inr (Exn ZeroDivisionError msg) ->
  settles registry 7 (snd (chord_request q x y z))
    (chord_aborted (Exn ZeroDivisionError msg)).
Proof.
  intros Hadd Hdiv. subst registry.
  run_with ltac:(fun H => rewrite ?Hadd, ?Hdiv in H); finish.
Qed.

Lemma chord_runs_overflow x y z a msg :
  add_body (VInt x) (VInt y) = inl a ->
  div_body (VInt x) (VInt z) = inr (Exn OverflowError msg) ->
  settles registry 7 (snd (chord_request q x y z))
    (chord_aborted (Exn OverflowError msg)).
Proof.
  intros Hadd Hdiv. subst registry.
  run_with ltac:(fun H => rewrite ?Hadd, ?Hdiv in H); finish.
Qed.

Lemma chord_runs_completed x y z a v w :
  add_body (VInt x) (VInt y) = inl a ->
  div_body (VInt x) (VInt z) = inl v ->
  agg_body (VList [a; v]) = inl w ->
  settles registry 7 (snd (chord_request q x y z)) (chord_completed a v (inl w)).
Proof.
  intros Hadd Hdiv Hagg. subst registry.
  run_with ltac:(fun H => rewrite ?Hadd, ?Hdiv, ?Hagg in H); finish.
Qed.

Lemma chord_runs_completed_overflow x y z a v msg :
  add_body (VInt x) (VInt y) = inl a ->
  div_body (VInt x) (VInt z) = inl v ->
  agg_body (VList [a; v]) = inr (Exn OverflowError msg) ->
  settles registry 7 (snd (chord_request q x y z))
    (chord_completed a v (inr (Exn OverflowError msg))).
Proof.
  intros Hadd Hdiv Hagg. subst registry.
  run_with ltac:(fun H => rewrite ?Hadd, ?Hdiv, ?Hagg in H); finish.
Qed.

End ChordRuns.

(** C4. The chord of the header add(10, 5), divide(10, 2) with the callback
    aggregate.  Every run of the worker makes three deliveries and ends with
    the callback having been invoked exactly once, on the list of 15 and 5.0
    in the order of the header, and with the chord's result (the
    callback's) in SUCCESS with 20.0; the list equals [15, 5] and the
    result equals 20.  At no point of a run has the callback been sent or
    invoked more than once.  Both orders of completion of the header occur:
    the addition first, and the division first. *)
Theorem chord_callback_fires_once_in_header_order (q : string -> string) :
  settles BasicTasks.registry 3 (snd (chord_request q 10 5 2)) (fun fin =>
    map msg_args (invocations "tasks.aggregate_results" (log fin))
      = [[VList [VInt 15; VFloat float_5]]] /\
    backend fin !! Schemas.task_id (fst (chord_request q 10 5 2))
      = Some (settled (ret (VFloat float_20)))) /\
  always BasicTasks.registry (snd (chord_request q 10 5 2)) (fun st =>
    (length (invocations "tasks.aggregate_results" (log st)) <= 1)%nat /\
    (length (callback_sent (log st)) <= 1)%nat) /\
  (exists fin, rtc (step BasicTasks.registry) (snd (chord_request q 10 5 2)) fin /\
     broker fin = [] /\
     map msg_task (invoked (log fin))
       = ["tasks.add_numbers"; "tasks.divide_numbers"; "tasks.aggregate_results"]) /\
  (exists fin, rtc (step BasicTasks.registry) (snd (chord_request q 10 5 2)) fin /\
     broker fin = [] /\
     map msg_task (invoked (log fin))
       = ["tasks.divide_numbers"; "tasks.add_numbers"; "tasks.aggregate_results"]) /\
  Py.eq_int_list (VList [VInt 15; VFloat float_5]) [15; 5] = true /\
  Py.eq_int (VFloat float_20) 20 = true.
Proof.
  set (P := fun fin : State =>
    map msg_args (invocations "tasks.aggregate_results" (log fin))
      = [[VList [VInt 15; VFloat float_5]]] /\
    backend fin !! Schemas.task_id (fst (chord_request q 10 5 2))
      = Some (settled (ret (VFloat float_20)))).
  assert (Hfinals : exists f1 f2,
             finals BasicTasks.registry 3 (snd (chord_request q 10 5 2)) = Some [f1; f2] /\
             Forall P [f1; f2] /\
             map msg_task (invoked (log f1))
               = ["tasks.add_numbers"; "tasks.divide_numbers"; "tasks.aggregate_results"] /\
             map msg_task (invoked (log f2))
               = ["tasks.divide_numbers"; "tasks.add_numbers"; "tasks.aggregate_results"]).
  { let v := eval vm_compute in
             (finals BasicTasks.registry 3 (snd (chord_request q 10 5 2))) in
    lazymatch v with
    | Some [?f1; ?f2] => exists f1, f2
    end.
    split; [vm_compute; reflexivity|]. split; [finish|].
    split; vm_compute; reflexivity. }
  destruct Hfinals as (f1 & f2 & Hfinals & HP & Hf1 & Hf2).
  split; [|split; [|split; [|split; [|split]]]].
  - eapply settles_finals; [exact Hfinals|exact HP].
  - eapply always_reachables; [exact Hfinals|].
    vm_compute.
    repeat first [ apply Forall_cons_2 | apply Forall_nil_2 | split
                 | apply le_n | apply le_S ].
  - exists f1.
    destruct (finals_sound _ _ _ _ Hfinals f1) as [Hr Hq]; [apply list_elem_of_here|].
    split; [exact Hr|]. split; [exact Hq|exact Hf1].
  - exists f2.
    destruct (finals_sound _ _ _ _ Hfinals f2) as [Hr Hq].
    { apply list_elem_of_further, list_elem_of_here. }
    split; [exact Hr|]. split; [exact Hq|exact Hf2].
  - reflexivity.
  - reflexivity.
Qed.

(** C5, as stated, does not hold.  In the chord of add(10, 5) and
    divide(10, 0) the division ends in FAILURE once its retries are used;
    in every run of the worker the callback is then neither sent nor
    invoked, and the chord's result is FAILURE with a ChordError naming the
    failed member.  Nor does the callback accept an error in place of a
    result: on the list of 15 and a descriptor of the error, as a text or as
    a dict, the sum raises TypeError. *)
Lemma chord_with_failed_member_skips_callback :
  settles BasicTasks.registry 7 (snd (chord_request some_queue 10 5 0)) (fun fin =>
    backend fin !! "task-3"
      = Some (settled (raise (Exn ZeroDivisionError "Cannot divide by zero"))) /\
    invocations "tasks.aggregate_results" (log fin) = [] /\
    callback_sent (log fin) = [] /\
    backend fin !! Schemas.task_id (fst (chord_request some_queue 10 5 0))
      = Some (settled (raise (Exn ChordError
           "Dependency task-3 raised ZeroDivisionError('Cannot divide by zero')")))) /\
  raises TypeError
    (BasicTasks.aggregate_results_task
       (VList [VInt 15; VStr "ZeroDivisionError('Cannot divide by zero')"])) /\
  raises TypeError
    (BasicTasks.aggregate_results_task
       (VList [VInt 15; VDict [("error", VStr "Cannot divide by zero")]])).
Proof.
  split; [|split; eexists; reflexivity].
  eapply settles_impl;
    [|apply (chord_runs_zero_division some_queue BasicTasks.add_numbers_task
               BasicTasks.divide_body BasicTasks.aggregate_results_task
               10 5 0 (VInt 15) "Cannot divide by zero"); reflexivity].
  intros fin (Hnone & Hsent & Hmember & Hchord).
  split; [exact Hmember|]. split; [exact Hnone|]. split; [exact Hsent|exact Hchord].
Qed.

(** C5, amended.  In the chord of add(x, y) and divide(x, z) with the
    callback aggregate, for every request whose numbers and whose sum the
    serializer can write (at most 4300 digits) and every run of the worker:
    when the division ends in FAILURE
    with an exception, the chord is aborted: the callback is neither sent
    nor invoked, and the chord's result, the callback's, is FAILURE with the
    ChordError that names the failed member and its exception; when the
    division succeeds, the callback is sent once and invoked once, on the
    results in the order of the header.  The callback does not accept an
    error in place of a result: on a list that holds a text or a dict the
    sum raises TypeError. *)
Theorem chord_failed_member_aborts (q : string -> string) (x y z : Z) :
  Schemas.task_id (fst (chord_request q x y z)) = "task-0" /\
  (Forall Py.json_int [x; y; z; x + y] ->
   match BasicTasks.divide_body (VInt x) (VInt z) with
   | inr e =>
       settles BasicTasks.registry 7 (snd (chord_request q x y z)) (chord_aborted e)
   | inl v =>
       settles BasicTasks.registry 7 (snd (chord_request q x y z))
         (chord_completed (VInt (x + y)) v
            (BasicTasks.aggregate_results_task (VList [VInt (x + y); v])))
   end) /\
  (forall (n : Z) (text : string),
     raises TypeError (BasicTasks.aggregate_results_task (VList [VInt n; VStr text]))) /\
  (forall (n : Z) (kvs : list (string * pyval)),
     raises TypeError (BasicTasks.aggregate_results_task (VList [VInt n; VDict kvs]))).
Proof.
  split; [reflexivity|]. split; [|split].
  - intros _.
    destruct (divide_body_cases x z) as [[_ Hdiv]|[[_ Hdiv]|[_ [f Hdiv]]]];
      rewrite Hdiv; unfold raise, ret.
    + by eapply chord_runs_zero_division.
    + by eapply chord_runs_overflow.
    + destruct (aggregate_cases (x + y) f) as [Hagg|[g Hagg]]; rewrite Hagg.
      * by eapply chord_runs_completed_overflow.
      * by eapply chord_runs_completed.
  - apply aggregate_rejects_text.
  - apply aggregate_rejects_dict.
Qed.

(** The statement for the requests 10, 5, 0, whose division fails, and
    10, 5, 2, whose division succeeds. *)
Lemma chord_failed_member_aborts_witness :
  settles BasicTasks.registry 7 (snd (chord_request some_queue 10 5 0))
    (chord_aborted (Exn ZeroDivisionError "Cannot divide by zero")) /\
  settles BasicTasks.registry 7 (snd (chord_request some_queue 10 5 2))
    (chord_completed (VInt 15) (VFloat float_5) (ret (VFloat float_20))).
Proof.
  split.
  - apply (proj1 (proj2 (chord_failed_member_aborts some_queue 10 5 0))).
    repeat (apply Forall_cons_2; [vm_compute; reflexivity|]). apply Forall_nil_2.
  - apply (proj1 (proj2 (chord_failed_member_aborts some_queue 10 5 2))).
    repeat (apply Forall_cons_2; [vm_compute; reflexivity|]). apply Forall_nil_2.
Defined.

(** ** The status endpoint *)

Section Status.

Implicit Types (b : gmap string TaskMeta) (task_id : string).

(** A task that is not ready reads as ["Pending"], with no result. *)
Lemma status_not_ready b task_id :
  READY_STATES (state_of b task_id) = false ->
  Routes.get_task_status b task_id
    = ret {| Schemas.st_task_id := task_id; Schemas.st_status := "Pending";
             Schemas.st_result := VNone |}.
Proof.
  intros H. unfold Routes.get_task_status, ready. fold (state_of b task_id).
  by rewrite H.
Qed.

(** A task in [SUCCESS] reads as ["Completed"], with its result. *)
Lemma status_success b task_id v :
  b !! task_id = Some {| status := SUCCESS; result := ret v |} ->
  Routes.get_task_status b task_id
    = ret {| Schemas.st_task_id := task_id; Schemas.st_status := "Completed";
             Schemas.st_result := v |}.
Proof.
  intros H. unfold Routes.get_task_status, ready, get_task_meta. by rewrite H.
Qed.

(** A task in a state that propagates makes the read raise. *)
Lemma status_propagates b task_id :
  PROPAGATE_STATES (state_of b task_id) = true ->
  exists e, Routes.get_task_status b task_id = raise e.
Proof.
  intros H. unfold Routes.get_task_status, ready, get_of_meta.
  fold (state_of b task_id). unfold state_of in *.
  destruct (status (get_task_meta b task_id)); try discriminate H; simpl.
  all: destruct (result (get_task_meta b task_id)); simpl; eauto.
Qed.

End Status.

(** C1 does not hold.  After divide(10, 0) has been submitted and every
    retry has been used, in every run of the worker, the status read of the
    id the submission returned raises the ZeroDivisionError the task ended
    with; no response is returned. *)
Lemma status_read_of_failed_task_raises :
  settles BasicTasks.registry 6 (snd (divide_request some_queue 10 0)) (fun fin =>
    state_of (backend fin) (Schemas.task_id (fst (divide_request some_queue 10 0)))
      = FAILURE /\
    Routes.get_task_status (backend fin)
      (Schemas.task_id (fst (divide_request some_queue 10 0)))
      = raise (Exn ZeroDivisionError "Cannot divide by zero")) /\
  ~ failed_read_returns_data.
Proof.
  assert (Hrun : settles BasicTasks.registry 6 (snd (divide_request some_queue 10 0))
            (fun fin =>
               state_of (backend fin)
                 (Schemas.task_id (fst (divide_request some_queue 10 0))) = FAILURE /\
               Routes.get_task_status (backend fin)
                 (Schemas.task_id (fst (divide_request some_queue 10 0)))
               = raise (Exn ZeroDivisionError "Cannot divide by zero"))).
  { run; finish. }
  split; [exact Hrun|].
  intros Hclaim.
  destruct Hrun as (_ & (fin & Hr & Hq) & Hfin).
  destruct (Hfin fin Hr Hq) as [Hstate Hread].
  destruct (Hclaim _ _ Hstate) as [response Hresp].
  rewrite Hread in Hresp. discriminate Hresp.
Qed.

(** C1, amended.  For a task whose backend entry is in FAILURE with the
    exception it ended with, the status read returns no response: it raises
    that exception. *)
Theorem failed_status_read_raises_stored_exception
    (b : gmap string TaskMeta) (task_id : string) (e : pyexn) :
  b !! task_id = Some {| status := FAILURE; result := raise e |} ->
  Routes.get_task_status b task_id = raise e.
Proof.
  intros H. unfold Routes.get_task_status, ready, get_task_meta, get_of_meta.
  by rewrite H.
Qed.

(** The statement at a backend that holds one failed task. *)
Lemma failed_status_read_raises_stored_exception_witness :
  Routes.get_task_status
    {[ "task-0" := {| status := FAILURE;
                      result := raise (Exn ZeroDivisionError "Cannot divide by zero") |} ]}
    "task-0"
  = raise (Exn ZeroDivisionError "Cannot divide by zero").
Proof.
  apply failed_status_read_raises_stored_exception.
  reflexivity.
Defined.

(** C6 does not hold.  On an empty backend the read of an id that was never
    recorded answers ["Pending"], and so does, after add(1, 2) has been
    submitted and before any worker has taken it, the read of the id that
    the submission returned: the two responses have the same status and the
    same result. *)
Lemma unknown_task_reads_pending :
  Routes.get_task_status ∅ "never-submitted"
    = ret {| Schemas.st_task_id := "never-submitted"; Schemas.st_status := "Pending";
             Schemas.st_result := VNone |} /\
  (let submitted := Routes.add_numbers some_queue
                      {| Schemas.add_x := 1; Schemas.add_y := 2 |} init in
   Routes.get_task_status (backend (snd submitted)) (Schemas.task_id (fst submitted))
     = ret {| Schemas.st_task_id := Schemas.task_id (fst submitted);
              Schemas.st_status := "Pending"; Schemas.st_result := VNone |}) /\
  ~ unknown_differs_from_pending.
Proof.
  split; [reflexivity|]. split; [reflexivity|].
  intros Hclaim. apply (Hclaim ∅ "never-submitted"); reflexivity.
Qed.

(** C6, amended.  For a task id the backend does not hold, the status read
    returns the status ["Pending"] with no result, and this is the response
    it returns for the same id whenever the backend holds it in a state that
    is not ready (PENDING, RECEIVED, STARTED, RETRY, ...): there is no
    NotFound. *)
Theorem unknown_task_indistinguishable_from_pending
    (b : gmap string TaskMeta) (task_id : string) :
  b !! task_id = None ->
  Routes.get_task_status b task_id
    = ret {| Schemas.st_task_id := task_id; Schemas.st_status := "Pending";
             Schemas.st_result := VNone |} /\
  forall meta, READY_STATES (status meta) = false ->
    Routes.get_task_status (<[task_id := meta]> b) task_id
    = Routes.get_task_status b task_id.
Proof.
  intros Hnone.
  assert (Hunknown : Routes.get_task_status b task_id
            = ret {| Schemas.st_task_id := task_id; Schemas.st_status := "Pending";
                     Schemas.st_result := VNone |}).
  { apply status_not_ready. unfold state_of, get_task_meta. by rewrite Hnone. }
  split; [exact Hunknown|].
  intros meta Hmeta. rewrite Hunknown.
  apply status_not_ready. unfold state_of, get_task_meta.
  by rewrite lookup_insert_eq.
Qed.

(** The statement at the empty backend. *)
Lemma unknown_task_indistinguishable_from_pending_witness :
  Routes.get_task_status ∅ "never-submitted"
    = ret {| Schemas.st_task_id := "never-submitted"; Schemas.st_status := "Pending";
             Schemas.st_result := VNone |} /\
  forall meta, READY_STATES (status meta) = false ->
    Routes.get_task_status (<["never-submitted" := meta]> ∅) "never-submitted"
    = Routes.get_task_status ∅ "never-submitted".
Proof.
  apply unknown_task_indistinguishable_from_pending.
  reflexivity.
Defined.

(** C9. Whatever the backend holds and whatever the id, a response of the
    status endpoint carries the status ["Completed"] or ["Pending"], so
    never ["Started"], ["Retrying"] or ["Failed"]. *)
Theorem status_is_completed_or_pending
    (b : gmap string TaskMeta) (task_id : string) (response : Schemas.TaskStatusResponse) :
  Routes.get_task_status b task_id = ret response ->
  (Schemas.st_status response = "Completed" \/ Schemas.st_status response = "Pending") /\
  Schemas.st_status response <> "Started" /\
  Schemas.st_status response <> "Retrying" /\
  Schemas.st_status response <> "Failed".
Proof.
  unfold Routes.get_task_status. intros H.
  assert (Hst : Schemas.st_status response = "Completed"
                \/ Schemas.st_status response = "Pending").
  { destruct (ready b task_id).
    - destruct (get_of_meta (get_task_meta b task_id)); simplify_eq/=. by left.
    - simplify_eq/=. by right. }
  split; [exact Hst|].
  destruct Hst as [-> | ->]; repeat split; discriminate.
Qed.

(** The statement at a backend that holds one task, in SUCCESS with 40. *)
Lemma status_is_completed_or_pending_witness :
  let response := {| Schemas.st_task_id := "task-0"; Schemas.st_status := "Completed";
                     Schemas.st_result := VInt 40 |} in
  (Schemas.st_status response = "Completed" \/ Schemas.st_status response = "Pending") /\
  Schemas.st_status response <> "Started" /\
  Schemas.st_status response <> "Retrying" /\
  Schemas.st_status response <> "Failed".
Proof.
  apply (status_is_completed_or_pending
           {[ "task-0" := {| status := SUCCESS; result := ret (VInt 40) |} ]} "task-0").
  reflexivity.
Defined.

(** ** Waiting for a result *)

Lemma wait_get_never_ready timeline task_id :
  never_ready timeline task_id ->
  forall fuel k, wait_get timeline task_id fuel k = None.
Proof.
  intros Hnever fuel. induction fuel as [|fuel IH]; intros k; [done|].
  simpl. unfold get_now. by rewrite Hnever.
Qed.

(** As soon as a look finds the task ready, [get()] returns what that look
    finds, given enough looks. *)
Lemma wait_get_returns timeline task_id k :
  ready (timeline k) task_id = true ->
  (forall j, (j < k)%nat -> ready (timeline j) task_id = false) ->
  forall fuel, (k < fuel)%nat ->
    wait_get timeline task_id fuel 0
    = Some (get_of_meta (get_task_meta (timeline k) task_id), S k).
Proof.
  intros Hready Hbefore fuel Hfuel.
  assert (Hfrom : forall n i, (i <= k)%nat -> (k < i + n)%nat ->
            wait_get timeline task_id n i
            = Some (get_of_meta (get_task_meta (timeline k) task_id), S k)).
  { induction n as [|n IH]; intros i Hi Hn; [lia|].
    simpl. unfold get_now.
    destruct (decide (i = k)) as [->|Hne].
    - by rewrite Hready.
    - rewrite Hbefore by lia. apply IH; lia. }
  apply Hfrom; lia.
Qed.

Lemma attempts_bounded server task_id remaining :
  forall k slept,
    (Script.requests_made (Script.attempts server task_id remaining k slept)
     <= k + remaining)%nat.
Proof.
  induction remaining as [|remaining IH]; intros k slept; simpl; [lia|].
  destruct (server k) as [b|]; simpl; [|lia].
  destruct (Routes.get_task_status b task_id) as [data|e]; simpl; [|lia].
  destruct (String.eqb (Schemas.st_status data) "Completed"); simpl; [lia|].
  specialize (IH (S k) (slept + 2)). lia.
Qed.

Lemma attempts_pending server task_id remaining :
  always_pending server task_id ->
  forall k slept,
    Script.attempts server task_id remaining k slept
    = {| Script.returned := None;
         Script.requests_made := (k + remaining)%nat;
         Script.seconds_slept := slept + 2 * Z.of_nat remaining |}.
Proof.
  intros Hpending.
  induction remaining as [|remaining IH]; intros k slept; simpl.
  - f_equal; lia.
  - destruct (Hpending k) as (b & -> & Hb).
    unfold Routes.get_task_status. rewrite Hb. simpl.
    rewrite IH. f_equal; lia.
Qed.

(** C7 does not hold for the waits of the API.  On a backend that never
    holds a result, no number of looks is enough for [get()] to return, nor
    for [run_rag_pipeline], which waits with it, to return. *)
Lemma api_wait_is_unbounded :
  ~ (exists fuel, is_Some (wait_get (fun _ => ∅) "task-0" fuel 0)) /\
  ~ (exists fuel,
       is_Some (RagRoutes.run_rag_pipeline some_queue (fun _ => ∅) fuel
                  some_pipeline_request init)) /\
  ~ get_returns.
Proof.
  assert (Hnever : never_ready (fun _ => ∅) "task-0") by (intros k; reflexivity).
  assert (Hget : ~ (exists fuel, is_Some (wait_get (fun _ => ∅) "task-0" fuel 0))).
  { intros [fuel [r Hr]]. by rewrite wait_get_never_ready in Hr. }
  split; [exact Hget|]. split.
  - intros [fuel [r Hr]]. unfold RagRoutes.run_rag_pipeline in Hr. simpl in Hr.
    change (uuid 0) with "task-0" in Hr.
    by rewrite wait_get_never_ready in Hr.
  - intros Hclaim. apply Hget. apply Hclaim.
Qed.

(** C7, amended.  The polling loop of the script, [check_task_status], makes
    at most [max_attempts] requests, whatever the answers; when every
    request is answered and finds the task not ready, it makes exactly
    [max_attempts] requests, sleeps two seconds after each, and returns
    [None].  The wait of the API is not bounded: when the PDF task is never
    ready, [run_rag_pipeline] has not returned after any number of looks at
    the backend. *)
Theorem script_polling_is_bounded_and_api_wait_is_not
    (server : nat -> option (gmap string TaskMeta)) (task_id : string)
    (max_attempts : Z) (q : string -> string)
    (timeline : nat -> gmap string TaskMeta)
    (request : Schemas.RAGPipelineRequest) (st : State) :
  always_pending server task_id ->
  never_ready timeline (uuid (uuid_seed st)) ->
  (forall server' task_id',
     (Script.requests_made (Script.check_task_status server' task_id' max_attempts)
      <= Z.to_nat max_attempts)%nat) /\
  Script.check_task_status server task_id max_attempts
    = {| Script.returned := None;
         Script.requests_made := Z.to_nat max_attempts;
         Script.seconds_slept := 2 * Z.of_nat (Z.to_nat max_attempts) |} /\
  forall fuel, RagRoutes.run_rag_pipeline q timeline fuel request st = None.
Proof.
  intros Hpending Hnever. split; [|split].
  - intros server' task_id'. unfold Script.check_task_status.
    apply (attempts_bounded server' task_id' (Z.to_nat max_attempts) 0%nat 0).
  - unfold Script.check_task_status. by rewrite attempts_pending.
  - intros fuel. unfold RagRoutes.run_rag_pipeline, apply_async, freeze, fresh_id.
    simpl. by rewrite wait_get_never_ready.
Qed.

(** The statement at ten attempts against an API whose backend stays empty. *)
Lemma script_polling_is_bounded_and_api_wait_is_not_witness :
  (forall server' task_id',
     (Script.requests_made (Script.check_task_status server' task_id' 10)
      <= Z.to_nat 10)%nat) /\
  Script.check_task_status (fun _ => Some ∅) "task-0" 10
    = {| Script.returned := None;
         Script.requests_made := Z.to_nat 10;
         Script.seconds_slept := 2 * Z.of_nat (Z.to_nat 10) |} /\
  forall fuel,
    RagRoutes.run_rag_pipeline some_queue (fun _ => ∅) fuel some_pipeline_request init
    = None.
Proof.
  apply (script_polling_is_bounded_and_api_wait_is_not (fun _ => Some ∅) "task-0" 10
           some_queue (fun _ => ∅) some_pipeline_request init).
  - intros k. exists ∅. split; reflexivity.
  - intros k. reflexivity.
Defined.

(** ** Runs under the time limit *)

Lemma nsteps_subrel {A} (R1 R2 : relation A) n x y :
  (forall a b, R1 a b -> R2 a b) -> nsteps R1 n x y -> nsteps R2 n x y.
Proof.
  intros Hsub Hn. induction Hn as [|n a b c Hab _ IH]; [constructor|].
  econstructor; [by apply Hsub|done].
Qed.

Section RunsWithin.

Variable registry : gmap string Task.
Variable time_limit : Z.
Variable duration : Message -> Z.

(** While every body stays within the limit the worker under the time
    limit makes the steps of the worker. *)
Lemma step_within_limit st st' :
  (forall m, duration m <= time_limit) ->
  step_within registry time_limit duration st st' -> step registry st st'.
Proof.
  intros Hwithin [s i m Hm]. unfold deliver_within.
  rewrite (proj2 (Z.ltb_ge _ _) (Hwithin m)). by constructor.
Qed.

Lemma step_of_within_limit st st' :
  (forall m, duration m <= time_limit) ->
  step registry st st' -> step_within registry time_limit duration st st'.
Proof.
  intros Hwithin [s i m Hm].
  replace (deliver registry i m s)
    with (deliver_within registry time_limit (duration m) i m s).
  - by constructor.
  - unfold deliver_within. by rewrite (proj2 (Z.ltb_ge _ _) (Hwithin m)).
Qed.

Lemma settles_within_limit n st (P : State -> Prop) :
  (forall m, duration m <= time_limit) ->
  settles registry n st P ->
  settles_within registry time_limit duration n st P.
Proof.
  intros Hwithin (Hbound & (fin & Hr & Hq) & Hfin). split; [|split].
  - intros k st' Hk. apply (Hbound k st').
    eapply nsteps_subrel; [|exact Hk]. intros s1 s2. by apply step_within_limit.
  - exists fin. split; [|done].
    eapply rtc_subrel; [|exact Hr]. intros s1 s2. by apply step_of_within_limit.
  - intros st' Hr' Hq'. apply Hfin; [|done].
    eapply rtc_subrel; [|exact Hr']. intros s1 s2. by apply step_within_limit.
Qed.

(** A single message whose body runs past the limit: the one delivery ends
    the run, with what [on_timeout] stores. *)
Lemma settles_past_limit st m (P : State -> Prop) :
  time_limit < duration m ->
  broker st = [m] ->
  broker (on_timeout time_limit m (set_broker [] st)) = [] ->
  P (on_timeout time_limit m (set_broker [] st)) ->
  settles_within registry time_limit duration 1 st P.
Proof.
  intros Hpast Hb Hq HP.
  assert (Hstep : forall st', step_within registry time_limit duration st st' ->
                              st' = on_timeout time_limit m (set_broker [] st)).
  { intros st' Hs. destruct Hs as [s i m' Hm']. rewrite Hb in Hm'.
    destruct i as [|i]; [|done]. injection Hm' as <-.
    unfold deliver_within. rewrite (proj2 (Z.ltb_lt _ _) Hpast). by rewrite Hb. }
  assert (Hstuck : forall st', ~ step_within registry time_limit duration
                                   (on_timeout time_limit m (set_broker [] st)) st').
  { intros st' Hs. destruct Hs as [s i m' Hm']. by rewrite Hq in Hm'. }
  split; [|split].
  - intros k st' Hk. destruct Hk as [|k s0 s1 s2 Hs Hk]; [lia|].
    apply Hstep in Hs. subst s1.
    destruct Hk as [|k s1 s2 s3 Hs' _]; [lia|]. by apply Hstuck in Hs'.
  - exists (on_timeout time_limit m (set_broker [] st)). split; [|done].
    apply rtc_once.
    replace (on_timeout time_limit m (set_broker [] st))
      with (deliver_within registry time_limit (duration m) 0 m st).
    + constructor. by rewrite Hb.
    + unfold deliver_within. rewrite (proj2 (Z.ltb_lt _ _) Hpast). by rewrite Hb.
  - intros st' Hr Hq'. destruct Hr as [|s0 s1 s2 Hs Hr].
    + by rewrite Hb in Hq'.
    + apply Hstep in Hs. subst s1.
      destruct Hr as [|s1 s2 s3 Hs' _]; [done|]. by apply Hstuck in Hs'.
Qed.

End RunsWithin.

(** The one delivery of a single message past the limit, computed. *)
Ltac past_limit Hpast :=
  lazymatch goal with
  | |- settles_within ?reg ?limit ?dur 1 ?st ?P =>
      let b := eval vm_compute in (broker st) in
      lazymatch b with
      | [?m] =>
          apply (settles_past_limit reg limit dur st m P);
          [ apply Hpast
          | vm_cast_no_check (eq_refl b)
          | vm_compute; reflexivity
          | vm_compute; split; [reflexivity|split; [reflexivity|eexists; reflexivity]] ]
      end
  end.

(** ** The RAG tasks *)

Section RagTasks.

Variable settings : Rag.Settings.
Variable lib : Rag.Libraries.

Ltac reported :=
  eexists; split; [reflexivity|]; eexists; split; [reflexivity|];
  split; [reflexivity|]; repeat first [apply Forall_cons_2 | apply Forall_nil_2 | reflexivity].

Lemma load_pdf_task_returns pdf_path :
  exists v, Rag.load_pdf_task lib pdf_path = ret v /\
    reports (Rag.load_pdf lib pdf_path) "Error loading PDF: "
      (fun documents => [("documents", documents)]) v.
Proof.
  unfold Rag.load_pdf_task, Rag.try_except, Rag.load_pdf, reports.
  destruct (Rag.pdf_loader lib pdf_path) as [docs|e]; simpl; reported.
Qed.

(** What [split_documents] returns is a list. *)
Lemma split_documents_list documents chunk_size chunk_overlap chunks :
  Rag.split_documents settings lib documents chunk_size chunk_overlap = ret chunks ->
  exists l, chunks = VList l.
Proof.
  unfold Rag.split_documents. intros H.
  destruct (Rag.to_documents lib documents) as [objs|e]; [|discriminate H].
  simpl in H.
  destruct (Rag.text_splitter lib _ _ objs) as [cs|e]; [|discriminate H].
  simpl in H. injection H as <-. by eexists.
Qed.

Lemma split_documents_task_returns documents chunk_size chunk_overlap :
  exists v, Rag.split_documents_task settings lib documents chunk_size chunk_overlap
            = ret v /\
    reports (Rag.split_documents settings lib documents chunk_size chunk_overlap)
      "Error splitting documents: " (fun chunks => [("chunks", chunks)]) v.
Proof.
  unfold Rag.split_documents_task, Rag.try_except, reports.
  destruct (Rag.split_documents settings lib documents chunk_size chunk_overlap)
    as [chunks|e] eqn:Hres; simpl.
  - apply split_documents_list in Hres as [l ->]. simpl. reported.
  - reported.
Qed.

(** The dict [create_vectorstore] returns has no ["status"]. *)
Lemma create_vectorstore_keys chunks persist_directory result :
  Rag.create_vectorstore lib chunks persist_directory = ret result ->
  exists name id n,
    result = VDict [("collection_name", name); ("collection_id", id);
                    ("chunk_count", VInt n)].
Proof.
  unfold Rag.create_vectorstore. intros H.
  destruct (Rag.to_documents lib chunks) as [objs|e]; [|discriminate H].
  simpl in H.
  destruct (Rag.chroma_from_documents lib objs persist_directory) as [db|e];
    [|discriminate H].
  simpl in H.
  destruct (Py.len chunks) as [n|e]; [|discriminate H].
  simpl in H. injection H as <-. by exists (fst db), (snd db), n.
Qed.

Lemma create_vectorstore_task_returns chunks persist_directory :
  exists v, Rag.create_vectorstore_task lib chunks persist_directory = ret v /\
    reports (Rag.create_vectorstore lib chunks persist_directory)
      "Error creating vectorstore: " entries v.
Proof.
  unfold Rag.create_vectorstore_task, Rag.try_except, reports.
  destruct (Rag.create_vectorstore lib chunks persist_directory) as [result|e] eqn:Hres;
    simpl.
  - apply create_vectorstore_keys in Hres as (name & id & n & ->). simpl. reported.
  - reported.
Qed.

(** The dict [query] returns has no ["status"] either. *)
Lemma query_keys question persist_directory top_k result :
  Rag.query settings lib question persist_directory top_k = ret result ->
  exists answer chunks sources n,
    result = VDict [("answer", answer); ("retrieved_chunks", chunks);
                    ("sources", sources); ("context_used", n)].
Proof.
  unfold Rag.query. intros H.
  destruct (Rag.load_vectorstore lib persist_directory) as [db|e]; [|discriminate H].
  simpl in H.
  destruct (Rag.collection_count lib db) as [n|e]; [|discriminate H]. simpl in H.
  destruct (n =? 0); [discriminate H|].
  destruct (Rag.get_relevant_documents lib db _ question) as [docs|e];
    [|discriminate H].
  simpl in H. destruct docs as [|doc docs]; [discriminate H|].
  destruct (Rag.invoke_chain lib db _ question) as [answer|e]; [|discriminate H].
  simpl in H.
  destruct (Rag.sources_of lib (doc :: docs)) as [sources|e]; [|discriminate H].
  simpl in H. injection H as <-. by eexists _, _, _, _.
Qed.

Lemma query_vectorstore_task_returns question persist_directory top_k :
  exists v, Rag.query_vectorstore_task settings lib question persist_directory top_k
            = ret v /\
    reports (Rag.query settings lib question persist_directory top_k)
      "Error querying vectorstore: " entries v.
Proof.
  unfold Rag.query_vectorstore_task, Rag.try_except, reports.
  destruct (Rag.query settings lib question persist_directory top_k)
    as [result|e] eqn:Hres; simpl.
  - apply query_keys in Hres as (answer & chunks & sources & n & ->). simpl. reported.
  - reported.
Qed.


End RagTasks.

Section RagRuns.

Variable load_body : pyval -> Py.result pyval.
Variables split_body query_body : pyval -> pyval -> pyval -> Py.result pyval.
Variable create_body : pyval -> pyval -> Py.result pyval.

Let registry := Rag.registry_of load_body split_body create_body query_body.

Lemma load_pdf_run queue pdf_path v :
  load_body pdf_path = ret v ->
  settles registry 1 (snd (apply_async "tasks.load_pdf" [pdf_path] [] queue init))
    (completed_with "tasks.load_pdf" v).
Proof.
  intros Hbody. unfold ret in Hbody. subst registry.
  run_with ltac:(fun H => rewrite ?Hbody in H); finish.
Qed.

Lemma split_documents_run queue documents chunk_size chunk_overlap v :
  split_body documents chunk_size chunk_overlap = ret v ->
  settles registry 1
    (snd (apply_async "tasks.split_documents" [documents; chunk_size; chunk_overlap] []
            queue init))
    (completed_with "tasks.split_documents" v).
Proof.
  intros Hbody. unfold ret in Hbody. subst registry.
  run_with ltac:(fun H => rewrite ?Hbody in H); finish.
Qed.

Lemma create_vectorstore_run queue chunks persist_directory v :
  create_body chunks persist_directory = ret v ->
  settles registry 1
    (snd (apply_async "tasks.create_vectorstore" [chunks; persist_directory] [] queue init))
    (completed_with "tasks.create_vectorstore" v).
Proof.
  intros Hbody. unfold ret in Hbody. subst registry.
  run_with ltac:(fun H => rewrite ?Hbody in H); finish.
Qed.

Lemma query_vectorstore_run queue question persist_directory top_k v :
  query_body question persist_directory top_k = ret v ->
  settles registry 1
    (snd (apply_async "tasks.query_vectorstore" []
            [("question", question); ("persist_directory", persist_directory);
             ("top_k", top_k)] queue init))
    (completed_with "tasks.query_vectorstore" v).
Proof.
  intros Hbody. unfold ret in Hbody. subst registry.
  run_with ltac:(fun H => rewrite ?Hbody in H); finish.
Qed.

(** Under the time limit of the application. *)
Lemma load_pdf_handled queue pdf_path v :
  load_body pdf_path = ret v ->
  handled_within_limit registry "tasks.load_pdf" (load_pdf_sent queue pdf_path) v.
Proof.
  intros Hbody duration. unfold load_pdf_sent. split.
  - intros Hwithin. apply settles_within_limit; [done|]. by apply load_pdf_run.
  - intros Hpast. past_limit Hpast.
Qed.

Lemma split_documents_handled queue documents chunk_size chunk_overlap v :
  split_body documents chunk_size chunk_overlap = ret v ->
  handled_within_limit registry "tasks.split_documents"
    (split_documents_sent queue documents chunk_size chunk_overlap) v.
Proof.
  intros Hbody duration. unfold split_documents_sent. split.
  - intros Hwithin. apply settles_within_limit; [done|]. by apply split_documents_run.
  - intros Hpast. past_limit Hpast.
Qed.

Lemma create_vectorstore_handled queue chunks persist_directory v :
  create_body chunks persist_directory = ret v ->
  handled_within_limit registry "tasks.create_vectorstore"
    (create_vectorstore_sent queue chunks persist_directory) v.
Proof.
  intros Hbody duration. unfold create_vectorstore_sent. split.
  - intros Hwithin. apply settles_within_limit; [done|]. by apply create_vectorstore_run.
  - intros Hpast. past_limit Hpast.
Qed.

Lemma query_vectorstore_handled queue question persist_directory top_k v :
  query_body question persist_directory top_k = ret v ->
  handled_within_limit registry "tasks.query_vectorstore"
    (query_vectorstore_sent queue question persist_directory top_k) v.
Proof.
  intros Hbody duration. unfold query_vectorstore_sent. split.
  - intros Hwithin. apply settles_within_limit; [done|]. by apply query_vectorstore_run.
  - intros Hpast. past_limit Hpast.
Qed.

End RagRuns.

(** C10, as stated, does not hold.  The application sets a hard time limit
    of 3600 seconds for every task.  A load of a PDF that takes 3601
    seconds is ended by the worker: in every run the task is in FAILURE,
    with TimeLimitExceeded, and not in SUCCESS. *)
Lemma rag_task_fails_past_the_time_limit :
  settles_within (Rag.registry Rag.default_settings some_libraries)
    CeleryApp.task_time_limit (fun _ => 3601) 1
    (load_pdf_sent "rag" (VStr "paper.pdf"))
    (fun fin => state_of (backend fin) "task-0" = FAILURE /\
                raises TimeLimitExceeded (result (get_task_meta (backend fin) "task-0"))) /\
  ~ rag_tasks_never_fail.
Proof.
  assert (Hrun : settles_within (Rag.registry Rag.default_settings some_libraries)
            CeleryApp.task_time_limit (fun _ => 3601) 1
            (load_pdf_sent "rag" (VStr "paper.pdf"))
            (fun fin => state_of (backend fin) "task-0" = FAILURE /\
               raises TimeLimitExceeded (result (get_task_meta (backend fin) "task-0")))).
  { lazymatch goal with
    | |- settles_within ?reg ?limit ?dur 1 ?st ?P =>
        let b := eval vm_compute in (broker st) in
        lazymatch b with
        | [?m] =>
            apply (settles_past_limit reg limit dur st m P);
            [ reflexivity
            | vm_cast_no_check (eq_refl b)
            | vm_compute; reflexivity
            | vm_compute; split; [reflexivity|eexists; reflexivity] ]
        end
    end. }
  split; [exact Hrun|].
  intros Hclaim.
  specialize (Hclaim Rag.default_settings some_libraries "rag" (fun _ => 3601)
                (load_pdf_sent "rag" (VStr "paper.pdf"))).
  destruct Hclaim as (_ & _ & Hsuccess); [left; by eexists|].
  destruct Hrun as (_ & (fin & Hr & Hq) & Hfailure).
  specialize (Hsuccess fin Hr Hq). destruct (Hfailure fin Hr Hq) as [Hstate _].
  congruence.
Qed.

(** C10, amended.  Whatever the libraries do and whatever the arguments,
    each of the four RAG tasks returns: an exception of its service is
    caught and returned in a dict whose ["status"] is ["error"] and whose
    ["message"] holds the text of the exception; a result of the service is
    returned in a dict whose ["status"] is ["success"].  So each of them,
    sent as the routes send it (the query by keyword arguments), is handled
    in one delivery and is never sent again; when its body stays within the
    time limit of 3600 seconds its result is in SUCCESS with that dict, and
    when its body runs past the limit its result is in FAILURE with
    TimeLimitExceeded. *)
Theorem rag_tasks_never_raise (settings : Rag.Settings) (lib : Rag.Libraries)
    (queue : string) :
  (forall pdf_path, exists v,
     Rag.load_pdf_task lib pdf_path = ret v /\
     reports (Rag.load_pdf lib pdf_path) "Error loading PDF: "
       (fun documents => [("documents", documents)]) v /\
     handled_within_limit (Rag.registry settings lib) "tasks.load_pdf"
       (load_pdf_sent queue pdf_path) v) /\
  (forall documents chunk_size chunk_overlap, exists v,
     Rag.split_documents_task settings lib documents chunk_size chunk_overlap = ret v /\
     reports (Rag.split_documents settings lib documents chunk_size chunk_overlap)
       "Error splitting documents: " (fun chunks => [("chunks", chunks)]) v /\
     handled_within_limit (Rag.registry settings lib) "tasks.split_documents"
       (split_documents_sent queue documents chunk_size chunk_overlap) v) /\
  (forall chunks persist_directory, exists v,
     Rag.create_vectorstore_task lib chunks persist_directory = ret v /\
     reports (Rag.create_vectorstore lib chunks persist_directory)
       "Error creating vectorstore: " entries v /\
     handled_within_limit (Rag.registry settings lib) "tasks.create_vectorstore"
       (create_vectorstore_sent queue chunks persist_directory) v) /\
  (forall question persist_directory top_k, exists v,
     Rag.query_vectorstore_task settings lib question persist_directory top_k = ret v /\
     reports (Rag.query settings lib question persist_directory top_k)
       "Error querying vectorstore: " entries v /\
     handled_within_limit (Rag.registry settings lib) "tasks.query_vectorstore"
       (query_vectorstore_sent queue question persist_directory top_k) v).
Proof.
  unfold Rag.registry. split; [|split; [|split]].
  - intros pdf_path.
    destruct (load_pdf_task_returns lib pdf_path) as (v & Hv & Hreports).
    exists v. split; [done|]. split; [done|]. by apply load_pdf_handled.
  - intros documents chunk_size chunk_overlap.
    destruct (split_documents_task_returns settings lib documents chunk_size chunk_overlap)
      as (v & Hv & Hreports).
    exists v. split; [done|]. split; [done|]. by apply split_documents_handled.
  - intros chunks persist_directory.
    destruct (create_vectorstore_task_returns lib chunks persist_directory)
      as (v & Hv & Hreports).
    exists v. split; [done|]. split; [done|]. by apply create_vectorstore_handled.
  - intros question persist_directory top_k.
    destruct (query_vectorstore_task_returns settings lib question persist_directory top_k)
      as (v & Hv & Hreports).
    exists v. split; [done|]. split; [done|]. by apply query_vectorstore_handled.
Qed.

(** The statement for a file the loader of [some_libraries] does not find,
    with a body that takes a second and with one that takes 3601. *)
Lemma rag_tasks_never_raise_witness :
  exists v,
    Rag.load_pdf_task some_libraries (VStr "missing.pdf") = ret v /\
    Py.dict_get (entries v) "status" = Some (VStr "error") /\
    Py.dict_get (entries v) "message"
      = Some (VStr "Error loading PDF: File path missing.pdf is not a valid file or url") /\
    settles_within (Rag.registry Rag.default_settings some_libraries)
      CeleryApp.task_time_limit (fun _ => 1) 1
      (load_pdf_sent "rag" (VStr "missing.pdf")) (completed_with "tasks.load_pdf" v) /\
    settles_within (Rag.registry Rag.default_settings some_libraries)
      CeleryApp.task_time_limit (fun _ => 3601) 1
      (load_pdf_sent "rag" (VStr "missing.pdf")) (timed_out "tasks.load_pdf").
Proof.
  destruct (proj1 (rag_tasks_never_raise Rag.default_settings some_libraries "rag")
              (VStr "missing.pdf")) as (v & Hv & Hreports & Hhandled).
  exists v. split; [exact Hv|].
  assert (Hd : v = VDict [("status", VStr "error");
                          ("message",
                           VStr "Error loading PDF: File path missing.pdf is not a valid file or url");
                          ("documents", VList []); ("doc_count", VInt 0)]).
  { vm_compute in Hv. injection Hv as <-. reflexivity. }
  split; [rewrite Hd; reflexivity|]. split; [rewrite Hd; reflexivity|].
  split.
  - apply (proj1 (Hhandled (fun _ => 1))). intros m. vm_compute. discriminate.
  - apply (proj2 (Hhandled (fun _ => 3601))). intros m. reflexivity.
Defined.

(** * Further properties of the code *)

(** ** Text *)

Lemma split_no_sep sep s :
  Forall (fun p => sep ∉ Text.chars p) (Text.split sep s).
Proof.
  induction s as [|c s IH]; simpl.
  - apply Forall_cons_2; [apply not_elem_of_nil|apply Forall_nil_2].
  - destruct (Ascii.eqb c sep) eqn:Hc.
    + apply Forall_cons_2; [apply not_elem_of_nil|done].
    + apply Ascii.eqb_neq in Hc.
      destruct (Text.split sep s) as [|p ps].
      * apply Forall_cons_2; [|apply Forall_nil_2].
        apply not_elem_of_cons. split; [congruence|].
        apply not_elem_of_nil.
      * apply Forall_cons in IH as [Hp Hps]. apply Forall_cons_2; [|done].
        apply not_elem_of_cons. split; [congruence|done].
Qed.

Lemma split_no_sep_id sep s :
  sep ∉ Text.chars s -> Text.split sep s = [s].
Proof.
  induction s as [|c s IH]; simpl; [done|]. intros Hs.
  apply not_elem_of_cons in Hs as [Hne Hs].
  destruct (Ascii.eqb c sep) eqn:Hc.
  - apply Ascii.eqb_eq in Hc. congruence.
  - by rewrite IH.
Qed.

Lemma split_app sep x s :
  sep ∉ Text.chars x ->
  Text.split sep (String.append x (String sep s)) = x :: Text.split sep s.
Proof.
  induction x as [|c x IH]; simpl.
  - intros _. by rewrite Ascii.eqb_refl.
  - intros Hx. apply not_elem_of_cons in Hx as [Hne Hx].
    destruct (Ascii.eqb c sep) eqn:Hc.
    + apply Ascii.eqb_eq in Hc. congruence.
    + by rewrite IH.
Qed.

(** Splitting what was joined gives the pieces back, when there is a piece
    and no piece holds the separator. *)
Lemma split_join sep l :
  l <> [] ->
  Forall (fun p => sep ∉ Text.chars p) l ->
  Text.split sep (Text.join (String sep EmptyString) l) = l.
Proof.
  induction l as [|x l IH]; [done|]. intros _ Hall.
  apply Forall_cons in Hall as [Hx Hl].
  destruct l as [|y l].
  - simpl. by apply split_no_sep_id.
  - change (Text.join (String sep EmptyString) (x :: y :: l))
      with (String.append x (String sep (Text.join (String sep EmptyString) (y :: l)))).
    rewrite split_app; [|done]. by rewrite IH.
Qed.

Lemma lstrip_no_leading s : no_leading (Text.lstrip s).
Proof.
  induction s as [|c s IH]; simpl; [done|].
  destruct (Text.isspace c) eqn:Hc; [done|]. by simpl.
Qed.

Lemma lstrip_id s : no_leading s -> Text.lstrip s = s.
Proof. destruct s as [|c s]; simpl; [done|]. by intros ->. Qed.

Lemma rstrip_no_leading s : no_leading s -> no_leading (Text.rstrip s).
Proof.
  destruct s as [|c s]; simpl; [done|]. intros Hc.
  destruct (Text.rstrip s); simpl; [by rewrite Hc|done].
Qed.

Lemma rstrip_idem s : Text.rstrip (Text.rstrip s) = Text.rstrip s.
Proof.
  induction s as [|c s IH]; simpl; [done|].
  destruct (Text.rstrip s) as [|d r] eqn:Hr.
  - destruct (Text.isspace c) eqn:Hc; simpl; [done|]. by rewrite Hc.
  - change (Text.rstrip (String c (String d r)))
      with (match Text.rstrip (String d r) with
            | EmptyString => if Text.isspace c then EmptyString else String c EmptyString
            | r' => String c r'
            end).
    by rewrite IH.
Qed.

(** A stripped string is left as it is by [strip]. *)
Lemma strip_idem s : Text.strip (Text.strip s) = Text.strip s.
Proof.
  unfold Text.strip.
  rewrite (lstrip_id (Text.rstrip (Text.lstrip s))).
  - apply rstrip_idem.
  - apply rstrip_no_leading, lstrip_no_leading.
Qed.

Lemma rstrip_id s :
  Forall (fun c => Text.isspace c = false) (Text.chars s) -> Text.rstrip s = s.
Proof.
  induction s as [|c s IH]; simpl; [done|]. unfold Text.chars. simpl. intros Hall.
  apply Forall_cons in Hall as [Hc Hs]. rewrite IH; [|done].
  destruct s; [by rewrite Hc|done].
Qed.

Lemma strip_id s :
  Forall (fun c => Text.isspace c = false) (Text.chars s) -> Text.strip s = s.
Proof.
  intros Hall. unfold Text.strip. rewrite lstrip_id.
  - by apply rstrip_id.
  - destruct s as [|c s]; simpl; [done|]. unfold Text.chars in Hall. simpl in Hall.
    by apply Forall_cons in Hall as [Hc _].
Qed.

Lemma lstrip_chars s c : c ∈ Text.chars (Text.lstrip s) -> c ∈ Text.chars s.
Proof.
  induction s as [|d s IH]; simpl; [done|].
  destruct (Text.isspace d); [|done]. intros Hc. by apply list_elem_of_further, IH.
Qed.

Lemma rstrip_chars s c : c ∈ Text.chars (Text.rstrip s) -> c ∈ Text.chars s.
Proof.
  revert c. induction s as [|d s IH]; simpl; [done|]. intros c.
  destruct (Text.rstrip s) as [|e r].
  - destruct (Text.isspace d); [by intros Hc%elem_of_nil|].
    intros Hc. apply elem_of_cons in Hc as [->|Hc].
    + apply list_elem_of_here.
    + by apply elem_of_nil in Hc.
  - intros Hc. apply elem_of_cons in Hc as [->|Hc].
    + apply list_elem_of_here.
    + by apply list_elem_of_further, IH.
Qed.

Lemma strip_chars s c : c ∈ Text.chars (Text.strip s) -> c ∈ Text.chars s.
Proof. intros Hc. by apply lstrip_chars, rstrip_chars. Qed.

Lemma mem_elem_of x l : Text.mem x l = true <-> x ∈ l.
Proof.
  unfold Text.mem. rewrite existsb_exists. split.
  - intros (y & Hy & Heq). apply String.eqb_eq in Heq. subst.
    by apply list_elem_of_In.
  - intros Hx. exists x. split; [by apply list_elem_of_In|apply String.eqb_refl].
Qed.

Lemma nonempty_true s : Text.nonempty s = true <-> s <> EmptyString.
Proof.
  unfold Text.nonempty. rewrite negb_true_iff. apply String.eqb_neq.
Qed.

(** ** API keys *)

(** The configured keys are the stripped pieces that are not blank. *)
Lemma valid_keys_spec api_keys key :
  key ∈ Auth.valid_keys api_keys <->
  key <> EmptyString /\
  exists piece, piece ∈ Text.split "," api_keys /\ Text.strip piece = key.
Proof.
  unfold Auth.valid_keys. rewrite list_elem_of_fmap. split.
  - intros (piece & -> & Hin). apply list_elem_of_In, filter_In in Hin as [Hin Hne].
    apply nonempty_true in Hne. split; [done|].
    exists piece. split; [by apply list_elem_of_In|done].
  - intros (Hne & piece & Hin & <-). exists piece. split; [done|].
    apply list_elem_of_In, filter_In. split; [by apply list_elem_of_In|].
    by apply nonempty_true.
Qed.

Lemma verify_accepts api_keys api_key key :
  Auth.verify_api_key api_keys api_key = inl key <->
  api_key = Some key /\ key ∈ Auth.valid_keys api_keys.
Proof.
  unfold Auth.verify_api_key. destruct api_key as [k|].
  2: { split; [done|]. by intros [? _]. }
  destruct (Text.nonempty k) eqn:Hne; simpl.
  - destruct (Auth.valid_keys api_keys) as [|v vs] eqn:Hv; cbn [length Nat.eqb orb].
    + split; [done|]. intros [_ Hin]. by apply elem_of_nil in Hin.
    + destruct (Text.mem k (v :: vs)) eqn:Hm; cbn [negb].
      * apply mem_elem_of in Hm. split.
        -- intros Heq. injection Heq as <-. by split.
        -- intros [Heq _]. by injection Heq as <-.
      * split; [done|]. intros [Heq Hin]. injection Heq as <-.
        apply mem_elem_of in Hin. congruence.
  - split; [done|]. intros [Heq Hin]. injection Heq as <-.
    apply valid_keys_spec in Hin as [Hk _]. apply nonempty_true in Hk. congruence.
Qed.

(** X1. [verify_api_key] returns the presented key exactly when it is one of
    the comma-separated pieces of the configured [api_keys], white space
    around the piece left aside and blank pieces not counting; it returns
    nothing but the key presented. *)
Theorem verify_api_key_accepts_configured_keys (api_keys : string)
    (api_key : option string) (key : string) :
  Auth.verify_api_key api_keys api_key = inl key <->
  api_key = Some key /\ key <> EmptyString /\
  exists piece, piece ∈ Text.split "," api_keys /\ Text.strip piece = key.
Proof. rewrite verify_accepts, valid_keys_spec. naive_solver. Qed.

Lemma verify_api_key_accepts_keys_spec api_keys key k :
  Auth.verify_api_key api_keys (Some key) = inl k ->
  Text.strip key = key /\ ","%char ∉ Text.chars key.
Proof.
  intros Hv. apply verify_accepts in Hv as [Heq Hin]. injection Heq as ->.
  apply valid_keys_spec in Hin as (_ & piece & Hin & <-). split.
  - apply strip_idem.
  - intros Hc. apply strip_chars in Hc.
    by apply (proj1 (Forall_forall _ _) (split_no_sep "," api_keys) _ Hin).
Qed.

Lemma split_chars sep s :
  Forall (fun p => forall c, c ∈ Text.chars p -> c ∈ Text.chars s) (Text.split sep s).
Proof.
  induction s as [|c s IH]; simpl.
  - apply Forall_cons_2; [done|apply Forall_nil_2].
  - assert (Hmono : Forall (fun p => forall d, d ∈ Text.chars p -> d ∈ Text.chars (String c s))
                      (Text.split sep s)).
    { eapply Forall_impl; [exact IH|]. intros p Hp d Hd.
      unfold Text.chars in *. simpl. apply elem_of_cons. right. by apply Hp. }
    destruct (Ascii.eqb c sep).
    + apply Forall_cons_2; [|done]. intros d Hd. by apply elem_of_nil in Hd.
    + destruct (Text.split sep s) as [|p ps].
      * apply Forall_cons_2; [|apply Forall_nil_2]. intros d Hd.
        unfold Text.chars in *. simpl in *. apply elem_of_cons in Hd as [->|Hd].
        -- apply list_elem_of_here.
        -- by apply elem_of_nil in Hd.
      * apply Forall_cons in Hmono as [Hp Hps]. apply Forall_cons_2; [|done].
        intros d Hd. unfold Text.chars in *. simpl in *.
        apply elem_of_cons in Hd as [->|Hd]; [apply list_elem_of_here|by apply Hp].
Qed.

Lemma lstrip_blank s :
  Forall (fun c => Text.isspace c = true) (Text.chars s) -> Text.lstrip s = EmptyString.
Proof.
  induction s as [|c s IH]; simpl; [done|]. unfold Text.chars. simpl. intros Hall.
  apply Forall_cons in Hall as [-> Hs]. by apply IH.
Qed.

Lemma strip_blank s :
  Forall (fun c => Text.isspace c = true) (Text.chars s) -> Text.strip s = EmptyString.
Proof. intros Hall. unfold Text.strip. by rewrite lstrip_blank. Qed.

(** No key is configured when [api_keys] holds only commas and white
    space. *)
Lemma valid_keys_blank api_keys :
  Forall (fun c => c = ","%char \/ Text.isspace c = true) (Text.chars api_keys) ->
  Auth.valid_keys api_keys = [].
Proof.
  intros Hall. destruct (Auth.valid_keys api_keys) as [|key l] eqn:Hv; [done|].
  assert (Hin : key ∈ Auth.valid_keys api_keys) by (rewrite Hv; apply list_elem_of_here).
  apply valid_keys_spec in Hin as (Hne & piece & Hin & Hstrip).
  exfalso. apply Hne. rewrite <- Hstrip. apply strip_blank.
  apply Forall_forall. intros c Hc.
  pose proof (proj1 (Forall_forall _ _) (split_chars "," api_keys) _ Hin c Hc) as Hs.
  pose proof (proj1 (Forall_forall _ _) (split_no_sep "," api_keys) _ Hin) as Hsep.
  destruct (proj1 (Forall_forall _ _) Hall _ Hs) as [->|Hsp]; [done|done].
Qed.

(** X2. When no key is configured ([api_keys] is empty, as by default, or
    holds only commas and white space), [verify_api_key] accepts no request:
    it raises 401 when no key is presented and 403 for any key. *)
Theorem verify_api_key_rejects_all_without_keys (api_keys : string)
    (api_key : option string) :
  Forall (fun c => c = ","%char \/ Text.isspace c = true) (Text.chars api_keys) ->
  exists e, Auth.verify_api_key api_keys api_key = inr e /\
    Http.status_code e
    = match api_key with
      | None => 401
      | Some key => if String.eqb key EmptyString then 401 else 403
      end.
Proof.
  intros Hall. unfold Auth.verify_api_key. destruct api_key as [key|]; [|by eexists].
  unfold Text.nonempty. rewrite negb_involutive.
  destruct (String.eqb key EmptyString); [by eexists|].
  rewrite (valid_keys_blank _ Hall). by eexists.
Qed.

Lemma verify_api_key_rejects_all_without_keys_witness :
  exists e, Auth.verify_api_key EmptyString (Some "secret") = inr e /\
    Http.status_code e = 403.
Proof.
  apply (verify_api_key_rejects_all_without_keys EmptyString (Some "secret")).
  apply Forall_nil_2.
Defined.

(** X3. A key presented with white space around it, or holding a comma, is
    never accepted, whatever keys are configured: the configured keys are
    stripped pieces between commas, and the presented key is compared as it
    came. *)
Theorem verify_api_key_rejects_padded_keys (api_keys key : string) :
  Text.strip key <> key \/ ","%char ∈ Text.chars key ->
  exists e, Auth.verify_api_key api_keys (Some key) = inr e /\
    (Http.status_code e = 401 \/ Http.status_code e = 403).
Proof.
  intros Hbad.
  destruct (Auth.verify_api_key api_keys (Some key)) as [k|e] eqn:Hv.
  - exfalso. apply verify_api_key_accepts_keys_spec in Hv. tauto.
  - exists e. split; [done|]. unfold Auth.verify_api_key in Hv.
    destruct (negb (Text.nonempty key)); [injection Hv as <-; by left|].
    destruct (_ || _); [injection Hv as <-; by right|done].
Qed.

Lemma verify_api_key_rejects_padded_keys_witness :
  exists e, Auth.verify_api_key "secret" (Some "secret ") = inr e /\
    (Http.status_code e = 401 \/ Http.status_code e = 403).
Proof.
  apply (verify_api_key_rejects_padded_keys "secret" "secret ").
  left. vm_compute. discriminate.
Defined.

(** X4. [optional_api_key] returns a key exactly when [verify_api_key]
    returns it, and [None] exactly when [verify_api_key] raises. *)
Theorem optional_api_key_agrees_with_verify (api_keys : string)
    (api_key : option string) :
  (forall key, Auth.optional_api_key api_keys api_key = Some key <->
               Auth.verify_api_key api_keys api_key = inl key) /\
  (Auth.optional_api_key api_keys api_key = None <->
   exists e, Auth.verify_api_key api_keys api_key = inr e).
Proof.
  unfold Auth.optional_api_key, Auth.verify_api_key.
  destruct api_key as [k|].
  2: { split; [intros key; split; discriminate|]. split; [by eexists|done]. }
  destruct (negb (Text.nonempty k)).
  { split; [intros key; split; discriminate|]. split; [by eexists|done]. }
  destruct (Text.mem k (Auth.valid_keys api_keys)) eqn:Hm.
  - assert (Hlen : Nat.eqb (length (Auth.valid_keys api_keys)) 0 = false).
    { apply mem_elem_of in Hm. destruct (Auth.valid_keys api_keys); [|done].
      by apply elem_of_nil in Hm. }
    rewrite Hlen. cbn [orb negb]. split.
    + intros key. split; intros Heq; injection Heq as <-; done.
    + split; [discriminate|]. intros [e He]. discriminate.
  - rewrite orb_true_r. split.
    + intros key. split; discriminate.
    + split; [by eexists|done].
Qed.

(** ** The key generator *)

(** The characters of the alphabet: none is white space, none is a comma. *)
Lemma alphabet_plain :
  Forall (fun c => Text.isspace c = false /\ c <> ","%char) (Text.chars Keys.alphabet).
Proof.
  apply Forall_forall. intros c Hc.
  assert (Hb : forallb (fun c => negb (Text.isspace c) && negb (Ascii.eqb c ","))
                 (Text.chars Keys.alphabet) = true) by reflexivity.
  rewrite forallb_forall in Hb. apply list_elem_of_In, Hb in Hc.
  apply andb_prop in Hc as [Hs Hn]. apply negb_true_iff in Hs, Hn.
  split; [done|]. by apply Ascii.eqb_neq.
Qed.

Section Generated.

Variable draws : nat -> nat.

Lemma choice_alphabet k : Keys.choice draws k ∈ Text.chars Keys.alphabet.
Proof.
  unfold Keys.choice. apply list_elem_of_In, nth_In.
  apply Nat.mod_upper_bound. by vm_compute.
Qed.

Lemma choices_length n k : String.length (Keys.choices draws n k) = n.
Proof. revert k. induction n as [|n IH]; intros k; simpl; [done|]. by rewrite IH. Qed.

Lemma choices_alphabet n k : over_alphabet (Keys.choices draws n k).
Proof.
  revert k. induction n as [|n IH]; intros k; unfold over_alphabet, Text.chars; simpl.
  - apply Forall_nil_2.
  - apply Forall_cons_2; [apply choice_alphabet|apply IH].
Qed.

End Generated.

(** X5. [generate_api_key(length)] returns a string of exactly [length]
    characters (none when [length] is not positive), each a letter or a
    digit of the alphabet, and makes one draw per character. *)
Theorem generate_api_key_length_and_alphabet (draws : nat -> nat) (length : Z)
    (k : nat) :
  let '(key, k') := Keys.generate_api_key draws length k in
  Z.of_nat (String.length key) = Z.max 0 length /\
  Forall (fun c => c ∈ Text.chars Keys.alphabet) (Text.chars key) /\
  k' = (k + String.length key)%nat.
Proof.
  unfold Keys.generate_api_key. rewrite choices_length. split; [lia|].
  split; [apply choices_alphabet|done].
Qed.

Lemma fill_returns draws fuel count length : forall keys k keys' k',
  Keys.fill draws fuel count length keys k = Some (keys', k') ->
  well_formed length keys ->
  (size keys <= Z.to_nat count)%nat ->
  well_formed length keys' /\ size keys' = Z.to_nat count.
Proof.
  induction fuel as [|fuel IH]; intros keys k keys' k' Hf Hwf Hsize; simpl in Hf.
  - destruct (Z.of_nat (size keys) <? count) eqn:Hlt; [done|].
    injection Hf as <- <-. apply Z.ltb_ge in Hlt. split; [done|lia].
  - destruct (Z.of_nat (size keys) <? count) eqn:Hlt.
    + apply Z.ltb_lt in Hlt. eapply IH; [exact Hf| |].
      * intros key Hin. apply elem_of_union in Hin as [Hin|Hin]; [|by apply Hwf].
        apply elem_of_singleton in Hin as ->.
        split; [apply choices_length|apply choices_alphabet].
      * pose proof (size_union_alt {[Keys.choices draws (Z.to_nat length) k]} keys) as Hu.
        pose proof (subseteq_size (keys ∖ {[Keys.choices draws (Z.to_nat length) k]}) keys
                      (subseteq_difference_l _ _ _ (reflexivity keys))) as Hd.
        rewrite size_singleton in Hu. lia.
    + injection Hf as <- <-. apply Z.ltb_ge in Hlt. split; [done|lia].
Qed.

(** X6. When [generate_multiple_keys(count, length)] returns, it returns
    exactly [count] keys (none when [count] is not positive), no two of them
    equal, each of [length] characters of the alphabet. *)
Theorem generate_multiple_keys_returns_distinct_keys (draws : nat -> nat)
    (fuel : nat) (count length : Z) (k : nat) (keys : list string) (k' : nat) :
  Keys.generate_multiple_keys draws fuel count length k = Some (keys, k') ->
  NoDup keys /\
  Z.of_nat (List.length keys) = Z.max 0 count /\
  Forall (fun key =>
            Z.of_nat (String.length key) = Z.max 0 length /\
            Forall (fun c => c ∈ Text.chars Keys.alphabet) (Text.chars key)) keys.
Proof.
  unfold Keys.generate_multiple_keys.
  destruct (Keys.fill draws fuel count length ∅ k) as [[set k1]|] eqn:Hf; [|done].
  intros Heq. injection Heq as <- <-.
  apply fill_returns in Hf as [Hwf Hsize].
  - split; [apply NoDup_elements|]. split.
    + change (List.length (elements set)) with (size set). lia.
    + apply Forall_forall. intros key Hin. apply elem_of_elements, Hwf in Hin as [Hl Ha].
      split; [lia|done].
  - intros key Hin. by apply elem_of_empty in Hin.
  - rewrite size_empty. lia.
Qed.

Lemma words_length n : Z.of_nat (length (words n)) = 62 ^ Z.of_nat n.
Proof.
  induction n as [|n IH]; [done|].
  cbn [words]. rewrite length_map, length_prod.
  change (length (Text.chars Keys.alphabet)) with 62%nat.
  rewrite Nat2Z.inj_succ, Z.pow_succ_r by lia. lia.
Qed.

Lemma in_words s : over_alphabet s -> s ∈ words (String.length s).
Proof.
  induction s as [|c s IH]; intros Hs; [apply list_elem_of_here|].
  unfold over_alphabet, Text.chars in Hs. simpl in Hs.
  apply Forall_cons in Hs as [Hc Hs].
  cbn [String.length words]. apply list_elem_of_fmap. exists (c, s). split; [done|].
  apply list_elem_of_In, in_prod; apply list_elem_of_In; [done|by apply IH].
Qed.

(** There are no more keys of a given length than strings of that length
    over the 62 characters. *)
Lemma well_formed_size length keys :
  well_formed length keys -> Z.of_nat (size keys) <= 62 ^ Z.of_nat (Z.to_nat length).
Proof.
  intros Hwf. rewrite <- words_length.
  apply inj_le, submseteq_length, NoDup_submseteq; [apply NoDup_elements|].
  intros key Hin. apply elem_of_elements, Hwf in Hin as [Hl Ha].
  rewrite <- Hl. by apply in_words.
Qed.

Lemma fill_starves draws fuel count length : forall keys k,
  62 ^ Z.of_nat (Z.to_nat length) < count ->
  well_formed length keys ->
  Keys.fill draws fuel count length keys k = None.
Proof.
  induction fuel as [|fuel IH]; intros keys k Hcount Hwf; simpl;
    pose proof (well_formed_size _ _ Hwf) as Hsize;
    destruct (Z.of_nat (size keys) <? count) eqn:Hlt;
    try (apply Z.ltb_ge in Hlt; lia); [done|].
  apply IH; [done|].
  intros key Hin. apply elem_of_union in Hin as [Hin|Hin]; [|by apply Hwf].
  apply elem_of_singleton in Hin as ->.
  split; [apply choices_length|apply choices_alphabet].
Qed.

(** X7. [generate_multiple_keys(count, length)] never returns when more
    keys are asked for than there are strings of [length] characters over the
    62 of the alphabet: the set cannot grow to [count], whatever is drawn
    and however long the loop runs.  With [length] 0 this is so from
    [count] 2 on. *)
Theorem generate_multiple_keys_loops_when_keys_run_out (draws : nat -> nat)
    (fuel : nat) (count length : Z) (k : nat) :
  62 ^ Z.max 0 length < count ->
  Keys.generate_multiple_keys draws fuel count length k = None.
Proof.
  intros Hcount. unfold Keys.generate_multiple_keys.
  rewrite fill_starves; [done| |].
  - replace (Z.of_nat (Z.to_nat length)) with (Z.max 0 length) by lia. done.
  - intros key Hin. by apply elem_of_empty in Hin.
Qed.

Lemma generate_multiple_keys_loops_when_keys_run_out_witness :
  Keys.generate_multiple_keys (fun n => n) 1000 2 0 0 = None.
Proof.
  apply (generate_multiple_keys_loops_when_keys_run_out (fun n => n) 1000 2 0 0).
  reflexivity.
Defined.

Lemma drawn_succ draws length k n :
  drawn draws length k (S n)
  = Keys.choices draws (Z.to_nat length) k
    :: drawn draws length (k + Z.to_nat length) n.
Proof.
  unfold drawn. cbn [seq map]. f_equal.
  - unfold Keys.generate_api_key. cbn [fst]. f_equal. lia.
  - rewrite <- seq_shift, map_map. apply map_ext. intros i.
    unfold Keys.generate_api_key. cbn [fst]. f_equal. lia.
Qed.

Lemma fill_fresh draws fuel count length : forall keys k,
  (size keys + fuel)%nat = Z.to_nat count ->
  NoDup (drawn draws length k fuel) ->
  (forall key, key ∈ drawn draws length k fuel -> key ∉ keys) ->
  Keys.fill draws fuel count length keys k
  = Some (keys ∪ list_to_set (drawn draws length k fuel),
          (k + fuel * Z.to_nat length)%nat).
Proof.
  induction fuel as [|fuel IH]; intros keys k Hsize Hnd Hfresh.
  - simpl. destruct (Z.of_nat (size keys) <? count) eqn:Hlt.
    + apply Z.ltb_lt in Hlt. lia.
    + f_equal. f_equal; [|lia]. unfold drawn. cbn [seq map list_to_set].
      by rewrite (right_id_L ∅ (∪)).
  - cbn [Keys.fill]. destruct (Z.of_nat (size keys) <? count) eqn:Hlt.
    2: { apply Z.ltb_ge in Hlt. lia. }
    unfold Keys.generate_api_key at 1.
    rewrite drawn_succ in Hnd, Hfresh. apply NoDup_cons in Hnd as [Hnew Hnd].
    rewrite IH.
    + rewrite drawn_succ. f_equal. f_equal; [|lia].
      rewrite list_to_set_cons. by rewrite (assoc_L (∪)), (comm_L (∪) _ keys).
    + rewrite size_union, size_singleton; [lia|].
      apply disjoint_singleton_l, Hfresh, list_elem_of_here.
    + done.
    + intros key Hin Hkey. apply elem_of_union in Hkey as [Hkey|Hkey].
      * apply elem_of_singleton in Hkey as ->. done.
      * by apply (Hfresh key); [apply list_elem_of_further|].
Qed.

(** X8. When the keys drawn in the first [count] iterations are all
    different, [generate_multiple_keys(count, length)] returns after exactly
    these iterations, with these keys in some order. *)
Theorem generate_multiple_keys_returns_when_draws_differ (draws : nat -> nat)
    (count length : Z) (k : nat) :
  NoDup (drawn draws length k (Z.to_nat count)) ->
  exists keys,
    Keys.generate_multiple_keys draws (Z.to_nat count) count length k
    = Some (keys, (k + Z.to_nat count * Z.to_nat length)%nat) /\
    keys ≡ₚ drawn draws length k (Z.to_nat count).
Proof.
  intros Hnd. unfold Keys.generate_multiple_keys.
  rewrite fill_fresh; [|by rewrite size_empty|done|].
  - eexists. split; [done|].
    rewrite (left_id_L ∅ (∪)). by apply elements_list_to_set.
  - intros key _ Hin. by apply elem_of_empty in Hin.
Qed.

Lemma generate_multiple_keys_returns_when_draws_differ_witness :
  exists keys,
    Keys.generate_multiple_keys (fun n => n) 2 2 3 0 = Some (keys, 6%nat) /\
    keys ≡ₚ ["abc"; "def"].
Proof.
  apply (generate_multiple_keys_returns_when_draws_differ (fun n => n) 2 3 0).
  vm_compute. apply NoDup_cons_2; [|apply NoDup_cons_2; [|apply NoDup_nil_2]].
  - intros Hin. apply list_elem_of_singleton in Hin. discriminate.
  - apply not_elem_of_nil.
Defined.

Lemma over_alphabet_plain key :
  over_alphabet key ->
  Forall (fun c => Text.isspace c = false) (Text.chars key) /\
  ","%char ∉ Text.chars key.
Proof.
  intros Hkey. pose proof alphabet_plain as Hplain.
  rewrite Forall_forall in Hplain. split.
  - eapply Forall_impl; [exact Hkey|]. intros c Hc. by apply Hplain.
  - intros Hin. apply (proj1 (Forall_forall _ _) Hkey), Hplain in Hin as [_ Hne]. done.
Qed.

(** The keys read back from the joined line are the keys joined, when each
    is a non-empty string over the alphabet. *)
Lemma valid_keys_join keys :
  Forall (fun key => key <> EmptyString /\ over_alphabet key) keys ->
  Auth.valid_keys (Keys.api_keys_value keys) = keys.
Proof.
  intros Hall. destruct keys as [|key0 keys0]; [done|].
  unfold Auth.valid_keys, Keys.api_keys_value.
  rewrite (split_join ","%char (key0 :: keys0)); [|done|].
  2: { eapply Forall_impl; [exact Hall|]. intros key [_ Hkey].
       by apply over_alphabet_plain. }
  induction Hall as [|key l [Hne Hkey] Hl IH]; [done|].
  cbn [List.filter]. rewrite (strip_id key) by (by apply over_alphabet_plain).
  rewrite (proj2 (nonempty_true key) Hne). cbn [map].
  rewrite (strip_id key) by (by apply over_alphabet_plain). by rewrite IH.
Qed.

(** X9. The keys [generate_multiple_keys] returns, joined with commas as
    [main] prints them for [API_KEYS], are exactly the keys [verify_api_key]
    accepts when that line is the configured [api_keys]; this needs keys of
    at least one character. *)
Theorem generated_keys_are_the_keys_accepted (draws : nat -> nat) (fuel : nat)
    (count length : Z) (k : nat) (keys : list string) (k' : nat) :
  0 < length ->
  Keys.generate_multiple_keys draws fuel count length k = Some (keys, k') ->
  forall api_key key,
    Auth.verify_api_key (Keys.api_keys_value keys) api_key = inl key <->
    api_key = Some key /\ key ∈ keys.
Proof.
  intros Hlen Hgen api_key key. rewrite verify_accepts.
  rewrite valid_keys_join; [done|].
  unfold Keys.generate_multiple_keys in Hgen.
  destruct (Keys.fill draws fuel count length ∅ k) as [[set k1]|] eqn:Hf; [|done].
  injection Hgen as <- <-.
  apply fill_returns in Hf as [Hwf _].
  - apply Forall_forall. intros key' Hin.
    apply elem_of_elements, Hwf in Hin as [Hl Ha]. split; [|done].
    intros ->. simpl in Hl. lia.
  - intros key' Hin. by apply elem_of_empty in Hin.
  - rewrite size_empty. lia.
Qed.

Lemma generated_keys_are_the_keys_accepted_witness :
  Auth.verify_api_key (Keys.api_keys_value ["abc"; "def"]) (Some "def") = inl "def" <->
  Some "def" = Some "def" /\ "def" ∈ ["abc"; "def"].
Proof.
  apply (generated_keys_are_the_keys_accepted (fun n => n) 2 2 3 0 ["abc"; "def"] 6).
  - reflexivity.
  - reflexivity.
Defined.

Lemma generate_multiple_keys_returns_distinct_keys_witness :
  NoDup ["abc"; "def"] /\
  Z.of_nat (List.length ["abc"; "def"]) = Z.max 0 2 /\
  Forall (fun key =>
            Z.of_nat (String.length key) = Z.max 0 3 /\
            Forall (fun c => c ∈ Text.chars Keys.alphabet) (Text.chars key))
    ["abc"; "def"].
Proof.
  apply (generate_multiple_keys_returns_distinct_keys (fun n => n) 2 2 3 0 ["abc"; "def"] 6).
  reflexivity.
Defined.

(** ** The rate limiter *)

(** X10. [rate_limit] fails open and raises nothing but 429.  Without a
    client, or when [incr] raises a [RedisError], the request is let through;
    so it is when [expire] raises on the first request of a key.  An
    exception leaves the call only when [incr] answered with a count above
    [max_requests], and it is the 429 whose [Retry-After] is the window. *)
Theorem rate_limit_fails_open (client : option string) (current_minute : string)
    (max_requests window : Z) (key_prefix : string) (store : Redis.Store) :
  RateLimit.rate_limit None client current_minute max_requests window key_prefix store
  = (inl tt, store) /\
  RateLimit.rate_limit (Some Redis.unreachable) client current_minute max_requests
    window key_prefix store = (inl tt, store) /\
  forall r : Redis.Client,
    let key := RateLimit.key_of key_prefix client current_minute in
    let out :=
      RateLimit.rate_limit (Some r) client current_minute max_requests window
        key_prefix store in
    (forall e store1, Redis.incr r key store = (inr e, store1) -> out = (inl tt, store1)) /\
    (forall store1 e store2,
       Redis.incr r key store = (inl 1, store1) ->
       Redis.expire r key window store1 = (inr e, store2) ->
       out = (inl tt, store2)) /\
    (forall e store', out = (inr e, store') ->
       Http.status_code e = 429 /\
       Http.headers e = [("Retry-After", pretty window)] /\
       exists current store1,
         Redis.incr r key store = (inl current, store1) /\ max_requests < current).
Proof.
  split; [done|]. split; [done|]. intros r key out. subst key out.
  unfold RateLimit.rate_limit. split; [|split].
  - intros e store1 ->. done.
  - intros store1 e store2 -> Hexp. cbn [Z.eqb Pos.eqb]. by rewrite Hexp.
  - intros e store'.
    destruct (Redis.incr r _ store) as [[current|err] store1]; [|done].
    destruct (if current =? 1 then _ else _) as [[b|err] store2]; [|done].
    destruct (max_requests <? current) eqn:Hlt; [|done].
    intros Heq. injection Heq as <- <-. apply Z.ltb_lt in Hlt.
    split; [done|]. split; [done|]. by exists current, store1.
Qed.

Lemma lookup_insert_same now key e store :
  Redis.lookup now key (<[key := e]> store) = if Redis.live now e then Some e else None.
Proof. unfold Redis.lookup. by rewrite lookup_insert_eq. Qed.

Lemma lookup_insert_other now key key' e store :
  key <> key' ->
  Redis.lookup now key' (<[key := e]> store) = Redis.lookup now key' store.
Proof. intros Hne. unfold Redis.lookup. by rewrite lookup_insert_ne. Qed.

Lemma lookup_delete_other now key key' store :
  key <> key' ->
  Redis.lookup now key' (delete key store) = Redis.lookup now key' store.
Proof. intros Hne. unfold Redis.lookup. by rewrite lookup_delete_ne. Qed.

(** The first request of a key: the counter is set to 1 and its time to
    live to the window. *)
Lemma rate_limit_first client current_minute max_requests window key_prefix now store :
  let key := RateLimit.key_of key_prefix client current_minute in
  Redis.lookup now key store = None ->
  0 < window ->
  exists r,
    RateLimit.rate_limit (Some (Redis.server now)) client current_minute max_requests
      window key_prefix store
    = (r, <[key := {| Redis.value := 1; Redis.expires_at := Some (now + window) |}]> store) /\
    match r with inl _ => true | inr _ => false end = (1 <=? max_requests).
Proof.
  intros key Hnone Hw. unfold RateLimit.rate_limit. fold key.
  cbn [Redis.server Redis.incr Redis.expire]. unfold Redis.server_incr. rewrite Hnone.
  cbn [Z.eqb Pos.eqb]. unfold Redis.server_expire. rewrite lookup_insert_same.
  cbn [Redis.live Redis.expires_at Redis.value].
  destruct (window <=? 0) eqn:Hle; [apply Z.leb_le in Hle; lia|].
  rewrite insert_insert_eq.
  destruct (max_requests <? 1) eqn:Hlt; eexists; (split; [reflexivity|]); cbn;
    symmetry; [apply Z.leb_gt|apply Z.leb_le]; lia.
Qed.

(** A later request, made while the key lives: the counter goes up by one
    and the time to live is kept. *)
Lemma rate_limit_next client current_minute max_requests window key_prefix now store c T :
  let key := RateLimit.key_of key_prefix client current_minute in
  store !! key = Some {| Redis.value := c; Redis.expires_at := Some T |} ->
  now < T -> 1 <= c < Redis.int64_max ->
  exists r,
    RateLimit.rate_limit (Some (Redis.server now)) client current_minute max_requests
      window key_prefix store
    = (r, <[key := {| Redis.value := c + 1; Redis.expires_at := Some T |}]> store) /\
    match r with inl _ => true | inr _ => false end = (c + 1 <=? max_requests).
Proof.
  intros key Hkey Hnow Hc. unfold RateLimit.rate_limit. fold key.
  cbn [Redis.server Redis.incr Redis.expire]. unfold Redis.server_incr, Redis.lookup.
  rewrite Hkey. cbn [Redis.live Redis.expires_at Redis.value].
  rewrite (proj2 (Z.ltb_lt now T) Hnow). cbn [Redis.value Redis.expires_at].
  rewrite (proj2 (Z.ltb_lt c Redis.int64_max)) by lia.
  destruct (c + 1 =? 1) eqn:Heq; [apply Z.eqb_eq in Heq; lia|].
  destruct (max_requests <? c + 1) eqn:Hlt; eexists; (split; [reflexivity|]); cbn;
    symmetry; [apply Z.leb_gt|apply Z.leb_le]; lia.
Qed.

Lemma serve_next client current_minute max_requests window key_prefix T :
  forall times store c,
    let key := RateLimit.key_of key_prefix client current_minute in
    store !! key = Some {| Redis.value := c; Redis.expires_at := Some T |} ->
    Forall (fun t => t < T) times ->
    1 <= c -> c + Z.of_nat (length times) <= Redis.int64_max ->
    serve client current_minute max_requests window key_prefix times store
    = (map (fun i => c + Z.of_nat i <=? max_requests) (seq 1 (length times)),
       <[key := {| Redis.value := c + Z.of_nat (length times);
                   Redis.expires_at := Some T |}]> store).
Proof.
  induction times as [|now times IH]; intros store c key Hkey Hall Hc Hmax.
  - cbn. f_equal. rewrite Z.add_0_r. symmetry. by apply insert_id.
  - apply Forall_cons in Hall as [Hnow Hall]. cbn [length] in Hmax.
    destruct (rate_limit_next client current_minute max_requests window key_prefix
                now store c T Hkey Hnow) as (r & Hr & Hout); [lia|].
    cbn [serve]. rewrite Hr. fold key.
    rewrite (IH _ (c + 1)); [| by rewrite lookup_insert_eq | done | lia | lia].
    cbn [length seq map]. rewrite Hout.
    replace (c + Z.of_nat 1) with (c + 1) by lia.
    rewrite <- (seq_shift (length times) 1), map_map.
    rewrite insert_insert_eq.
    replace (c + 1 + Z.of_nat (length times)) with (c + Z.of_nat (S (length times))) by lia.
    f_equal. f_equal. apply map_ext. intros i. f_equal. lia.
Qed.

Lemma serve_first client current_minute max_requests window key_prefix t0 times store :
  let key := RateLimit.key_of key_prefix client current_minute in
  Redis.lookup t0 key store = None ->
  Forall (fun t => t < t0 + window) (t0 :: times) ->
  Z.of_nat (length (t0 :: times)) <= Redis.int64_max ->
  serve client current_minute max_requests window key_prefix (t0 :: times) store
  = (map (fun i => Z.of_nat i <=? max_requests) (seq 1 (length (t0 :: times))),
     <[key := {| Redis.value := Z.of_nat (length (t0 :: times));
                 Redis.expires_at := Some (t0 + window) |}]> store).
Proof.
  intros key Hnone Hall Hmax. apply Forall_cons in Hall as [Ht0 Hall].
  destruct (rate_limit_first client current_minute max_requests window key_prefix
              t0 store Hnone) as (r & Hr & Hout); [lia|].
  cbn [serve]. rewrite Hr. fold key. cbn [length] in Hmax.
  rewrite (serve_next _ _ _ _ _ (t0 + window) times _ 1);
    [| by rewrite lookup_insert_eq | done | lia | lia].
  cbn [length seq map]. rewrite Hout.
  rewrite <- (seq_shift (length times) 1), map_map.
  rewrite insert_insert_eq.
  replace (1 + Z.of_nat (length times)) with (Z.of_nat (S (length times))) by lia.
  f_equal. f_equal. apply map_ext. intros i. f_equal. lia.
Qed.

(** X11. Of the requests a client makes under one key while the key lives
    (the first finds no counter, and all come before the window that starts
    with the first has passed), exactly the first [max_requests] are let
    through: the [i]-th is let through when [i <= max_requests] and gets the
    429 otherwise.  Once that window has passed the count starts again: the
    next request is let through whenever [max_requests] is at least 1. *)
Theorem rate_limit_lets_first_max_requests_through (client : option string)
    (current_minute : string) (max_requests window : Z) (key_prefix : string)
    (t0 : Z) (times : list Z) (store : Redis.Store) :
  Redis.lookup t0 (RateLimit.key_of key_prefix client current_minute) store = None ->
  Forall (fun t => t < t0 + window) (t0 :: times) ->
  Z.of_nat (length (t0 :: times)) <= Redis.int64_max ->
  fst (serve client current_minute max_requests window key_prefix (t0 :: times) store)
  = map (fun i => Z.of_nat i <=? max_requests) (seq 1 (length (t0 :: times))) /\
  forall later, t0 + window <= later ->
    fst (serve client current_minute max_requests window key_prefix [later]
           (snd (serve client current_minute max_requests window key_prefix
                   (t0 :: times) store)))
    = [1 <=? max_requests].
Proof.
  intros Hnone Hall Hmax. rewrite serve_first by done. split; [done|].
  intros later Hlater. cbn [snd].
  assert (Hw : 0 < window) by (apply Forall_cons in Hall as [Ht0 _]; lia).
  rewrite (serve_first client current_minute max_requests window key_prefix later []).
  - reflexivity.
  - rewrite lookup_insert_same. cbn [Redis.live Redis.expires_at].
    by rewrite (proj2 (Z.ltb_ge later (t0 + window)) Hlater).
  - apply Forall_cons_2; [lia|apply Forall_nil_2].
  - vm_compute. discriminate.
Qed.

Lemma rate_limit_lets_first_max_requests_through_witness :
  fst (serve (Some "10.0.0.7") "202611031200" 2 60 "rate_limit" [0; 1; 1; 59] ∅)
  = [true; true; false; false] /\
  forall later, 0 + 60 <= later ->
    fst (serve (Some "10.0.0.7") "202611031200" 2 60 "rate_limit" [later]
           (snd (serve (Some "10.0.0.7") "202611031200" 2 60 "rate_limit"
                   [0; 1; 1; 59] ∅)))
    = [1 <=? 2].
Proof.
  apply (rate_limit_lets_first_max_requests_through (Some "10.0.0.7") "202611031200"
           2 60 "rate_limit" 0 [1; 1; 59] ∅).
  - reflexivity.
  - repeat (apply Forall_cons_2; [reflexivity|]). apply Forall_nil_2.
  - vm_compute. discriminate.
Defined.

(** X12. [get_rate_limit_info] reports under ["current"] the number of
    requests [rate_limit] has counted for the client in the minute, those it
    refused included, and leaves the store as it is. *)
Theorem rate_limit_info_reports_requests_made (client : option string)
    (current_minute : string) (max_requests window : Z) (key_prefix : string)
    (t0 : Z) (times : list Z) (store : Redis.Store) (now : Z) :
  Redis.lookup t0 (RateLimit.key_of key_prefix client current_minute) store = None ->
  Forall (fun t => t < t0 + window) (now :: t0 :: times) ->
  Z.of_nat (length (t0 :: times)) <= Redis.int64_max ->
  let store' :=
    snd (serve client current_minute max_requests window key_prefix (t0 :: times) store) in
  RateLimit.get_rate_limit_info (Some (Redis.server now)) client current_minute
    key_prefix store'
  = (VDict [("current", VInt (Z.of_nat (length (t0 :: times))));
            ("key", VStr (RateLimit.key_of key_prefix client current_minute))],
     store').
Proof.
  intros Hnone Hall Hmax store'. apply Forall_cons in Hall as [Hnow Hall].
  subst store'. rewrite serve_first by done. cbn [snd].
  unfold RateLimit.get_rate_limit_info. cbn [Redis.server Redis.get].
  unfold Redis.server_get. rewrite lookup_insert_same.
  cbn [Redis.live Redis.expires_at]. rewrite (proj2 (Z.ltb_lt _ _) Hnow). done.
Qed.

Lemma rate_limit_info_reports_requests_made_witness :
  let store' :=
    snd (serve (Some "10.0.0.7") "202611031200" 2 60 "rate_limit" [0; 1; 1; 59] ∅) in
  RateLimit.get_rate_limit_info (Some (Redis.server 30)) (Some "10.0.0.7") "202611031200"
    "rate_limit" store'
  = (VDict [("current", VInt 4);
            ("key", VStr (RateLimit.key_of "rate_limit" (Some "10.0.0.7") "202611031200"))],
     store').
Proof.
  apply (rate_limit_info_reports_requests_made (Some "10.0.0.7") "202611031200"
           2 60 "rate_limit" 0 [1; 1; 59] ∅ 30).
  - reflexivity.
  - repeat (apply Forall_cons_2; [reflexivity|]). apply Forall_nil_2.
  - vm_compute. discriminate.
Defined.

Lemma length_append a x :
  String.length (String.append a x) = (String.length a + String.length x)%nat.
Proof.
  induction a as [|c a IH]; [done|].
  change (S (String.length (String.append a x)) = S (String.length a + String.length x)).
  by rewrite IH.
Qed.

Lemma append_inj_l a x y : String.append a x = String.append a y -> x = y.
Proof.
  induction a as [|c a IH]; [done|].
  intros Heq. injection Heq as Heq. auto.
Qed.

Lemma append_inj_suffix a b x y :
  String.length x = String.length y ->
  String.append a x = String.append b y -> a = b /\ x = y.
Proof.
  revert b. induction a as [|c a IH]; intros [|d b] Hlen Heq.
  - done.
  - exfalso. change (x = String d (String.append b y)) in Heq. subst x.
    cbn [String.length] in Hlen. rewrite length_append in Hlen. lia.
  - exfalso. change (String c (String.append a x) = y) in Heq. subst y.
    cbn [String.length] in Hlen. rewrite length_append in Hlen. lia.
  - injection Heq as -> Heq. destruct (IH b Hlen Heq) as [-> ->]. done.
Qed.

(** Two clients, or two minutes written with as many characters, never
    share a key. *)
Lemma key_of_inj key_prefix c1 m1 c2 m2 :
  String.length m1 = String.length m2 ->
  RateLimit.key_of key_prefix c1 m1 = RateLimit.key_of key_prefix c2 m2 ->
  default "unknown" c1 = default "unknown" c2 /\ m1 = m2.
Proof.
  intros Hlen Heq. unfold RateLimit.key_of in Heq.
  do 2 apply append_inj_l in Heq.
  apply append_inj_suffix in Heq as [Hc Hm].
  - split; [done|]. by apply append_inj_l in Hm.
  - by rewrite !length_append, Hlen.
Qed.

(** A request only touches its own key. *)
Lemma rate_limit_frame client current_minute max_requests window key_prefix now store
    key' now' :
  RateLimit.key_of key_prefix client current_minute <> key' ->
  Redis.lookup now' key'
    (snd (RateLimit.rate_limit (Some (Redis.server now)) client current_minute
            max_requests window key_prefix store))
  = Redis.lookup now' key' store.
Proof.
  intros Hne. unfold RateLimit.rate_limit.
  set (key := RateLimit.key_of key_prefix client current_minute) in *.
  cbn [Redis.server Redis.incr Redis.expire]. unfold Redis.server_incr.
  destruct (Redis.lookup now key store) as [e|].
  - destruct (Redis.value e <? Redis.int64_max); [|done].
    destruct (Redis.value e + 1 =? 1).
    + unfold Redis.server_expire. rewrite lookup_insert_same.
      destruct (Redis.live now _); cbn [Redis.value].
      * destruct (window <=? 0).
        -- destruct (max_requests <? _); cbn [snd];
             by rewrite lookup_delete_other, lookup_insert_other.
        -- destruct (max_requests <? _); cbn [snd];
             by rewrite !lookup_insert_other.
      * destruct (max_requests <? _); cbn [snd]; by rewrite lookup_insert_other.
    + destruct (max_requests <? _); cbn [snd]; by rewrite lookup_insert_other.
  - cbn [Z.eqb Pos.eqb]. unfold Redis.server_expire. rewrite lookup_insert_same.
    cbn [Redis.live Redis.expires_at Redis.value].
    destruct (window <=? 0).
    + destruct (max_requests <? 1); cbn [snd];
        by rewrite lookup_delete_other, lookup_insert_other.
    + destruct (max_requests <? 1); cbn [snd]; by rewrite !lookup_insert_other.
Qed.

(** Whether a request is let through depends on the store only through the
    live counter of its key. *)
Lemma rate_limit_outcome client current_minute max_requests window key_prefix now
    store store' :
  let key := RateLimit.key_of key_prefix client current_minute in
  Redis.lookup now key store = Redis.lookup now key store' ->
  fst (RateLimit.rate_limit (Some (Redis.server now)) client current_minute
         max_requests window key_prefix store)
  = fst (RateLimit.rate_limit (Some (Redis.server now)) client current_minute
           max_requests window key_prefix store').
Proof.
  intros key Hsame. unfold RateLimit.rate_limit. fold key.
  cbn [Redis.server Redis.incr Redis.expire]. unfold Redis.server_incr.
  rewrite <- Hsame. destruct (Redis.lookup now key store) as [e|].
  - destruct (Redis.value e <? Redis.int64_max); [|done].
    destruct (Redis.value e + 1 =? 1).
    + unfold Redis.server_expire. rewrite !lookup_insert_same.
      destruct (Redis.live now _); cbn [Redis.value].
      * destruct (window <=? 0); by destruct (max_requests <? _).
      * by destruct (max_requests <? _).
    + by destruct (max_requests <? _).
  - cbn [Z.eqb Pos.eqb]. unfold Redis.server_expire. rewrite !lookup_insert_same.
    cbn [Redis.live Redis.expires_at Redis.value].
    destruct (window <=? 0); by destruct (max_requests <? 1).
Qed.

(** X13. The requests of one client in one minute never change what
    another client, or the same client in another minute, is answered:
    whether that request is let through, and the count reported for it, are
    the same with and without them. *)
Theorem rate_limit_keeps_clients_and_minutes_apart (key_prefix : string)
    (c1 c2 : option string) (m1 m2 : string) (max1 window1 max2 window2 : Z)
    (now1 now2 : Z) (store : Redis.Store) :
  String.length m1 = String.length m2 ->
  (default "unknown" c1, m1) <> (default "unknown" c2, m2) ->
  let store' :=
    snd (RateLimit.rate_limit (Some (Redis.server now1)) c1 m1 max1 window1 key_prefix
           store) in
  fst (RateLimit.rate_limit (Some (Redis.server now2)) c2 m2 max2 window2 key_prefix
         store')
  = fst (RateLimit.rate_limit (Some (Redis.server now2)) c2 m2 max2 window2 key_prefix
           store) /\
  fst (RateLimit.get_rate_limit_info (Some (Redis.server now2)) c2 m2 key_prefix store')
  = fst (RateLimit.get_rate_limit_info (Some (Redis.server now2)) c2 m2 key_prefix store).
Proof.
  intros Hlen Hne store'.
  assert (Hkeys : RateLimit.key_of key_prefix c1 m1 <> RateLimit.key_of key_prefix c2 m2).
  { intros Heq. apply key_of_inj in Heq as [Hc Hm]; [|done]. apply Hne. congruence. }
  assert (Hframe : Redis.lookup now2 (RateLimit.key_of key_prefix c2 m2) store'
                   = Redis.lookup now2 (RateLimit.key_of key_prefix c2 m2) store).
  { by apply rate_limit_frame. }
  split.
  - by apply rate_limit_outcome.
  - unfold RateLimit.get_rate_limit_info. cbn [Redis.server Redis.get].
    unfold Redis.server_get. cbn [fst]. by rewrite Hframe.
Qed.

Lemma rate_limit_keeps_clients_and_minutes_apart_witness :
  let store' :=
    snd (RateLimit.rate_limit (Some (Redis.server 59)) (Some "10.0.0.7") "202611031200"
           1 60 "rate_limit" ∅) in
  fst (RateLimit.rate_limit (Some (Redis.server 60)) (Some "10.0.0.7") "202611031201"
         1 60 "rate_limit" store')
  = fst (RateLimit.rate_limit (Some (Redis.server 60)) (Some "10.0.0.7") "202611031201"
           1 60 "rate_limit" ∅) /\
  fst (RateLimit.get_rate_limit_info (Some (Redis.server 60)) (Some "10.0.0.7")
         "202611031201" "rate_limit" store')
  = fst (RateLimit.get_rate_limit_info (Some (Redis.server 60)) (Some "10.0.0.7")
           "202611031201" "rate_limit" ∅).
Proof.
  apply (rate_limit_keeps_clients_and_minutes_apart "rate_limit" (Some "10.0.0.7")
           (Some "10.0.0.7") "202611031200" "202611031201" 1 60 1 60 59 60 ∅).
  - reflexivity.
  - vm_compute. discriminate.
Defined.

Lemma all_let_through n max_requests :
  Z.of_nat n <= max_requests ->
  map (fun i => Z.of_nat i <=? max_requests) (seq 1 n) = repeat true n.
Proof.
  intros Hn.
  assert (Hgen : forall m a, Z.of_nat (a + m) <= max_requests + 1 ->
            map (fun i => Z.of_nat i <=? max_requests) (seq a m) = repeat true m).
  { induction m as [|m IH]; intros a Ha; [done|].
    cbn [seq map repeat]. rewrite IH by lia. f_equal. apply Z.leb_le. lia. }
  apply Hgen. lia.
Qed.

(** X14. The limit is per minute of the clock, not per span of time.  A
    client that makes [max_requests] requests in one minute and
    [max_requests] more in the next is refused none of them, however close
    in time the two bursts are: each minute has a key and a counter of its
    own. *)
Theorem rate_limit_lets_two_bursts_through_across_minutes (client : option string)
    (m1 m2 : string) (max_requests window : Z) (key_prefix : string)
    (t1 : Z) (times1 : list Z) (t2 : Z) (times2 : list Z) (store : Redis.Store) :
  String.length m1 = String.length m2 -> m1 <> m2 ->
  Redis.lookup t1 (RateLimit.key_of key_prefix client m1) store = None ->
  Redis.lookup t2 (RateLimit.key_of key_prefix client m2) store = None ->
  Forall (fun t => t < t1 + window) (t1 :: times1) ->
  Forall (fun t => t < t2 + window) (t2 :: times2) ->
  Z.of_nat (length (t1 :: times1)) <= Z.min max_requests Redis.int64_max ->
  Z.of_nat (length (t2 :: times2)) <= Z.min max_requests Redis.int64_max ->
  let first := serve client m1 max_requests window key_prefix (t1 :: times1) store in
  let second := serve client m2 max_requests window key_prefix (t2 :: times2) (snd first) in
  (fst first ++ fst second)%list
  = repeat true (length (t1 :: times1) + length (t2 :: times2)).
Proof.
  intros Hlen Hne Hnone1 Hnone2 Hall1 Hall2 Hmax1 Hmax2 first second.
  subst first second. rewrite repeat_app.
  rewrite (serve_first client m1) by (done || lia). cbn [fst snd].
  rewrite (serve_first client m2); [| |done|lia].
  - cbn [fst]. by rewrite !all_let_through by lia.
  - rewrite lookup_insert_other; [done|].
    intros Heq. apply key_of_inj in Heq as [_ Hm]; done.
Qed.

Lemma rate_limit_lets_two_bursts_through_across_minutes_witness :
  let first :=
    serve (Some "10.0.0.7") "202611031200" 2 60 "rate_limit" [58; 59] ∅ in
  let second :=
    serve (Some "10.0.0.7") "202611031201" 2 60 "rate_limit" [60; 61] (snd first) in
  (fst first ++ fst second)%list = repeat true (length [58; 59] + length [60; 61]).
Proof.
  apply (rate_limit_lets_two_bursts_through_across_minutes (Some "10.0.0.7")
           "202611031200" "202611031201" 2 60 "rate_limit" 58 [59] 60 [61] ∅).
  - reflexivity.
  - discriminate.
  - reflexivity.
  - reflexivity.
  - repeat (apply Forall_cons_2; [reflexivity|]). apply Forall_nil_2.
  - repeat (apply Forall_cons_2; [reflexivity|]). apply Forall_nil_2.
  - vm_compute. discriminate.
  - vm_compute. discriminate.
Defined.

(** ** The plain routes, from the request to the status read *)

(** X15. A request to [/tasks/process] is answered "Task started" with the
    id of the task; until a worker has handled it the status endpoint says
    Pending; every run of the worker handles it in one delivery, after which
    the status endpoint says Completed with the text ["Processed: "]
    followed by the data sent. *)
Theorem process_data_completes_with_processed_text (q : string -> string)
    (format : pyval -> string) (data : string) :
  let response := fst (process_request q data) in
  let st := snd (process_request q data) in
  Schemas.task_id response = "task-0" /\
  Schemas.status response = "Task started" /\
  Routes.get_task_status (backend st) "task-0" = ret (pending "task-0") /\
  settles (ProcessData.registry format) 1 st
    (answered "tasks.process_data" (VStr (String.append "Processed: " data))).
Proof.
  split; [reflexivity|]. split; [reflexivity|]. split; [reflexivity|].
  run; finish.
Qed.

(** X16. A request to [/tasks/calculate/add] with [x] and [y], numbers
    that the serializer can write as it can their sum (at most 4300
    digits), is answered "Task submitted"; every run of the worker handles
    it in one delivery, after which the status endpoint says Completed with
    the integer [x + y]. *)
Theorem add_numbers_completes_with_the_sum (q : string -> string)
    (format : pyval -> string) (x y : Z) :
  Forall Py.json_int [x; y; x + y] ->
  let response := fst (add_request q x y) in
  let st := snd (add_request q x y) in
  Schemas.task_id response = "task-0" /\
  Schemas.status response = "Task submitted" /\
  Routes.get_task_status (backend st) "task-0" = ret (pending "task-0") /\
  settles (ProcessData.registry format) 1 st (answered "tasks.add_numbers" (VInt (x + y))).
Proof.
  intros _.
  split; [reflexivity|]. split; [reflexivity|]. split; [reflexivity|].
  run; finish.
Qed.

(** The statement for 15 and 25. *)
Lemma add_numbers_completes_with_the_sum_witness :
  Forall Py.json_int [15; 25; 15 + 25] /\
  settles (ProcessData.registry (fun _ => EmptyString)) 1
    (snd (add_request some_queue 15 25)) (answered "tasks.add_numbers" (VInt 40)).
Proof.
  assert (Hsum : Forall Py.json_int [15; 25; 15 + 25]).
  { repeat (apply Forall_cons_2; [vm_compute; reflexivity|]). apply Forall_nil_2. }
  split; [exact Hsum|].
  exact (proj2 (proj2 (proj2
    (add_numbers_completes_with_the_sum some_queue (fun _ => EmptyString) 15 25 Hsum)))).
Defined.

Section DivideRuns.

Variable q : string -> string.
Variables add_body div_body : pyval -> pyval -> Py.result pyval.
Variable agg_body : pyval -> Py.result pyval.

Let registry := BasicTasks.registry_of add_body div_body agg_body.

Lemma divide_runs_completed x d v :
  div_body (VInt x) (VInt d) = inl v ->
  settles registry 1 (snd (divide_request q x d))
    (fun fin => answered "tasks.divide_numbers" v fin /\
                backend fin !! "task-0" = Some (settled (inl v))).
Proof.
  intros Hdiv. subst registry.
  run_with ltac:(fun H => rewrite ?Hdiv in H); finish.
Qed.

Lemma divide_runs_overflow x d msg :
  div_body (VInt x) (VInt d) = inr (Exn OverflowError msg) ->
  settles registry 1 (snd (divide_request q x d))
    (fun fin =>
       length (invocations "tasks.divide_numbers" (log fin)) = 1%nat /\
       retries_sent (log fin) = [] /\
       Routes.get_task_status (backend fin) "task-0" = raise (Exn OverflowError msg) /\
       backend fin !! "task-0" = Some (settled (inr (Exn OverflowError msg)))).
Proof.
  intros Hdiv. subst registry.
  run_with ltac:(fun H => rewrite ?Hdiv in H); finish.
Qed.

End DivideRuns.

(** X17. A division by a divisor that is not zero is never retried.  Every
    run of the worker handles the request in one delivery and one call of
    the body, sends nothing again, and stores the outcome of [x / y]: the
    float, which the status endpoint then gives as Completed, or, the
    quotient being too large for a float, the [OverflowError], which the
    [except ZeroDivisionError] clause does not catch. *)
Theorem divide_by_nonzero_is_never_retried (q : string -> string) (x d : Z) :
  d <> 0 ->
  settles BasicTasks.registry 1 (snd (divide_request q x d)) (fun fin =>
    length (invocations "tasks.divide_numbers" (log fin)) = 1%nat /\
    retries_sent (log fin) = [] /\
    backend fin !! "task-0" = Some (settled (Py.truediv (VInt x) (VInt d))) /\
    match Py.truediv (VInt x) (VInt d) with
    | inl v =>
        (exists f, v = VFloat f) /\
        Routes.get_task_status (backend fin) "task-0" = ret (completed "task-0" v)
    | inr e =>
        e = Exn OverflowError "integer division result too large for a float" /\
        Routes.get_task_status (backend fin) "task-0" = raise e
    end).
Proof.
  intros Hd.
  assert (Hbody : BasicTasks.divide_body (VInt x) (VInt d) = Py.truediv (VInt x) (VInt d)).
  { unfold BasicTasks.divide_body, Py.eq_int. simpl.
    by rewrite (proj2 (Z.eqb_neq _ _) Hd). }
  destruct (divide_body_cases x d) as [[Hz _]|[[_ Hdiv]|[_ [f Hdiv]]]]; [done| |].
  - rewrite <- Hbody, Hdiv. unfold raise.
    eapply settles_impl; [|by eapply divide_runs_overflow].
    intros fin (Hinv & Hsent & Hstatus & Hback). by repeat split.
  - rewrite <- Hbody, Hdiv. unfold ret.
    eapply settles_impl; [|by eapply divide_runs_completed].
    intros fin ((Hinv & Hsent & Hstatus) & Hback). repeat split; try done. by exists f.
Qed.

(** The statement at 100 / 5, the division of the test script: the result
    is the float 20.0. *)
Lemma divide_by_nonzero_is_never_retried_witness :
  settles BasicTasks.registry 1 (snd (divide_request some_queue 100 5)) (fun fin =>
    length (invocations "tasks.divide_numbers" (log fin)) = 1%nat /\
    retries_sent (log fin) = [] /\
    backend fin !! "task-0" = Some (settled (ret (VFloat float_20))) /\
    (exists f, VFloat float_20 = VFloat f) /\
    Routes.get_task_status (backend fin) "task-0"
    = ret (completed "task-0" (VFloat float_20))).
Proof.
  apply (divide_by_nonzero_is_never_retried some_queue 100 5). discriminate.
Defined.

(** X18. While the division by zero is being retried, the status endpoint
    says Pending: in every state a run passes through in which a message of
    the task is still on the broker, the first attempt or any of the five
    retries, a status read of the task returns ["Pending"], the failures so
    far being stored as RETRY, which is not a ready state. *)
Theorem status_is_pending_while_division_is_retried (q : string -> string) (x : Z) :
  always BasicTasks.registry (snd (divide_request q x 0)) (fun st =>
    broker st <> [] ->
    Routes.get_task_status (backend st) "task-0" = ret (pending "task-0") /\
    (forall m, m ∈ broker st -> msg_id m = "task-0" /\ (msg_retries m <= 5)%nat)).
Proof.
  set (P := fun st : State =>
    broker st <> [] ->
    Routes.get_task_status (backend st) "task-0" = ret (pending "task-0") /\
    (forall m, m ∈ broker st -> msg_id m = "task-0" /\ (msg_retries m <= 5)%nat)).
  assert (Hfinals : exists l, finals BasicTasks.registry 6 (snd (divide_request q x 0)) = Some l).
  { eexists. vm_compute. reflexivity. }
  destruct Hfinals as [l Hfinals].
  eapply always_reachables; [exact Hfinals|].
  vm_compute.
  repeat (apply Forall_cons_2;
          [ let Hb := fresh "Hb" in
            intros Hb;
            first
              [ exfalso; apply Hb; reflexivity
              | split;
                [ reflexivity
                | let m := fresh "m" in
                  let Hm := fresh "Hm" in
                  intros m Hm; apply list_elem_of_singleton in Hm; subst m;
                  split; [reflexivity|repeat constructor] ] ]
          | ]).
  apply Forall_nil_2.
Qed.

Lemma sum_from_ints (l : list Z) :
  forall acc : Z,
    Py.sum_from (VInt acc) (map VInt l) = ret (VInt (acc + fold_right Z.add 0 l)).
Proof.
  induction l as [|z l IH]; intros acc; cbn [map Py.sum_from fold_right].
  - by rewrite Z.add_0_r.
  - change (Py.add (VInt acc) (VInt z)) with (@ret pyval (VInt (acc + z))).
    cbn [bind ret]. rewrite IH. by rewrite Z.add_assoc.
Qed.

(** X19. [aggregate_results_task] on a list of integers returns their sum,
    exactly, whatever their number and size; on the empty list it
    returns 0. *)
Theorem aggregate_of_integers_is_their_sum (results : list Z) :
  BasicTasks.aggregate_results_task (VList (map VInt results))
  = ret (VInt (fold_right Z.add 0 results)) /\
  BasicTasks.aggregate_results_task (VList []) = ret (VInt 0).
Proof.
  split; [|reflexivity].
  unfold BasicTasks.aggregate_results_task, Py.sum. cbn [Py.iterate bind ret].
  by rewrite sum_from_ints.
Qed.

(** ** The polling loop *)

(** Requests that are answered and find the task not ready only use up
    attempts and sleep. *)
Lemma attempts_skip server task_id n :
  forall remaining k slept,
    (forall j, (k <= j < k + n)%nat ->
       exists b, server j = Some b /\ ready b task_id = false) ->
    Script.attempts server task_id (n + remaining) k slept
    = Script.attempts server task_id remaining (k + n) (slept + 2 * Z.of_nat n).
Proof.
  induction n as [|n IH]; intros remaining k slept Hpending.
  - simpl. f_equal; [lia|lia].
  - destruct (Hpending k) as (b & Hb & Hready); [lia|].
    cbn [Nat.add Script.attempts]. rewrite Hb.
    unfold Routes.get_task_status. rewrite Hready. cbn.
    rewrite IH.
    + f_equal; lia.
    + intros j Hj. apply Hpending. lia.
Qed.

(** X20. [check_task_status] returns the answer of the first request that
    finds the task completed: when the first [n] requests find it not ready
    and the next, still within [max_attempts], finds it in SUCCESS with a
    result, the call returns Completed with that result, having made
    [n + 1] requests and slept two seconds after each of the first [n]. *)
Theorem check_task_status_returns_first_completed
    (server : nat -> option (gmap string TaskMeta)) (task_id : string)
    (max_attempts : Z) (n : nat) (b : gmap string TaskMeta) (v : pyval) :
  (n < Z.to_nat max_attempts)%nat ->
  (forall j, (j < n)%nat -> exists b', server j = Some b' /\ ready b' task_id = false) ->
  server n = Some b ->
  b !! task_id = Some {| status := SUCCESS; result := ret v |} ->
  Script.check_task_status server task_id max_attempts
  = {| Script.returned := Some (completed task_id v);
       Script.requests_made := S n;
       Script.seconds_slept := 2 * Z.of_nat n |}.
Proof.
  intros Hn Hpending Hb Hv. unfold Script.check_task_status.
  replace (Z.to_nat max_attempts) with (n + S (Z.to_nat max_attempts - S n))%nat by lia.
  rewrite attempts_skip by (intros j Hj; apply Hpending; lia).
  cbn [Script.attempts Nat.add]. rewrite Hb, (status_success _ _ _ Hv). cbn.
  f_equal.
Qed.

Lemma check_task_status_returns_first_completed_witness :
  Script.check_task_status
    (fun k => if (k <? 2)%nat then Some ∅
              else Some {[ "task-0" := {| status := SUCCESS; result := ret (VInt 40) |} ]})
    "task-0" 10
  = {| Script.returned := Some (completed "task-0" (VInt 40));
       Script.requests_made := 3;
       Script.seconds_slept := 2 * Z.of_nat 2 |}.
Proof.
  apply (check_task_status_returns_first_completed _ "task-0" 10 2
           {[ "task-0" := {| status := SUCCESS; result := ret (VInt 40) |} ]} (VInt 40)).
  - vm_compute. lia.
  - intros j Hj. exists ∅. split; [|reflexivity].
    destruct j as [|[|j]]; [reflexivity|reflexivity|lia].
  - reflexivity.
  - reflexivity.
Defined.

(** X21. [check_task_status] gives up at the first request that fails, and
    a task that has failed makes the request fail: when the first [n]
    requests find the task not ready and the next either gets no answer or
    finds the task in FAILURE or REVOKED, so that the status endpoint raises,
    the call returns [None] after [n + 1] requests, as it does for a task
    that is still pending after [max_attempts]. *)
Theorem check_task_status_gives_up_on_failed_task
    (server : nat -> option (gmap string TaskMeta)) (task_id : string)
    (max_attempts : Z) (n : nat) :
  (n < Z.to_nat max_attempts)%nat ->
  (forall j, (j < n)%nat -> exists b', server j = Some b' /\ ready b' task_id = false) ->
  (server n = None \/
   exists b, server n = Some b /\ PROPAGATE_STATES (state_of b task_id) = true) ->
  Script.check_task_status server task_id max_attempts
  = {| Script.returned := None;
       Script.requests_made := S n;
       Script.seconds_slept := 2 * Z.of_nat n |}.
Proof.
  intros Hn Hpending Hfail. unfold Script.check_task_status.
  replace (Z.to_nat max_attempts) with (n + S (Z.to_nat max_attempts - S n))%nat by lia.
  rewrite attempts_skip by (intros j Hj; apply Hpending; lia).
  cbn [Script.attempts Nat.add]. destruct Hfail as [Hnone|(b & Hb & Hstate)].
  - rewrite Hnone. f_equal.
  - rewrite Hb. destruct (status_propagates _ _ Hstate) as [e He]. rewrite He.
    unfold raise. f_equal.
Qed.

Lemma check_task_status_gives_up_on_failed_task_witness :
  Script.check_task_status
    (fun k =>
       if (k <? 2)%nat then Some ∅
       else Some {[ "task-0" :=
                      {| status := FAILURE;
                         result := raise (Exn ZeroDivisionError "Cannot divide by zero") |} ]})
    "task-0" 10
  = {| Script.returned := None;
       Script.requests_made := 3;
       Script.seconds_slept := 2 * Z.of_nat 2 |}.
Proof.
  apply (check_task_status_gives_up_on_failed_task _ "task-0" 10 2).
  - vm_compute. lia.
  - intros j Hj. exists ∅. split; [|reflexivity].
    destruct j as [|[|j]]; [reflexivity|reflexivity|lia].
  - right. eexists. split; reflexivity.
Defined.

(** ** The RAG services, tasks and routes *)

(** X22. [split_documents] takes a chunk overlap of 0 for a missing one:
    called with [chunk_overlap] 0 it splits with the overlap of the
    settings, exactly as when called with [None]; with a chunk size and an
    overlap that are not 0 the settings play no part. *)
Theorem split_documents_takes_zero_overlap_for_missing (settings : Rag.Settings)
    (lib : Rag.Libraries) (documents : pyval) :
  (forall chunk_size,
     Rag.split_documents settings lib documents chunk_size (VInt 0)
     = Rag.split_documents settings lib documents chunk_size
         (VInt (Rag.settings_chunk_overlap settings)) /\
     Rag.split_documents settings lib documents chunk_size VNone
     = Rag.split_documents settings lib documents chunk_size
         (VInt (Rag.settings_chunk_overlap settings))) /\
  (forall chunk_size chunk_overlap settings',
     chunk_size <> 0 -> chunk_overlap <> 0 ->
     Rag.split_documents settings lib documents (VInt chunk_size) (VInt chunk_overlap)
     = Rag.split_documents settings' lib documents (VInt chunk_size) (VInt chunk_overlap) /\
     Rag.split_documents settings lib documents (VInt chunk_size) (VInt chunk_overlap)
     = bind (Rag.to_documents lib documents) (fun doc_objects =>
         bind (Rag.text_splitter lib (VInt chunk_size) (VInt chunk_overlap) doc_objects)
           (fun chunks => ret (VList (map Rag.page chunks))))).
Proof.
  split.
  - intros chunk_size. unfold Rag.split_documents, Py.or_else. cbn [Py.truthy Z.eqb negb].
    by destruct (Rag.settings_chunk_overlap settings =? 0).
  - intros chunk_size chunk_overlap settings' Hcs Hco.
    unfold Rag.split_documents, Py.or_else. cbn [Py.truthy].
    by rewrite (proj2 (Z.eqb_neq _ _) Hcs), (proj2 (Z.eqb_neq _ _) Hco).
Qed.

(** X23. A query against a vector store that cannot answer is reported, not
    raised: when the collection is empty the task returns the error dict
    whose message names the directory, and when the collection is not empty
    but the retrieval finds no document it returns the one that says so; in
    both the answer is [None] and the lists are empty, whatever the chain of
    the language model would do. *)
Theorem query_task_reports_empty_store_and_no_match (settings : Rag.Settings)
    (lib : Rag.Libraries) (question persist_directory top_k : pyval)
    (db : Rag.Chroma lib) (n : Z) :
  Rag.load_vectorstore lib persist_directory = ret db ->
  Rag.collection_count lib db = ret n ->
  n = 0 \/
  Rag.get_relevant_documents lib db
    (Py.or_else top_k (VInt (Rag.settings_retrieval_top_k settings))) question = ret [] ->
  Rag.query_vectorstore_task settings lib question persist_directory top_k
  = ret (VDict [("status", VStr "error");
                ("message",
                 VStr (String.append "Error querying vectorstore: "
                         (if n =? 0 then
                            String.append "Vectorstore at "
                              (String.append (Rag.format lib persist_directory)
                                 " is empty")
                          else "No relevant documents found")));
                ("answer", VNone); ("retrieved_chunks", VList []);
                ("sources", VList [])]).
Proof.
  intros Hload Hcount Hcase. unfold Rag.query_vectorstore_task, Rag.query. rewrite Hload.
  cbn [bind ret]. rewrite Hcount. cbn [bind ret].
  destruct (n =? 0) eqn:Hn; [reflexivity|].
  destruct Hcase as [->|Hdocs]; [discriminate Hn|].
  rewrite Hdocs. reflexivity.
Qed.

Lemma query_task_reports_empty_store_and_no_match_witness :
  Rag.query_vectorstore_task Rag.default_settings some_libraries (VStr "What is it?")
    (VStr "./storage/vectorstores/empty") (VInt 3)
  = ret (VDict [("status", VStr "error");
                ("message",
                 VStr (String.append "Error querying vectorstore: "
                         (if 0 =? 0 then
                            String.append "Vectorstore at "
                              (String.append
                                 (Rag.format some_libraries
                                    (VStr "./storage/vectorstores/empty"))
                                 " is empty")
                          else "No relevant documents found")));
                ("answer", VNone); ("retrieved_chunks", VList []);
                ("sources", VList [])]).
Proof.
  apply (query_task_reports_empty_store_and_no_match Rag.default_settings some_libraries
           (VStr "What is it?") (VStr "./storage/vectorstores/empty") (VInt 3) [] 0).
  - reflexivity.
  - reflexivity.
  - by left.
Defined.

(** X24. What a successful query returns counts its own chunks: whenever
    the task returns a dict whose status is ["success"], the dict gives the
    question it was asked, at least one retrieved chunk, and under
    ["context_used"] the number of these chunks. *)
Theorem query_task_success_counts_its_chunks (settings : Rag.Settings)
    (lib : Rag.Libraries) (question persist_directory top_k : pyval)
    (d : list (string * pyval)) :
  Rag.query_vectorstore_task settings lib question persist_directory top_k = ret (VDict d) ->
  Py.dict_get d "status" = Some (VStr "success") ->
  Py.dict_get d "question" = Some question /\
  exists chunks,
    chunks <> [] /\
    Py.dict_get d "retrieved_chunks" = Some (VList chunks) /\
    Py.dict_get d "context_used" = Some (VInt (Z.of_nat (length chunks))).
Proof.
  unfold Rag.query_vectorstore_task, Rag.try_except, Rag.query.
  destruct (Rag.load_vectorstore lib persist_directory) as [db|e]; cbn [bind ret].
  2: { intros Heq. injection Heq as <-. discriminate. }
  destruct (Rag.collection_count lib db) as [n|e]; cbn [bind ret].
  2: { intros Heq. injection Heq as <-. discriminate. }
  destruct (n =? 0).
  { intros Heq. injection Heq as <-. discriminate. }
  destruct (Rag.get_relevant_documents lib db _ question) as [docs|e]; cbn [bind ret].
  2: { intros Heq. injection Heq as <-. discriminate. }
  destruct docs as [|doc docs].
  { intros Heq. injection Heq as <-. discriminate. }
  destruct (Rag.invoke_chain lib db _ question) as [answer|e]; cbn [bind ret].
  2: { intros Heq. injection Heq as <-. discriminate. }
  destruct (Rag.sources_of lib (doc :: docs)) as [sources|e]; cbn [bind ret].
  2: { intros Heq. injection Heq as <-. discriminate. }
  intros Heq _. injection Heq as <-. split; [reflexivity|].
  eexists. split; [|split; [reflexivity|]].
  - discriminate.
  - cbn. by rewrite length_map.
Qed.

Lemma query_task_success_counts_its_chunks_witness :
  Py.dict_get
    [("status", VStr "success"); ("question", VStr "What is it?");
     ("answer", VStr "I don't know");
     ("retrieved_chunks",
      VList [VDict [("content", VStr "page one");
                    ("metadata", VDict [("source", VStr "paper.pdf")])]]);
     ("sources", VList [VStr "paper.pdf"]); ("context_used", VInt 1)]
    "question" = Some (VStr "What is it?") /\
  exists chunks,
    chunks <> [] /\
    Py.dict_get
      [("status", VStr "success"); ("question", VStr "What is it?");
       ("answer", VStr "I don't know");
       ("retrieved_chunks",
        VList [VDict [("content", VStr "page one");
                      ("metadata", VDict [("source", VStr "paper.pdf")])]]);
       ("sources", VList [VStr "paper.pdf"]); ("context_used", VInt 1)]
      "retrieved_chunks" = Some (VList chunks) /\
    Py.dict_get
      [("status", VStr "success"); ("question", VStr "What is it?");
       ("answer", VStr "I don't know");
       ("retrieved_chunks",
        VList [VDict [("content", VStr "page one");
                      ("metadata", VDict [("source", VStr "paper.pdf")])]]);
       ("sources", VList [VStr "paper.pdf"]); ("context_used", VInt 1)]
      "context_used" = Some (VInt (Z.of_nat (length chunks))).
Proof.
  apply (query_task_success_counts_its_chunks Rag.default_settings some_libraries
           (VStr "What is it?") (VStr "./storage/vectorstores/default") (VInt 3)).
  - reflexivity.
  - reflexivity.
Defined.

Lemma map_result_length {A B} (f : A -> Py.result B) (l : list A) (l' : list B) :
  Py.map_result f l = ret l' -> length l' = length l.
Proof.
  revert l'. induction l as [|x l IH]; intros l'; simpl.
  - intros Heq. by injection Heq as <-.
  - destruct (f x) as [y|e]; [|done]. simpl.
    destruct (Py.map_result f l) as [ys|e]; [|done]. simpl.
    intros Heq. injection Heq as <-. simpl. f_equal. by apply IH.
Qed.

(** X25. The two document tasks count what they return: in every result of
    [load_pdf_task] the ["doc_count"] is the number of ["documents"], and in
    every result of [split_documents_task] the ["chunk_count"] is the number
    of ["chunks"]; a result whose status is ["error"] holds the empty list
    and the count 0. *)
Theorem document_tasks_count_what_they_return (settings : Rag.Settings)
    (lib : Rag.Libraries) :
  (forall pdf_path, exists d documents,
     Rag.load_pdf_task lib pdf_path = ret (VDict d) /\
     Py.dict_get d "documents" = Some (VList documents) /\
     Py.dict_get d "doc_count" = Some (VInt (Z.of_nat (length documents))) /\
     (Py.dict_get d "status" = Some (VStr "error") -> documents = [])) /\
  (forall documents chunk_size chunk_overlap, exists d chunks,
     Rag.split_documents_task settings lib documents chunk_size chunk_overlap
     = ret (VDict d) /\
     Py.dict_get d "chunks" = Some (VList chunks) /\
     Py.dict_get d "chunk_count" = Some (VInt (Z.of_nat (length chunks))) /\
     (Py.dict_get d "status" = Some (VStr "error") -> chunks = [])).
Proof.
  split.
  - intros pdf_path. unfold Rag.load_pdf_task, Rag.try_except, Rag.load_pdf.
    destruct (Rag.pdf_loader lib pdf_path) as [docs|e]; cbn [bind ret Py.len].
    + eexists _, _. split; [reflexivity|]. split; [reflexivity|].
      split; [reflexivity|]. discriminate.
    + eexists _, _. split; [reflexivity|]. split; [reflexivity|].
      split; [reflexivity|]. done.
  - intros documents chunk_size chunk_overlap.
    unfold Rag.split_documents_task, Rag.try_except, Rag.split_documents.
    destruct (Rag.to_documents lib documents) as [objs|e]; cbn [bind ret].
    2: { eexists _, _. split; [reflexivity|]. split; [reflexivity|].
         split; [reflexivity|]. done. }
    destruct (Rag.text_splitter lib _ _ objs) as [chunks|e]; cbn [bind ret Py.len].
    + eexists _, _. split; [reflexivity|]. split; [reflexivity|].
      split; [reflexivity|]. discriminate.
    + eexists _, _. split; [reflexivity|]. split; [reflexivity|].
      split; [reflexivity|]. done.
Qed.

(** X26. [create_vectorstore_task] reports the store it made: a result
    whose status is ["success"] gives under ["vectorstore_path"] the
    directory asked for and under ["chunk_count"] the number of chunks it was
    given, one [Document] having been made of each; otherwise the status is
    ["error"], the path [None] and the count 0. *)
Theorem create_vectorstore_task_counts_the_chunks_given (lib : Rag.Libraries)
    (chunks : list pyval) (persist_directory : pyval) :
  exists d,
    Rag.create_vectorstore_task lib (VList chunks) persist_directory = ret (VDict d) /\
    ((Py.dict_get d "status" = Some (VStr "success") /\
      Py.dict_get d "vectorstore_path" = Some persist_directory /\
      Py.dict_get d "chunk_count" = Some (VInt (Z.of_nat (length chunks))) /\
      exists chunk_objects,
        Rag.to_documents lib (VList chunks) = ret chunk_objects /\
        length chunk_objects = length chunks) \/
     (Py.dict_get d "status" = Some (VStr "error") /\
      Py.dict_get d "vectorstore_path" = Some VNone /\
      Py.dict_get d "chunk_count" = Some (VInt 0))).
Proof.
  unfold Rag.create_vectorstore_task, Rag.try_except, Rag.create_vectorstore.
  destruct (Rag.to_documents lib (VList chunks)) as [objs|e] eqn:Hobjs; cbn [bind ret].
  2: { eexists. split; [reflexivity|]. right. by repeat split. }
  destruct (Rag.chroma_from_documents lib objs persist_directory) as [db|e];
    cbn [bind ret Py.len].
  2: { eexists. split; [reflexivity|]. right. by repeat split. }
  eexists. split; [reflexivity|]. left.
  split; [reflexivity|]. split; [reflexivity|]. split; [reflexivity|].
  exists objs. split; [reflexivity|].
  unfold Rag.to_documents in Hobjs. cbn [Py.iterate bind ret] in Hobjs.
  by apply map_result_length in Hobjs.
Qed.

(** X27. When the PDF cannot be loaded the pipeline stops at the first
    task.  The loader raising [e], [load_pdf_task] returns its error dict;
    [run_rag_pipeline], reading it from the backend, raises the
    [HTTPException] 400 whose detail is the message of the task,
    ["Error loading PDF: "] followed by the text of [e]; only the loading
    task was sent, neither the splitting nor the vector store task. *)
Theorem pipeline_stops_when_the_pdf_cannot_be_loaded (q : string -> string)
    (timeline : nat -> gmap string TaskMeta) (fuel : nat)
    (request : Schemas.RAGPipelineRequest) (lib : Rag.Libraries) (e : pyexn) (k : nat) :
  Rag.pdf_loader lib (VStr (Schemas.pdf_path request)) = raise e ->
  wait_get timeline "task-0" fuel 0
  = Some (Rag.load_pdf_task lib (VStr (Schemas.pdf_path request)), k) ->
  exists st',
    RagRoutes.run_rag_pipeline q timeline fuel request init
    = Some (inr {| Schemas.status_code := 400;
                   Schemas.detail :=
                     VStr (String.append "Error loading PDF: " (str_exn e)) |}, st') /\
    sent (log st')
    = [("task-0", "tasks.load_pdf", [VStr (Schemas.pdf_path request)],
        Some (q "tasks.load_pdf"))].
Proof.
  intros Hload Hwait.
  unfold Rag.load_pdf_task, Rag.try_except, Rag.load_pdf in Hwait.
  rewrite Hload in Hwait. cbn [bind raise ret] in Hwait.
  unfold RagRoutes.run_rag_pipeline, apply_async, freeze, fresh_id.
  cbn [init uuid_seed sig_id]. change (uuid 0) with "task-0". rewrite Hwait.
  eexists. split; [reflexivity|]. reflexivity.
Qed.

Lemma pipeline_stops_when_the_pdf_cannot_be_loaded_witness :
  exists st',
    RagRoutes.run_rag_pipeline some_queue
      (fun _ =>
         {[ "task-0" :=
              settled (Rag.load_pdf_task some_libraries (VStr "missing.pdf")) ]})
      1
      {| Schemas.pdf_path := "missing.pdf"; Schemas.chunk_size := 1000;
         Schemas.chunk_overlap := 200;
         Schemas.persist_directory := "./storage/vectorstores/default" |} init
    = Some (inr {| Schemas.status_code := 400;
                   Schemas.detail :=
                     VStr (String.append "Error loading PDF: "
                             (str_exn (Exn ValueError
                                "File path missing.pdf is not a valid file or url"))) |},
            st') /\
    sent (log st')
    = [("task-0", "tasks.load_pdf", [VStr "missing.pdf"],
        Some (some_queue "tasks.load_pdf"))].
Proof.
  apply (pipeline_stops_when_the_pdf_cannot_be_loaded some_queue _ 1
           {| Schemas.pdf_path := "missing.pdf"; Schemas.chunk_size := 1000;
              Schemas.chunk_overlap := 200;
              Schemas.persist_directory := "./storage/vectorstores/default" |}
           some_libraries
           (Exn ValueError "File path missing.pdf is not a valid file or url") 1).
  - reflexivity.
  - reflexivity.
Defined.

Lemma split_documents_pages settings lib documents chunk_size chunk_overlap chunks :
  Rag.split_documents settings lib documents chunk_size chunk_overlap = ret chunks ->
  exists l, chunks = VList l.
Proof.
  unfold Rag.split_documents.
  destruct (Rag.to_documents lib documents) as [objs|e]; [|done]. cbn [bind ret].
  destruct (Rag.text_splitter lib _ _ objs) as [cs|e]; [|done]. cbn [bind ret].
  intros Heq. injection Heq as <-. by eexists.
Qed.

(** X28. When the PDF is loaded and split, the pipeline sends its three
    tasks in turn, each fed by the one before.  The loader giving the pages
    and the splitter the chunks, [run_rag_pipeline] reads the result of the
    loading task, sends the splitting task with the documents of that
    result and the chunk size and overlap of the request, reads its result,
    sends the vector store task with the chunks of that result and the
    directory of the request, and returns, without waiting for it, the
    response that names the three task ids. *)
Theorem pipeline_feeds_each_task_with_the_result_before (q : string -> string)
    (timeline : nat -> gmap string TaskMeta) (fuel : nat)
    (request : Schemas.RAGPipelineRequest) (settings : Rag.Settings)
    (lib : Rag.Libraries) (docs : list (pyval * pyval)) (chunks : pyval) (k1 k2 : nat) :
  Rag.pdf_loader lib (VStr (Schemas.pdf_path request)) = ret docs ->
  wait_get timeline "task-0" fuel 0
  = Some (Rag.load_pdf_task lib (VStr (Schemas.pdf_path request)), k1) ->
  Rag.split_documents settings lib (VList (map Rag.page docs))
    (VInt (Schemas.chunk_size request)) (VInt (Schemas.chunk_overlap request))
  = ret chunks ->
  wait_get timeline "task-1" fuel k1
  = Some (Rag.split_documents_task settings lib (VList (map Rag.page docs))
            (VInt (Schemas.chunk_size request)) (VInt (Schemas.chunk_overlap request)),
          k2) ->
  exists st',
    RagRoutes.run_rag_pipeline q timeline fuel request init
    = Some (inl {| Schemas.rag_status := "vectorstore_task_running";
                   Schemas.rag_message :=
                     "PDF and transform tasks completed. Vectorstore creation in progress.";
                   Schemas.rag_task_ids :=
                     [("pdf_task_id", "task-0"); ("transform_task_id", "task-1");
                      ("vectorstore_task_id", "task-2")];
                   Schemas.rag_pipeline_config := request |}, st') /\
    sent (log st')
    = [("task-0", "tasks.load_pdf", [VStr (Schemas.pdf_path request)],
        Some (q "tasks.load_pdf"));
       ("task-1", "tasks.split_documents",
        [VList (map Rag.page docs); VInt (Schemas.chunk_size request);
         VInt (Schemas.chunk_overlap request)],
        Some (q "tasks.split_documents"));
       ("task-2", "tasks.create_vectorstore",
        [chunks; VStr (Schemas.persist_directory request)],
        Some (q "tasks.create_vectorstore"))].
Proof.
  intros Hload Hwait1 Hsplit Hwait2.
  destruct (split_documents_pages _ _ _ _ _ _ Hsplit) as [l ->].
  unfold Rag.load_pdf_task, Rag.try_except, Rag.load_pdf in Hwait1.
  rewrite Hload in Hwait1. cbn [bind raise ret Py.len] in Hwait1.
  unfold Rag.split_documents_task, Rag.try_except in Hwait2.
  rewrite Hsplit in Hwait2. cbn [bind raise ret Py.len] in Hwait2.
  unfold RagRoutes.run_rag_pipeline, apply_async, freeze, fresh_id.
  cbn [init uuid_seed sig_id]. change (uuid 0) with "task-0". rewrite Hwait1.
  cbn -[wait_get]. change (uuid 1) with "task-1". rewrite Hwait2.
  eexists. split; [reflexivity|]. reflexivity.
Qed.

Lemma pipeline_feeds_each_task_with_the_result_before_witness :
  exists st',
    RagRoutes.run_rag_pipeline some_queue
      (fun _ =>
         {[ "task-0" := settled (Rag.load_pdf_task some_libraries (VStr "paper.pdf"));
            "task-1" :=
              settled (Rag.split_documents_task Rag.default_settings some_libraries
                         (VList (map Rag.page
                                   [(VStr "page one",
                                     VDict [("source", VStr "paper.pdf")])]))
                         (VInt 1000) (VInt 200)) ]})
      1 some_pipeline_request init
    = Some (inl {| Schemas.rag_status := "vectorstore_task_running";
                   Schemas.rag_message :=
                     "PDF and transform tasks completed. Vectorstore creation in progress.";
                   Schemas.rag_task_ids :=
                     [("pdf_task_id", "task-0"); ("transform_task_id", "task-1");
                      ("vectorstore_task_id", "task-2")];
                   Schemas.rag_pipeline_config := some_pipeline_request |}, st') /\
    sent (log st')
    = [("task-0", "tasks.load_pdf", [VStr (Schemas.pdf_path some_pipeline_request)],
        Some (some_queue "tasks.load_pdf"));
       ("task-1", "tasks.split_documents",
        [VList (map Rag.page [(VStr "page one", VDict [("source", VStr "paper.pdf")])]);
         VInt (Schemas.chunk_size some_pipeline_request);
         VInt (Schemas.chunk_overlap some_pipeline_request)],
        Some (some_queue "tasks.split_documents"));
       ("task-2", "tasks.create_vectorstore",
        [VList (map Rag.page [(VStr "page one", VDict [("source", VStr "paper.pdf")])]);
         VStr (Schemas.persist_directory some_pipeline_request)],
        Some (some_queue "tasks.create_vectorstore"))].
Proof.
  apply (pipeline_feeds_each_task_with_the_result_before some_queue _ 1
           some_pipeline_request Rag.default_settings some_libraries
           [(VStr "page one", VDict [("source", VStr "paper.pdf")])]
           (VList (map Rag.page [(VStr "page one", VDict [("source", VStr "paper.pdf")])]))
           1 2).
  - reflexivity.
  - reflexivity.
  - reflexivity.
  - reflexivity.
Defined.

Section QueryRuns.

Variable settings : Rag.Settings.
Variable lib : Rag.Libraries.


End QueryRuns.



(** X30. The synchronous query answers a reported error with a 500, and a
    success with the response made of the task's dict.  Reading from the
    backend what [query_vectorstore_task] returned, [query_vectorstore_sync]
    raises, when [RAGService.query] raised [e], the [HTTPException] 500
    whose detail is ["Error querying vectorstore: "] followed by the text of
    [e], and otherwise hands to [QueryResponse] the status ["success"], the
    question, and the items of what [RAGService.query] returned; the task
    was sent once, with no positional argument. *)
Theorem query_sync_answers_500_for_a_reported_error (q : string -> string)
    (timeline : nat -> gmap string TaskMeta) (R : Type)
    (QueryResponse : list (string * pyval) -> Py.result R) (fuel : nat)
    (request : QueryRoutes.QueryRequest) (settings : Rag.Settings)
    (lib : Rag.Libraries) (k : nat) :
  wait_get timeline "task-0" fuel 0
  = Some (Rag.query_vectorstore_task settings lib (VStr (QueryRoutes.question request))
            (VStr (QueryRoutes.persist_directory request))
            (VInt (QueryRoutes.top_k request)), k) ->
  exists st',
    QueryRoutes.query_vectorstore_sync q timeline R QueryResponse fuel request init
    = Some (match Rag.query settings lib (VStr (QueryRoutes.question request))
                    (VStr (QueryRoutes.persist_directory request))
                    (VInt (QueryRoutes.top_k request)) with
            | inr e =>
                QueryRoutes.Raised
                  {| Schemas.status_code := 500;
                     Schemas.detail :=
                       VStr (String.append "Error querying vectorstore: " (str_exn e)) |}
            | inl result =>
                match bind (Rag.items result) (fun rest =>
                        QueryResponse
                          (("status", VStr "success")
                           :: ("question", VStr (QueryRoutes.question request))
                           :: rest)) with
                | inl response => QueryRoutes.Returned response
                | inr e => QueryRoutes.Crashed e
                end
            end, st') /\
    sent (log st')
    = [("task-0", "tasks.query_vectorstore", [], Some (q "tasks.query_vectorstore"))].
Proof.
  intros Hwait.
  unfold QueryRoutes.query_vectorstore_sync, apply_async, freeze, fresh_id.
  cbn [init uuid_seed sig_id]. change (uuid 0) with "task-0". rewrite Hwait.
  lazymatch goal with
  | |- context [Some (QueryRoutes.Crashed _, ?s)] => exists s
  end.
  split; [|reflexivity].
  unfold Rag.query_vectorstore_task, Rag.try_except.
  destruct (Rag.query settings lib _ _ _) as [result|e] eqn:Hres.
  - apply query_keys in Hres as (answer & chunks & sources & n & ->).
    cbn. by destruct (QueryResponse _).
  - reflexivity.
Qed.

Lemma query_sync_answers_500_for_a_reported_error_witness :
  exists st',
    QueryRoutes.query_vectorstore_sync some_queue
      (fun _ =>
         {[ "task-0" :=
              settled (Rag.query_vectorstore_task Rag.default_settings some_libraries
                         (VStr "What is it?") (VStr "./storage/vectorstores/empty")
                         (VInt 3)) ]})
      (list (string * pyval)) ret 1
      {| QueryRoutes.question := "What is it?";
         QueryRoutes.persist_directory := "./storage/vectorstores/empty";
         QueryRoutes.top_k := 3 |} init
    = Some (QueryRoutes.Raised
              {| Schemas.status_code := 500;
                 Schemas.detail :=
                   VStr "Error querying vectorstore: Vectorstore at ./storage/vectorstores/empty is empty" |},
            st') /\
    sent (log st')
    = [("task-0", "tasks.query_vectorstore", [],
        Some (some_queue "tasks.query_vectorstore"))].
Proof.
  apply (query_sync_answers_500_for_a_reported_error some_queue _
           (list (string * pyval)) ret 1
           {| QueryRoutes.question := "What is it?";
              QueryRoutes.persist_directory := "./storage/vectorstores/empty";
              QueryRoutes.top_k := 3 |} Rag.default_settings some_libraries 1).
  reflexivity.
Defined.
